(** * The family-share backend: key-value store shim and owner-name resolver

    A shallow embedding of [backend/main.py].  The module keeps one JSON
    document in a data file ([storage_get], [storage_set]) and resolves
    account ids to display names through a profile document fetched over
    HTTP, with a cache stored under a reserved key of the same document
    ([resolve_owner_names]).

    Python values are an inductive type, the file system and the network
    are an explicit world and environment, and every function of the
    module is a computation in a small state-and-exception monad that
    keeps the effects performed so far in a log. *)

From Stdlib Require Import String Ascii List ZArith Bool Arith Lia.
From Stdlib Require Import DecimalString.
Import ListNotations.
Local Open Scope string_scope.
Local Open Scope list_scope.

#[local] Set Warnings "-register-all".

(* ================================================================== *)
(** * Python values *)
(* ================================================================== *)

(** The values [json.load] returns, and the objects [json.dumps]
    refuses.  A Python [str] is a Rocq [string]; a character stands for
    the code point of the same number (U+0000 to U+00FF).  A [float] is
    kept as the text [float.__repr__] gives for it (["0.5"], ["1e+22"],
    ["inf"], ["nan"]).  A [dict] is the list of its items in insertion
    order; its keys are [str], as in every dict that [json.load] and
    [json.loads] return.  [VObject] is an object of a type for which
    [json.dumps] has no encoding (a set, bytes, an instance of a class
    of its own, ...): the module can only test its type, take its truth
    value or hand it to [json.dumps], which refuses it.  What
    [json.dumps] encodes but [json.load] never returns (a tuple, a dict
    with a key that is not a [str]) has no place here, nor has a value
    nested beyond the recursion limit of the interpreter. *)
Inductive pyval : Type :=
| VNone
| VBool (b : bool)
| VInt (z : Z)
| VFloat (repr : string)
| VStr (s : string)
| VList (items : list pyval)
| VDict (items : list (string * pyval))
| VObject (type_name : string) (truthy : bool).

(** [bool(v)]. *)
Definition py_bool (v : pyval) : bool :=
  match v with
  | VNone => false
  | VBool b => b
  | VInt z => negb (Z.eqb z 0)
  | VFloat repr => negb (String.eqb repr "0.0" || String.eqb repr "-0.0")
  | VStr s => negb (String.eqb s "")
  | VList items => match items with [] => false | _ => true end
  | VDict items => match items with [] => false | _ => true end
  | VObject _ t => t
  end.

(** [type(v).__name__], as it appears in error messages. *)
Definition py_type_name (v : pyval) : string :=
  match v with
  | VNone => "NoneType"
  | VBool _ => "bool"
  | VInt _ => "int"
  | VFloat _ => "float"
  | VStr _ => "str"
  | VList _ => "list"
  | VDict _ => "dict"
  | VObject n _ => n
  end.

(* ================================================================== *)
(** * Dicts *)
(* ================================================================== *)

Section Dict.
Context {V : Type}.

(** [d.get(k)]: the value of the first item with key [k]. *)
Fixpoint dict_get (d : list (string * V)) (k : string) : option V :=
  match d with
  | [] => None
  | (k', v) :: rest => if String.eqb k' k then Some v else dict_get rest k
  end.

(** [d[k] = v]: an existing key keeps its place, a new key goes last. *)
Fixpoint dict_set (d : list (string * V)) (k : string) (v : V)
  : list (string * V) :=
  match d with
  | [] => [(k, v)]
  | (k', v') :: rest =>
      if String.eqb k' k then (k', v) :: rest
      else (k', v') :: dict_set rest k v
  end.

Definition dict_keys (d : list (string * V)) : list string := map fst d.
End Dict.

(* ================================================================== *)
(** * Strings: [str.strip], [str.split] *)
(* ================================================================== *)

(** The characters [str.strip()] removes, among the code points below
    256: TAB to CR, FS to US, space, NEL and the no-break space. *)
Definition is_space (c : ascii) : bool :=
  let n := nat_of_ascii c in
  (((9 <=? n) && (n <=? 13)) || ((28 <=? n) && (n <=? 32))
   || (n =? 133) || (n =? 160))%nat.

Fixpoint lstrip (s : string) : string :=
  match s with
  | EmptyString => EmptyString
  | String c rest => if is_space c then lstrip rest else s
  end.

Fixpoint rstrip (s : string) : string :=
  match s with
  | EmptyString => EmptyString
  | String c rest =>
      match rstrip rest with
      | EmptyString => if is_space c then EmptyString else String c EmptyString
      | r => String c r
      end
  end.

(** [s.strip()]. *)
Definition strip (s : string) : string := rstrip (lstrip s).

(** [s.split(",")]: always at least one piece. *)
Fixpoint split_comma (s : string) : list string :=
  match s with
  | EmptyString => [EmptyString]
  | String c rest =>
      if Ascii.eqb c "," then EmptyString :: split_comma rest
      else match split_comma rest with
           | [] => [String c EmptyString]
           | piece :: pieces => String c piece :: pieces
           end
  end.

(* ================================================================== *)
(** * Exceptions *)
(* ================================================================== *)

(** [OSError], [FileNotFoundError], [JSONDecodeError], [URLError] and
    [ParseError] come from the file system, the network and the parsers;
    [TypeError], [ValueError] and [AttributeError] from misuse of a
    value. *)
Inductive exn : Type :=
| OSError (msg : string)
| FileNotFoundError
| JSONDecodeError
| URLError
| ParseError
| TypeError (msg : string)
| ValueError (msg : string)
| AttributeError (msg : string).

(* ================================================================== *)
(** * [json.dumps(v, ensure_ascii=False)] *)
(* ================================================================== *)

Definition dquote : string := String (ascii_of_nat 34) EmptyString.

Definition hex_digit (n : nat) : ascii :=
  if (n <? 10)%nat then ascii_of_nat (48 + n) else ascii_of_nat (87 + n).

(** One character inside a JSON string: the quote, the backslash and the
    control characters are escaped, everything else is kept. *)
Definition escape_char (c : ascii) : string :=
  let n := nat_of_ascii c in
  if (n =? 34)%nat then "\" ++ dquote
  else if (n =? 92)%nat then "\\"
  else if (n =? 10)%nat then "\n"
  else if (n =? 13)%nat then "\r"
  else if (n =? 9)%nat then "\t"
  else if (n =? 8)%nat then "\b"
  else if (n =? 12)%nat then "\f"
  else if (n <? 32)%nat then
    "\u00" ++ String (hex_digit (n / 16)) (String (hex_digit (n mod 16)) "")
  else String c "".

Fixpoint escape (s : string) : string :=
  match s with
  | EmptyString => EmptyString
  | String c rest => escape_char c ++ escape rest
  end.

Definition encode_basestring (s : string) : string :=
  dquote ++ escape s ++ dquote.

Definition string_of_Z (z : Z) : string := NilZero.string_of_int (Z.to_int z).

Fixpoint join (sep : string) (l : list string) : string :=
  match l with
  | [] => ""
  | [x] => x
  | x :: rest => x ++ sep ++ join sep rest
  end.

(** What [json.dumps] does: the text, or the exception it raises at the
    first value, in the order written, that it cannot encode. *)
Inductive dumped : Type :=
| Text (s : string)
| Refused (e : exn).

(** The [TypeError] for an object of a type without an encoding. *)
Definition not_serializable (type_name : string) : exn :=
  TypeError ("Object of type " ++ type_name ++ " is not JSON serializable").

(** The interpreter turns an [int] into decimal text only when it has at
    most [sys.get_int_max_str_digits()] digits, 4300 unless the host
    changed it; beyond, [int.__repr__] raises [ValueError], and so does
    [json.dumps]. *)
Definition INT_MAX_STR_DIGITS : Z := 4300.

Definition digit_limit : exn :=
  ValueError ("Exceeds the limit (4300 digits) for integer string conversion; "
              ++ "use sys.set_int_max_str_digits() to increase the limit").

(** The number of decimal digits of an [int], its sign left out. *)
Definition int_digits (z : Z) : Z :=
  Z.of_nat (String.length (string_of_Z (Z.abs z))).

(** The text of a [float]: its [repr], but for the three values JSON has
    no text for. *)
Definition float_text (repr : string) : string :=
  if String.eqb repr "nan" then "NaN"
  else if String.eqb repr "inf" then "Infinity"
  else if String.eqb repr "-inf" then "-Infinity"
  else repr.

Fixpoint collect (l : list dumped) : list string + exn :=
  match l with
  | [] => inl []
  | Text s :: rest =>
      match collect rest with
      | inl texts => inl (s :: texts)
      | inr ex => inr ex
      end
  | Refused ex :: _ => inr ex
  end.

Fixpoint json_dumps (v : pyval) : dumped :=
  match v with
  | VNone => Text "null"
  | VBool true => Text "true"
  | VBool false => Text "false"
  | VInt z =>
      if Z.ltb INT_MAX_STR_DIGITS (int_digits z) then Refused digit_limit
      else Text (string_of_Z z)
  | VFloat repr => Text (float_text repr)
  | VStr s => Text (encode_basestring s)
  | VList items =>
      match collect (map json_dumps items) with
      | inl texts => Text ("[" ++ join ", " texts ++ "]")
      | inr ex => Refused ex
      end
  | VDict items =>
      match collect (map (fun kv =>
                            match json_dumps (snd kv) with
                            | Text s => Text (encode_basestring (fst kv) ++ ": " ++ s)
                            | Refused ex => Refused ex
                            end) items) with
      | inl texts => Text ("{" ++ join ", " texts ++ "}")
      | inr ex => Refused ex
      end
  | VObject t _ => Refused (not_serializable t)
  end.

Definition str_dict (d : list (string * string)) : pyval :=
  VDict (map (fun kv => (fst kv, VStr (snd kv))) d).

(* ================================================================== *)
(** * The world: data file, effects *)
(* ================================================================== *)

(** What [DATA_FILE] holds: nothing, something that opening, decoding or
    [json.load] fails on, or a JSON text that [json.load] turns into [v]. *)
Inductive file_state : Type :=
| FileMissing
| FileUnreadable (e : exn)
| FileJson (v : pyval).

(** The effects a call performs, oldest first.  [EvPrintExn msg e] is
    [print(f"{msg}{e}")]. *)
Inductive event : Type :=
| EvPrint (msg : string)
| EvPrintExn (msg : string) (e : exn)
| EvExists
| EvRead
| EvMakedirs
| EvWrite (data : pyval)
| EvFetch (url : string).

Record world : Type := mkWorld {
  data_file : file_state;
  log : list event
}.

(** How the surroundings answer: what becomes of an attempt to write the
    data file, and what an HTTP GET of a URL yields. *)
Inductive write_fate : Type :=
| WriteSucceeds
| MakedirsRaises (e : exn)
| OpenRaises (e : exn)
| DumpRaises (e : exn).

Inductive http_reply : Type :=
| UrlopenRaises (e : exn)
| FromstringRaises (e : exn)
| XmlRoot (steamID : option string).

Record env : Type := mkEnv {
  on_write : write_fate;
  on_get : string -> http_reply
}.

Inductive outcome (A : Type) : Type :=
| Returns (a : A)
| Raises (e : exn).
Arguments Returns {A} a.
Arguments Raises {A} e.

(** A computation: from the world before to the outcome and the world
    after; effects made before an exception stay made. *)
Definition M (A : Type) : Type := world -> outcome A * world.

Definition ret {A} (a : A) : M A := fun w => (Returns a, w).

Definition raise {A} (e : exn) : M A := fun w => (Raises e, w).

Definition bind {A B} (c : M A) (k : A -> M B) : M B :=
  fun w =>
    match c w with
    | (Returns a, w') => k a w'
    | (Raises e, w') => (Raises e, w')
    end.

(** [try: body  except Exception as e: handler e]. *)
Definition try_except {A} (body : M A) (handler : exn -> M A) : M A :=
  fun w =>
    match body w with
    | (Returns a, w') => (Returns a, w')
    | (Raises e, w') => handler e w'
    end.

Declare Scope py_scope.
Delimit Scope py_scope with py.
Notation "x <- c ;; k" := (bind c (fun x => k))
  (at level 61, c at next level, right associativity) : py_scope.
Notation "c ;; k" := (bind c (fun _ => k))
  (at level 61, right associativity) : py_scope.
Local Open Scope py_scope.

Definition emit (ev : event) : M unit :=
  fun w => (Returns tt, mkWorld (data_file w) (log w ++ [ev])).

Definition print (msg : string) : M unit := emit (EvPrint msg).

Definition print_exn (msg : string) (e : exn) : M unit := emit (EvPrintExn msg e).

Definition set_file (f : file_state) : M unit :=
  fun w => (Returns tt, mkWorld f (log w)).

(** [for x in l: s = body x s]. *)
Fixpoint for_each {A S} (l : list A) (body : A -> S -> M S) (s : S) : M S :=
  match l with
  | [] => ret s
  | x :: rest => s' <- body x s ;; for_each rest body s'
  end.

(** [os.path.exists(DATA_FILE)]. *)
Definition os_path_exists : M bool :=
  emit EvExists ;;
  fun w => (Returns (match data_file w with FileMissing => false | _ => true end), w).

(** [with open(DATA_FILE, "r", encoding="utf-8") as f: json.load(f)]. *)
Definition json_load_file : M pyval :=
  emit EvRead ;;
  fun w =>
    match data_file w with
    | FileMissing => (Raises FileNotFoundError, w)
    | FileUnreadable e => (Raises e, w)
    | FileJson v => (Returns v, w)
    end.

(** [with open(DATA_FILE, "w", encoding="utf-8") as f:
       json.dump(data, f, ensure_ascii=False, indent=2)].
    Opening truncates the file; a dump that raises leaves a text that is
    not JSON. *)
Definition json_dump_file (e : env) (data : pyval) : M unit :=
  emit (EvWrite data) ;;
  match on_write e with
  | OpenRaises ex => raise ex
  | DumpRaises ex => set_file (FileUnreadable JSONDecodeError) ;; raise ex
  | WriteSucceeds | MakedirsRaises _ =>
      match json_dumps data with
      | Refused ex => set_file (FileUnreadable JSONDecodeError) ;; raise ex
      | Text _ => set_file (FileJson data)
      end
  end.

(** [d.get(k)] on any value: only a dict has the method. *)
Definition py_get (d : pyval) (k : string) : M pyval :=
  match d with
  | VDict items =>
      ret (match dict_get items k with Some v => v | None => VNone end)
  | _ => raise (AttributeError
                  ("'" ++ py_type_name d ++ "' object has no attribute 'get'"))
  end.

(** [d[k] = v] with a [str] key on any value. *)
Definition py_setitem (d : pyval) (k : string) (v : pyval) : M pyval :=
  match d with
  | VDict items => ret (VDict (dict_set items k v))
  | VList _ => raise (TypeError "list indices must be integers or slices, not str")
  | _ => raise (TypeError
                  ("'" ++ py_type_name d ++ "' object does not support item assignment"))
  end.

(* ================================================================== *)
(** * The module *)
(* ================================================================== *)

Definition STEAM_PROFILE_XML_URL (steam_id : string) : string :=
  "https://steamcommunity.com/profiles/" ++ steam_id ++ "/?xml=1".

Definition OWNER_NAME_CACHE_KEY : string := "sfs.ownerNames.v1".

Definition LOG_PREFIX : string := "[steam-family-share-source] ".

(** The dict a caller may pass as [payload], seen through the entries
    the module asks for; an entry is [None] when the dict lacks it.  The
    ["key"] entry is a [str] or [None], like the [key] argument. *)
Record payload_dict : Type := mkPayload {
  p_key : option (option string);
  p_value : option pyval;
  p_steam_ids : option pyval;
  p_steam_ids_csv : option pyval;
  p_force_refresh : option pyval
}.

(** [payload.get(name, default)] when [payload] is a dict ([Some d]),
    [default] when it is anything else. *)
Definition payload_get {A} (payload : option payload_dict)
    (entry : payload_dict -> option A) (default : A) : A :=
  match payload with
  | Some d => match entry d with Some v => v | None => default end
  | None => default
  end.

(** [os.path.isfile] on the backend directory and [os.makedirs(dir_path,
    exist_ok=True)], as one step that may raise. *)
Definition _ensure_dir (e : env) : M unit :=
  emit EvMakedirs ;;
  match on_write e with
  | MakedirsRaises ex => raise ex
  | _ => ret tt
  end.

Definition _load_all : M pyval :=
  try_except
    (present <- os_path_exists ;;
     if negb present then ret (VDict [])
     else json_load_file)
    (fun _ => ret (VDict [])).

Definition _write_all (e : env) (data : pyval) : M bool :=
  try_except
    (_ensure_dir e ;;
     json_dump_file e data ;;
     ret true)
    (fun ex =>
       print_exn (LOG_PREFIX ++ "write failed: ") ex ;;
       ret false).

Definition storage_get (payload : option payload_dict) (key : option string)
  : M pyval :=
  let key := payload_get payload p_key key in
  match key with
  | None => ret VNone
  | Some key =>
      data <- _load_all ;;
      py_get data key
  end.

(** [json.dumps(value, ensure_ascii=False)] as a computation. *)
Definition py_json_dumps (v : pyval) : M string :=
  match json_dumps v with
  | Text s => ret s
  | Refused ex => raise ex
  end.

Definition storage_set (e : env) (payload : option payload_dict)
    (key : option string) (value : pyval) : M bool :=
  let key := payload_get payload p_key key in
  let value := payload_get payload p_value value in
  match key with
  | None =>
      print (LOG_PREFIX ++ "storage_set missing key") ;;
      ret false
  | Some key =>
      match value with
      | VNone =>
          print (LOG_PREFIX ++ "storage_set received None for key=" ++ key
                 ++ ", skipping write") ;;
          ret false
      | _ =>
          serialized <-
            match value with
            | VStr s => ret (Some s)
            | _ =>
                try_except
                  (s <- py_json_dumps value ;; ret (Some s))
                  (fun _ =>
                     print (LOG_PREFIX
                            ++ "storage_set received non-serializable value for key="
                            ++ key) ;;
                     ret None)
            end ;;
          match serialized with
          | None => ret false
          | Some value =>
              data <- _load_all ;;
              data <- py_setitem data key (VStr value) ;;
              _write_all e data
          end
      end
  end.

(** [urlopen(req, timeout=6)], [resp.read()], [ET.fromstring(body)] and
    [root.findtext("steamID")] on the profile document at [url]. *)
Definition profile_steamID (e : env) (url : string) : M (option string) :=
  emit (EvFetch url) ;;
  match on_get e url with
  | UrlopenRaises ex => raise ex
  | FromstringRaises ex => raise ex
  | XmlRoot steamID => ret steamID
  end.

(** [x or ""] for [x] a [str] or [None]. *)
Definition or_empty (x : option string) : string :=
  match x with
  | Some s => s
  | None => ""
  end.

Definition _fetch_owner_name_from_profile_xml (e : env) (steam_id : string)
  : M (option string) :=
  try_except
    (let url := STEAM_PROFILE_XML_URL steam_id in
     steamID <- profile_steamID e url ;;
     let name := strip (or_empty steamID) in
     if String.eqb name "" then ret None
     else ret (Some name))
    (fun _ => ret None).

Definition _parse_steam_ids (steam_ids steam_ids_csv : pyval) : list string :=
  let parsed :=
    match steam_ids with
    | VList items =>
        flat_map (fun x => match x with VStr s => [s] | _ => [] end) items
    | _ =>
        match steam_ids_csv with
        | VStr csv => split_comma csv
        | _ => []
        end
    end in
  let '(unique, seen) :=
    fold_left
      (fun (st : list string * list string) steam_id =>
         let '(unique, seen) := st in
         let sid := strip steam_id in
         if String.eqb sid "" || existsb (String.eqb sid) seen then st
         else (unique ++ [sid], sid :: seen))
      parsed ([], []) in
  unique.

Section Resolver.

(** [json.loads] on the text kept under the cache key: [None] when it
    raises.  The parser belongs to the standard library; the module's
    behaviour is stated for whatever it returns. *)
Variable json_loads : string -> option pyval.

(** The test [isinstance(steam_id, str)] holds of every key by the type
    of dicts; the test on [owner_name] is the match on [VStr]. *)
Definition _normalize_owner_name_cache (raw : pyval) : list (string * string) :=
  let raw :=
    match raw with
    | VStr s => match json_loads s with Some v => v | None => VDict [] end
    | _ => raw
    end in
  match raw with
  | VDict items =>
      fold_left
        (fun (normalized : list (string * string)) (item : string * pyval) =>
           let '(steam_id, owner_name) := item in
           match owner_name with
           | VStr owner_name =>
               let sid := strip steam_id in
               let name := strip owner_name in
               if String.eqb sid "" || String.eqb name "" then normalized
               else dict_set normalized sid name
           | _ => normalized
           end)
        items []
  | _ => []
  end.

(** The three variables the loop of [resolve_owner_names] updates. *)
Record loop_state : Type := mkLoop {
  owner_name_cache : list (string * string);
  result : list (string * string);
  cache_updated : bool
}.

(** [x if x else None] for [x] a [str] or [None]: what passes [if x:]. *)
Definition if_truthy (x : option string) : option string :=
  match x with
  | Some s => if String.eqb s "" then None else Some s
  | None => None
  end.

(** One turn of [for steam_id in normalized_ids]. *)
Definition resolve_one (e : env) (force_refresh : bool) (steam_id : string)
    (st : loop_state) : M loop_state :=
  let cached :=
    if force_refresh then None
    else dict_get (owner_name_cache st) steam_id in
  match if_truthy cached with
  | Some cached =>
      ret (mkLoop (owner_name_cache st)
                  (dict_set (result st) steam_id cached)
                  (cache_updated st))
  | None =>
      name <- _fetch_owner_name_from_profile_xml e steam_id ;;
      match if_truthy name with
      | Some name =>
          ret (mkLoop (dict_set (owner_name_cache st) steam_id name)
                      (dict_set (result st) steam_id name)
                      true)
      | None => ret st
      end
  end.

Definition resolve_owner_names (e : env) (payload : option payload_dict)
    (steam_ids steam_ids_csv : pyval) (force_refresh : bool) : M string :=
  let steam_ids := payload_get payload p_steam_ids steam_ids in
  let steam_ids_csv := payload_get payload p_steam_ids_csv steam_ids_csv in
  let force_refresh :=
    match payload with
    | Some _ => py_bool (payload_get payload p_force_refresh (VBool force_refresh))
    | None => force_refresh
    end in
  let normalized_ids := _parse_steam_ids steam_ids steam_ids_csv in
  if Nat.eqb (length normalized_ids) 0 then ret "{}"
  else
    data <- _load_all ;;
    raw <- py_get data OWNER_NAME_CACHE_KEY ;;
    st <- for_each normalized_ids (resolve_one e force_refresh)
            (mkLoop (_normalize_owner_name_cache raw) [] false) ;;
    (if cache_updated st then
       text <- py_json_dumps (str_dict (owner_name_cache st)) ;;
       data <- py_setitem data OWNER_NAME_CACHE_KEY (VStr text) ;;
       _write_all e data ;;
       ret tt
     else ret tt) ;;
    text <- py_json_dumps (str_dict (result st)) ;;
    ret text.

End Resolver.

(** The shim some templates call: it prints and returns [None],
    whatever the arguments. *)
Definition Backend_receive_frontend_message : M pyval :=
  print (LOG_PREFIX ++ "Backend.receive_frontend_message stub") ;;
  ret VNone.

Module Backend.
Definition receive_frontend_message : M pyval :=
  Backend_receive_frontend_message.
End Backend.

(** The methods of [class Plugin]: the hooks of the host, and the entry
    points, which only forward. *)
Module Plugin.
(** [ready] is [Millennium.ready], the call that tells the host the
    plugin is loaded; it belongs to the host and is any computation. *)
Definition _load (e : env) (ready : M unit) : M unit :=
  _ensure_dir e ;;
  present <- os_path_exists ;;
  (if negb present then _write_all e (VDict []) ;; ret tt else ret tt) ;;
  ready.

Definition _unload : M unit := ret tt.

Definition _front_end_loaded : M unit := ret tt.

Definition storage_get (key : string) : M pyval :=
  storage_get None (Some key).

Definition storage_set (e : env) (key : string) (value : pyval) : M bool :=
  storage_set e None (Some key) value.

Definition resolve_owner_names (json_loads : string -> option pyval)
    (e : env) (steam_ids_csv : string) (force_refresh : bool) : M string :=
  resolve_owner_names json_loads e None VNone (VStr steam_ids_csv) force_refresh.
End Plugin.

(* ================================================================== *)
(** * Specification-side definitions *)
(* ================================================================== *)

(** ** The store *)

(** The document a call works on: what [_load_all] returns. *)
Definition loaded (f : file_state) : pyval :=
  match f with
  | FileMissing => VDict []
  | FileUnreadable _ => VDict []
  | FileJson v => v
  end.

(** The string kept for a value: a [str] as it is, anything else as its
    JSON text. *)
Definition stored_text (v : pyval) : option string :=
  match v with
  | VStr s => Some s
  | _ => match json_dumps v with Text s => Some s | Refused _ => None end
  end.

(** A write of [data] goes through. *)
Definition write_succeeds (e : env) (data : pyval) : bool :=
  match on_write e, json_dumps data with
  | WriteSucceeds, Text _ => true
  | _, _ => false
  end.

Definition is_write (ev : event) : bool :=
  match ev with EvWrite _ => true | _ => false end.

Definition is_file_access (ev : event) : bool :=
  match ev with
  | EvExists | EvRead | EvMakedirs | EvWrite _ => true
  | _ => false
  end.

Definition is_fetch (ev : event) : bool :=
  match ev with EvFetch _ => true | _ => false end.

(** The effects of one [_load_all]. *)
Definition load_events (f : file_state) : list event :=
  match f with
  | FileMissing => [EvExists]
  | _ => [EvExists; EvRead]
  end.

(** The outcome of one [_write_all]: what it returns, the file it leaves
    and its effects. *)
Definition write_effect (e : env) (data : pyval) (f : file_state)
  : bool * file_state * list event :=
  let failed ex := EvPrintExn (LOG_PREFIX ++ "write failed: ") ex in
  match on_write e with
  | MakedirsRaises ex => (false, f, [EvMakedirs; failed ex])
  | OpenRaises ex => (false, f, [EvMakedirs; EvWrite data; failed ex])
  | DumpRaises ex =>
      (false, FileUnreadable JSONDecodeError,
       [EvMakedirs; EvWrite data; failed ex])
  | WriteSucceeds =>
      match json_dumps data with
      | Text _ => (true, FileJson data, [EvMakedirs; EvWrite data])
      | Refused ex =>
          (false, FileUnreadable JSONDecodeError,
           [EvMakedirs; EvWrite data; failed ex])
      end
  end.

(** ** Strings *)

(** [s] is empty or starts with a character that is not white space. *)
Definition starts_clean (s : string) : Prop :=
  match s with
  | EmptyString => True
  | String c _ => is_space c = false
  end.

(** A string is trimmed when [strip] leaves it alone. *)
Definition trimmed (s : string) : Prop := strip s = s.

Definition item_text (kv : string * string) : string :=
  encode_basestring (fst kv) ++ ": " ++ encode_basestring (snd kv).

(** [json.dumps(d, ensure_ascii=False)] for [d : dict[str, str]]. *)
Definition str_dict_text (d : list (string * string)) : string :=
  "{" ++ join ", " (map item_text d) ++ "}".

(** ** Parsing the ids *)

(** The entries handed in: the [str] items of the list when [steam_ids]
    is a list, else the comma-separated pieces when [steam_ids_csv] is a
    [str], else nothing. *)
Definition raw_entries (steam_ids steam_ids_csv : pyval) : list string :=
  match steam_ids with
  | VList items =>
      flat_map (fun x => match x with VStr s => [s] | _ => [] end) items
  | _ =>
      match steam_ids_csv with
      | VStr csv => split_comma csv
      | _ => []
      end
  end.

(** Each element once, at the place of its first occurrence. *)
Fixpoint first_seen (l : list string) : list string :=
  match l with
  | [] => []
  | x :: rest => x :: filter (fun y => negb (String.eqb x y)) (first_seen rest)
  end.

(** The spec's words: trim the entries, drop the empty ones, deduplicate
    preserving first-seen order. *)
Definition trimmed_unique (entries : list string) : list string :=
  first_seen (filter (fun s => negb (String.eqb s "")) (map strip entries)).

Definition str_mem (x : string) (l : list string) : bool :=
  existsb (String.eqb x) l.

(** The body of the deduplication loop of [_parse_steam_ids]. *)
Definition parse_step (st : list string * list string) (steam_id : string)
  : list string * list string :=
  let '(unique, seen) := st in
  let sid := strip steam_id in
  if String.eqb sid "" || existsb (String.eqb sid) seen then st
  else (unique ++ [sid], sid :: seen).

(** ** Resolving one id *)

(** What a fetch of [steam_id] yields in surroundings [e]: the trimmed
    [steamID] text of the profile when it is not empty. *)
Definition fetch_name (e : env) (steam_id : string) : option string :=
  match on_get e (STEAM_PROFILE_XML_URL steam_id) with
  | XmlRoot steamID => if_truthy (Some (strip (or_empty steamID)))
  | _ => None
  end.

(** The name the cache [c] answers with, unless the refresh is forced. *)
Definition cache_hit (force_refresh : bool) (c : list (string * string))
    (steam_id : string) : option string :=
  if_truthy (if force_refresh then None else dict_get c steam_id).

(** The name an id resolves to: from the cache, else from a fetch. *)
Definition resolution (e : env) (force_refresh : bool)
    (c : list (string * string)) (steam_id : string) : option string :=
  match cache_hit force_refresh c steam_id with
  | Some name => Some name
  | None => fetch_name e steam_id
  end.

(** The name a fetch brought for an id the cache did not answer. *)
Definition fetched (e : env) (force_refresh : bool)
    (c : list (string * string)) (steam_id : string) : option string :=
  match cache_hit force_refresh c steam_id with
  | Some _ => None
  | None => fetch_name e steam_id
  end.

Definition is_some {A} (x : option A) : bool :=
  match x with Some _ => true | None => false end.

(** How many fetches of the profile of [steam_id] a log holds. *)
Definition fetch_count (steam_id : string) (evs : list event) : nat :=
  length (filter (fun ev =>
                    match ev with
                    | EvFetch url => String.eqb url (STEAM_PROFILE_XML_URL steam_id)
                    | _ => false
                    end) evs).

(** ** The cache *)

(** An entry of the cache as normalization leaves it: a trimmed,
    non-empty name under a trimmed, non-empty id. *)
Definition entry_ok (kv : string * string) : Prop :=
  (fst kv <> "" /\ trimmed (fst kv)) /\ (snd kv <> "" /\ trimmed (snd kv)).

(** A cache as the module keeps it: distinct ids, every entry well
    formed. *)
Definition cache_wf (c : list (string * string)) : Prop :=
  NoDup (dict_keys c) /\ Forall entry_ok c.

(** Every name a cache answers with is well formed. *)
Definition cache_ok (c : list (string * string)) : Prop :=
  forall id name, dict_get c id = Some name -> entry_ok (id, name).

(** The owner-name cache persisted in document [d], normalized. *)
Definition persisted_cache (json_loads : string -> option pyval)
    (d : list (string * pyval)) : list (string * string) :=
  _normalize_owner_name_cache json_loads
    (match dict_get d OWNER_NAME_CACHE_KEY with Some v => v | None => VNone end).

(** The document written back when the cache [c] was updated. *)
Definition with_cache (d : list (string * pyval)) (c : list (string * string))
  : pyval :=
  VDict (dict_set d OWNER_NAME_CACHE_KEY (VStr (str_dict_text c))).

(** [json_loads] reads a dict of strings back from the text
    [json.dumps] writes for it, as [json.loads] does. *)
Definition reads_back (json_loads : string -> option pyval) : Prop :=
  forall c, NoDup (dict_keys c) -> json_loads (str_dict_text c) = Some (str_dict c).

(** The cache a call reads from a data file: that of its document; the
    empty one when the file is missing or unreadable, or when its
    document is not a dict (a call then raises before it reads a
    cache). *)
Definition file_cache (json_loads : string -> option pyval) (f : file_state)
  : list (string * string) :=
  match loaded f with
  | VDict d => persisted_cache json_loads d
  | _ => []
  end.

(** ** The loop of [resolve_owner_names], without the monad *)

Definition step_pure (e : env) (force_refresh : bool) (steam_id : string)
    (st : loop_state) : loop_state :=
  match cache_hit force_refresh (owner_name_cache st) steam_id with
  | Some name =>
      mkLoop (owner_name_cache st) (dict_set (result st) steam_id name)
             (cache_updated st)
  | None =>
      match fetch_name e steam_id with
      | Some name =>
          mkLoop (dict_set (owner_name_cache st) steam_id name)
                 (dict_set (result st) steam_id name) true
      | None => st
      end
  end.

Definition step_events (force_refresh : bool) (steam_id : string)
    (st : loop_state) : list event :=
  match cache_hit force_refresh (owner_name_cache st) steam_id with
  | Some _ => []
  | None => [EvFetch (STEAM_PROFILE_XML_URL steam_id)]
  end.

Fixpoint loop_pure (e : env) (force_refresh : bool) (ids : list string)
    (st : loop_state) : loop_state :=
  match ids with
  | [] => st
  | id :: rest => loop_pure e force_refresh rest (step_pure e force_refresh id st)
  end.

Fixpoint loop_events (e : env) (force_refresh : bool) (ids : list string)
    (st : loop_state) : list event :=
  match ids with
  | [] => []
  | id :: rest =>
      step_events force_refresh id st
      ++ loop_events e force_refresh rest (step_pure e force_refresh id st)
  end.

(** The cache of [st] still answers as [c0] does on the ids to come. *)
Definition agrees_on (c0 : list (string * string)) (ids : list string)
    (st : loop_state) : Prop :=
  forall id, In id ids -> dict_get (owner_name_cache st) id = dict_get c0 id.

(** What an id adds to the result. *)
Definition resolved_item (e : env) (force_refresh : bool)
    (c0 : list (string * string)) (id : string) : list (string * string) :=
  match resolution e force_refresh c0 id with
  | Some name => [(id, name)]
  | None => []
  end.

Definition needs_fetch (force_refresh : bool) (c0 : list (string * string))
    (id : string) : bool :=
  negb (is_some (cache_hit force_refresh c0 id)).

(** ** Reading back the text of a dict of strings *)

Definition hex_value (c : ascii) : option nat :=
  let n := nat_of_ascii c in
  if ((48 <=? n) && (n <=? 57))%nat then Some (n - 48)
  else if ((97 <=? n) && (n <=? 102))%nat then Some (n - 87)
  else if ((65 <=? n) && (n <=? 70))%nat then Some (n - 55)
  else None.

Definition hex4 (a b c d : ascii) : option nat :=
  match hex_value a, hex_value b, hex_value c, hex_value d with
  | Some x, Some y, Some z, Some t => Some (((x * 16 + y) * 16 + z) * 16 + t)
  | _, _, _, _ => None
  end.

(** The character a backslash escape stands for. *)
Definition unescape (c : ascii) : option ascii :=
  let n := nat_of_ascii c in
  if (n =? 34)%nat then Some c
  else if (n =? 92)%nat then Some c
  else if (n =? 47)%nat then Some c
  else if (n =? 98)%nat then Some (ascii_of_nat 8)
  else if (n =? 102)%nat then Some (ascii_of_nat 12)
  else if (n =? 110)%nat then Some (ascii_of_nat 10)
  else if (n =? 114)%nat then Some (ascii_of_nat 13)
  else if (n =? 116)%nat then Some (ascii_of_nat 9)
  else None.

Definition cons_char (c : ascii) (r : option (string * string))
  : option (string * string) :=
  match r with
  | Some (t, rest) => Some (String c t, rest)
  | None => None
  end.

(** The body of a JSON string, after its opening quote: the string it
    denotes and the text after its closing quote.  A raw control
    character, an unknown escape or a code point above U+00FF is
    refused. *)
Fixpoint read_string (s : string) : option (string * string) :=
  match s with
  | EmptyString => None
  | String c rest =>
      let n := nat_of_ascii c in
      if (n =? 34)%nat then Some (EmptyString, rest)
      else if (n =? 92)%nat then
        match rest with
        | EmptyString => None
        | String esc rest1 =>
            if (nat_of_ascii esc =? 117)%nat then
              match rest1 with
              | String a (String b (String c1 (String d rest2))) =>
                  match hex4 a b c1 d with
                  | Some code =>
                      if (code <? 256)%nat
                      then cons_char (ascii_of_nat code) (read_string rest2)
                      else None
                  | None => None
                  end
              | _ => None
              end
            else
              match unescape esc with
              | Some ch => cons_char ch (read_string rest1)
              | None => None
              end
        end
      else if (n <? 32)%nat then None
      else cons_char c (read_string rest)
  end.

(** The white space JSON allows between tokens. *)
Definition is_json_space (c : ascii) : bool :=
  let n := nat_of_ascii c in
  ((n =? 32) || (n =? 9) || (n =? 10) || (n =? 13))%nat.

Fixpoint skip_space (s : string) : string :=
  match s with
  | EmptyString => EmptyString
  | String c rest => if is_json_space c then skip_space rest else s
  end.

(** A JSON string, from its opening quote on. *)
Definition read_quoted (s : string) : option (string * string) :=
  match s with
  | String c rest => if (nat_of_ascii c =? 34)%nat then read_string rest else None
  | EmptyString => None
  end.

(** The members of an object whose values are strings, from the opening
    quote of the first key up to the closing brace. *)
Fixpoint read_members (fuel : nat) (s : string)
  : option (list (string * string) * string) :=
  match fuel with
  | O => None
  | S fuel' =>
      match read_quoted s with
      | None => None
      | Some (k, s1) =>
          match skip_space s1 with
          | String colon s2 =>
              if (nat_of_ascii colon =? 58)%nat then
                match read_quoted (skip_space s2) with
                | None => None
                | Some (v, s3) =>
                    match skip_space s3 with
                    | String sep s4 =>
                        if (nat_of_ascii sep =? 44)%nat then
                          match read_members fuel' (skip_space s4) with
                          | Some (more, s5) => Some ((k, v) :: more, s5)
                          | None => None
                          end
                        else if (nat_of_ascii sep =? 125)%nat then
                          Some ([(k, v)], s4)
                        else None
                    | EmptyString => None
                    end
                end
              else None
          | EmptyString => None
          end
      end
  end.

(** The items of a JSON object whose values are all strings, in the
    order written; [None] for any other text. *)
Definition read_str_items (s : string) : option (list (string * string)) :=
  match skip_space s with
  | String open s1 =>
      if (nat_of_ascii open =? 123)%nat then
        match skip_space s1 with
        | EmptyString => None
        | String c s2 =>
            if (nat_of_ascii c =? 125)%nat then
              match skip_space s2 with
              | EmptyString => Some []
              | _ => None
              end
            else
              match read_members (String.length s) (String c s2) with
              | Some (items, s3) =>
                  match skip_space s3 with
                  | EmptyString => Some items
                  | _ => None
                  end
              | None => None
              end
        end
      else None
  | EmptyString => None
  end.

(** [dict(items)]: a key written twice keeps its place and takes the
    later value. *)
Definition dict_of_items {V} (items : list (string * V)) : list (string * V) :=
  fold_left (fun d kv => dict_set d (fst kv) (snd kv)) items [].

(** [json.loads] on the texts of objects whose values are all strings.
    On every other text this reader gives [None], where [json.loads]
    raises or returns a value of another shape; it serves as the parser
    of the sample runs. *)
Definition json_loads_str_dict (s : string) : option pyval :=
  match read_str_items s with
  | Some items => Some (str_dict (dict_of_items items))
  | None => None
  end.

(** ** One call of [resolve_owner_names], spelled out *)

(** The names of the ids that resolve, in the order parsed. *)
Definition resolved (e : env) (force_refresh : bool)
    (c0 : list (string * string)) (ids : list string) : list (string * string) :=
  flat_map (resolved_item e force_refresh c0) ids.

(** The cache when the loop ends. *)
Definition final_cache (e : env) (force_refresh : bool)
    (c0 : list (string * string)) (ids : list string) : list (string * string) :=
  owner_name_cache (loop_pure e force_refresh ids (mkLoop c0 [] false)).

(** Some fetch brought a name. *)
Definition any_fetched (e : env) (force_refresh : bool)
    (c0 : list (string * string)) (ids : list string) : bool :=
  existsb (fun id => is_some (fetched e force_refresh c0 id)) ids.

(** The requests made, in order. *)
Definition fetch_events (force_refresh : bool) (c0 : list (string * string))
    (ids : list string) : list event :=
  map (fun id => EvFetch (STEAM_PROFILE_XML_URL id))
      (filter (needs_fetch force_refresh c0) ids).

(** The write that ends the call, when there is one: the file it leaves
    and its effects. *)
Definition write_back (e : env) (force_refresh : bool)
    (d : list (string * pyval)) (c0 : list (string * string))
    (ids : list string) (f : file_state) : file_state * list event :=
  if any_fetched e force_refresh c0 ids then
    let eff := write_effect e (with_cache d (final_cache e force_refresh c0 ids)) f in
    (snd (fst eff), snd eff)
  else (f, []).

(** The effects of a call, oldest first. *)
Definition call_events (e : env) (force_refresh : bool)
    (d : list (string * pyval)) (c0 : list (string * string))
    (ids : list string) (f : file_state) : list event :=
  match ids with
  | [] => []
  | _ => load_events f ++ fetch_events force_refresh c0 ids
         ++ snd (write_back e force_refresh d c0 ids f)
  end.

(** The world a call leaves. *)
Definition world_after (e : env) (force_refresh : bool)
    (d : list (string * pyval)) (c0 : list (string * string))
    (ids : list string) (w : world) : world :=
  match ids with
  | [] => w
  | _ => mkWorld (fst (write_back e force_refresh d c0 ids (data_file w)))
                 (log w ++ call_events e force_refresh d c0 ids (data_file w))
  end.

(** [json.dumps] accepts the value. *)
Definition serializable (v : pyval) : Prop := exists text, json_dumps v = Text text.

(** ** The cache, item by item *)

(** What normalization reads: the value itself, or what [json.loads]
    makes of it when it is a [str]. *)
Definition cache_source (json_loads : string -> option pyval) (raw : pyval)
  : pyval :=
  match raw with
  | VStr s => match json_loads s with Some v => v | None => VDict [] end
  | _ => raw
  end.

(** The entry an item contributes: its trimmed key and value, when the
    value is a [str] and neither is blank. *)
Definition item_entry (item : string * pyval) : option (string * string) :=
  match snd item with
  | VStr owner_name =>
      if String.eqb (strip (fst item)) "" || String.eqb (strip owner_name) ""
      then None
      else Some (strip (fst item), strip owner_name)
  | _ => None
  end.

(** The name of the last item that contributes an entry for [id]. *)
Fixpoint last_name (id : string) (items : list (string * pyval))
  : option string :=
  match items with
  | [] => None
  | item :: rest =>
      match last_name id rest with
      | Some name => Some name
      | None =>
          match item_entry item with
          | Some (sid, name) => if String.eqb sid id then Some name else None
          | None => None
          end
      end
  end.

(** ** Sample surroundings *)

(** The profiles of ["1"], ["2"] and ["3"] are served, the last with a
    blank name; every other request fails; writes succeed. *)
Definition sample_env : env :=
  mkEnv WriteSucceeds
    (fun url =>
       if String.eqb url (STEAM_PROFILE_XML_URL "1") then XmlRoot (Some "  Alice ")
       else if String.eqb url (STEAM_PROFILE_XML_URL "2") then XmlRoot (Some "Bob")
       else if String.eqb url (STEAM_PROFILE_XML_URL "3") then XmlRoot (Some "  ")
       else UrlopenRaises URLError).

Definition empty_world : world := mkWorld FileMissing [].

(** A data file that holds a setting and a cache with one name. *)
Definition cached_doc : list (string * pyval) :=
  [("theme", VStr "dark");
   (OWNER_NAME_CACHE_KEY, VStr (str_dict_text [("7", "Carol")]))].

Definition cached_world : world := mkWorld (FileJson (VDict cached_doc)) [].

(* ================================================================== *)
(** * Dicts: lookup after update *)
(* ================================================================== *)

Section DictFacts.
Context {V : Type}.
Implicit Types (d : list (string * V)) (k : string) (v : V).

Lemma dict_get_set_same d k v : dict_get (dict_set d k v) k = Some v.
Proof.
  induction d as [|[k' v'] d IH]; simpl.
  - now rewrite String.eqb_refl.
  - destruct (String.eqb k' k) eqn:E; simpl; rewrite E; auto.
Qed.

Lemma dict_get_set_other d k k' v :
  k' <> k -> dict_get (dict_set d k v) k' = dict_get d k'.
Proof.
  intros Hne. induction d as [|[k0 v0] d IH]; simpl.
  - destruct (String.eqb k k') eqn:E; auto.
    apply String.eqb_eq in E. congruence.
  - destruct (String.eqb k0 k) eqn:E; simpl.
    + apply String.eqb_eq in E. subst k0.
      destruct (String.eqb k k') eqn:E'; auto.
      apply String.eqb_eq in E'. congruence.
    + now rewrite IH.
Qed.

Lemma dict_get_app_absent d d' k :
  dict_get d k = None -> dict_get (d ++ d') k = dict_get d' k.
Proof.
  induction d as [|[k0 v0] d IH]; simpl; auto.
  destruct (String.eqb k0 k); [discriminate | auto].
Qed.

Lemma dict_get_app_present d d' k v :
  dict_get d k = Some v -> dict_get (d ++ d') k = Some v.
Proof.
  induction d as [|[k0 v0] d IH]; simpl; [discriminate|].
  destruct (String.eqb k0 k); auto.
Qed.

(** A key the dict lacks goes to the end. *)
Lemma dict_set_absent d k v :
  dict_get d k = None -> dict_set d k v = d ++ [(k, v)].
Proof.
  induction d as [|[k0 v0] d IH]; simpl; auto.
  destruct (String.eqb k0 k); [discriminate|].
  intros H. now rewrite IH.
Qed.

Lemma dict_get_In d k v : dict_get d k = Some v -> In (k, v) d.
Proof.
  induction d as [|[k0 v0] d IH]; simpl; [discriminate|].
  destruct (String.eqb k0 k) eqn:E; auto.
  apply String.eqb_eq in E. intros H. injection H as ->. subst. now left.
Qed.

Lemma dict_get_none_not_in d k :
  dict_get d k = None <-> ~ In k (dict_keys d).
Proof.
  induction d as [|[k0 v0] d IH]; simpl.
  - tauto.
  - destruct (String.eqb k0 k) eqn:E.
    + apply String.eqb_eq in E. split; [discriminate | intros H; exfalso; auto].
    + apply String.eqb_neq in E. rewrite IH. tauto.
Qed.

(** An update keeps the keys distinct. *)
Lemma dict_set_NoDup d k v :
  NoDup (dict_keys d) -> NoDup (dict_keys (dict_set d k v)).
Proof.
  unfold dict_keys. induction d as [|[k0 v0] d IH]; simpl; intros Hnd.
  - constructor; [intros [] | constructor].
  - destruct (String.eqb k0 k) eqn:E; simpl; auto.
    inversion Hnd as [|? ? Hnotin Hrest]; subst. constructor; auto.
    apply String.eqb_neq in E. intros Hin. apply Hnotin.
    clear - Hin E. induction d as [|[k1 v1] d IH]; simpl in *.
    + destruct Hin as [?|[]]. congruence.
    + destruct (String.eqb k1 k); simpl in *; tauto.
Qed.

(** An update keeps what holds of every item, when it holds of the new
    one. *)
Lemma dict_set_Forall (P : string * V -> Prop) d k v :
  Forall P d -> P (k, v) -> Forall P (dict_set d k v).
Proof.
  intros Hd Hkv. induction Hd as [|[k0 v0] d H0 Hd IH]; simpl.
  - constructor; auto.
  - destruct (String.eqb k0 k) eqn:E.
    + apply String.eqb_eq in E. subst k0. constructor; auto.
    + constructor; auto.
Qed.

End DictFacts.

(* ================================================================== *)
(** * The storage shim *)
(* ================================================================== *)

Lemma _load_all_spec (w : world) :
  _load_all w
  = (Returns (loaded (data_file w)),
     mkWorld (data_file w) (log w ++ load_events (data_file w))).
Proof.
  destruct w as [f l]. unfold _load_all, try_except, bind; simpl.
  destruct f; simpl; rewrite <- ?app_assoc; reflexivity.
Qed.

Lemma _write_all_spec (e : env) (data : pyval) (w : world) :
  _write_all e data w
  = (Returns (fst (fst (write_effect e data (data_file w)))),
     mkWorld (snd (fst (write_effect e data (data_file w))))
             (log w ++ snd (write_effect e data (data_file w)))).
Proof.
  destruct w as [f l].
  unfold _write_all, write_effect, try_except, bind, _ensure_dir, json_dump_file.
  unfold bind, print_exn, emit, set_file, raise, ret; simpl.
  destruct (on_write e); simpl; rewrite <- ?app_assoc; try reflexivity.
  destruct (json_dumps data); simpl; rewrite <- ?app_assoc; reflexivity.
Qed.

Lemma write_effect_returns (e : env) (data : pyval) (f : file_state) :
  fst (fst (write_effect e data f)) = write_succeeds e data.
Proof.
  unfold write_effect, write_succeeds.
  destruct (on_write e); try reflexivity.
  destruct (json_dumps data); reflexivity.
Qed.

Lemma write_effect_file (e : env) (data : pyval) (f : file_state) :
  write_succeeds e data = true ->
  snd (fst (write_effect e data f)) = FileJson data.
Proof.
  unfold write_effect, write_succeeds.
  destruct (on_write e); try discriminate.
  destruct (json_dumps data); [reflexivity | discriminate].
Qed.

(** A payload only supplies the arguments. *)
Lemma storage_set_payload e payload key value :
  storage_set e payload key value
  = storage_set e None (payload_get payload p_key key)
                       (payload_get payload p_value value).
Proof. reflexivity. Qed.

Lemma storage_get_payload payload key :
  storage_get payload key = storage_get None (payload_get payload p_key key).
Proof. reflexivity. Qed.

(** [storage_get] with a key: the loaded document is asked for it. *)
Lemma storage_get_spec (k : string) (w : world) :
  storage_get None (Some k) w
  = py_get (loaded (data_file w)) k
      (mkWorld (data_file w) (log w ++ load_events (data_file w))).
Proof.
  unfold storage_get; simpl. unfold bind. now rewrite _load_all_spec.
Qed.

(** What [storage_get] returns depends on the data file alone. *)
Lemma storage_get_file_only payload key (w1 w2 : world) :
  data_file w1 = data_file w2 ->
  fst (storage_get payload key w1) = fst (storage_get payload key w2).
Proof.
  intros Hf. rewrite storage_get_payload.
  destruct (payload_get payload p_key key) as [k|]; [|reflexivity].
  rewrite !storage_get_spec, Hf.
  destruct (loaded (data_file w2)); reflexivity.
Qed.

(** [storage_set] with a key and a value that has a stored text: load,
    merge, write. *)
Lemma storage_set_stored (e : env) (k : string) (v : pyval) (s : string)
    (w : world) :
  v <> VNone ->
  stored_text v = Some s ->
  storage_set e None (Some k) v w
  = (data <- _load_all ;;
     data <- py_setitem data k (VStr s) ;;
     _write_all e data) w.
Proof.
  intros Hv Hs. unfold storage_set, payload_get, stored_text in *.
  destruct v; try congruence;
    try (injection Hs as ->; reflexivity);
    unfold py_json_dumps, try_except, bind at 1;
    match type of Hs with
    | match ?j with _ => _ end = _ => destruct j; [|discriminate]
    end;
    injection Hs as ->; reflexivity.
Qed.

(** The same on a document that is a dict. *)
Lemma storage_set_spec (e : env) (k : string) (v : pyval) (s : string)
    (d : list (string * pyval)) (w : world) :
  v <> VNone ->
  stored_text v = Some s ->
  loaded (data_file w) = VDict d ->
  let data := VDict (dict_set d k (VStr s)) in
  let eff := write_effect e data (data_file w) in
  storage_set e None (Some k) v w
  = (Returns (fst (fst eff)),
     mkWorld (snd (fst eff))
             (log w ++ load_events (data_file w) ++ snd eff)).
Proof.
  intros Hv Hs Hd data eff.
  rewrite (storage_set_stored e k v s w Hv Hs).
  unfold bind. rewrite _load_all_spec, Hd. simpl.
  rewrite _write_all_spec. simpl. fold data. fold eff.
  now rewrite <- app_assoc.
Qed.

(** A value [json.dumps] refuses is reported and nothing else happens. *)
Lemma storage_set_unserializable (e : env) (k : string) (v : pyval) (w : world) :
  v <> VNone ->
  stored_text v = None ->
  storage_set e None (Some k) v w
  = (Returns false,
     mkWorld (data_file w)
       (log w ++ [EvPrint (LOG_PREFIX
                           ++ "storage_set received non-serializable value for key="
                           ++ k)])).
Proof.
  intros Hv Hs. unfold storage_set, payload_get, stored_text in *.
  destruct v; try congruence; try discriminate;
    unfold py_json_dumps, try_except, bind at 1;
    match type of Hs with
    | match ?j with _ => _ end = _ => destruct j; [discriminate|]
    end; reflexivity.
Qed.

(** On a data file whose JSON text is not an object, the item assignment
    of [storage_set] raises. *)
Lemma storage_set_not_dict (e : env) (k : string) (v : pyval) (s : string)
    (w : world) :
  v <> VNone ->
  stored_text v = Some s ->
  (forall d, loaded (data_file w) <> VDict d) ->
  exists msg, fst (storage_set e None (Some k) v w) = Raises (TypeError msg).
Proof.
  intros Hv Hs Hd.
  rewrite (storage_set_stored e k v s w Hv Hs).
  unfold bind. rewrite _load_all_spec.
  destruct (loaded (data_file w)) eqn:E; simpl; eauto.
  exfalso. eapply Hd. reflexivity.
Qed.

Lemma loaded_dict_dec (f : file_state) :
  (exists d, loaded f = VDict d) \/ (forall d, loaded f <> VDict d).
Proof.
  destruct (loaded f); try (right; discriminate). left; eauto.
Qed.

(** C1. A successful [storage_set(k, v)] with [v] not [None], followed by
    [storage_get(k)], returns the string that was stored: [v] itself when
    it is a [str], its JSON text otherwise. *)
Theorem storage_set_then_get (e : env) (k : string) (v : pyval) (w w1 : world) :
  v <> VNone ->
  storage_set e None (Some k) v w = (Returns true, w1) ->
  exists s,
    stored_text v = Some s /\
    fst (storage_get None (Some k) w1) = Returns (VStr s).
Proof.
  intros Hv Hset.
  destruct (stored_text v) as [s|] eqn:Hs.
  2: { rewrite storage_set_unserializable in Hset by assumption. discriminate. }
  destruct (loaded_dict_dec (data_file w)) as [[d Hd]|Hd].
  2: { destruct (storage_set_not_dict e k v s w Hv Hs Hd) as [msg Hr].
       rewrite Hset in Hr. discriminate. }
  rewrite (storage_set_spec e k v s d w Hv Hs Hd) in Hset.
  injection Hset as Hok Hw1.
  rewrite write_effect_returns in Hok.
  exists s. split; [reflexivity|].
  rewrite storage_get_spec. subst w1. simpl.
  rewrite write_effect_file by assumption. simpl.
  now rewrite dict_get_set_same.
Qed.

Lemma storage_set_then_get_witness :
  VInt 5 <> VNone /\
  storage_set sample_env None (Some "k") (VInt 5) empty_world
  = (Returns true,
     mkWorld (FileJson (VDict [("k", VStr "5")]))
             [EvExists; EvMakedirs; EvWrite (VDict [("k", VStr "5")])]) /\
  exists s,
    stored_text (VInt 5) = Some s /\
    fst (storage_get None (Some "k")
           (mkWorld (FileJson (VDict [("k", VStr "5")]))
                    [EvExists; EvMakedirs; EvWrite (VDict [("k", VStr "5")])]))
    = Returns (VStr s).
Proof.
  split; [discriminate|]. split; [reflexivity|].
  apply (storage_set_then_get sample_env "k" (VInt 5) empty_world);
    [discriminate | reflexivity].
Defined.

(** C2. [storage_set] with the value [None] returns [False], leaves the
    data file as it is, performs no file access (it only prints), and
    every later [storage_get] returns what it returned before. *)
Theorem storage_set_none_is_noop (e : env) (payload : option payload_dict)
    (key : option string) (value : pyval) (w : world) :
  payload_get payload p_value value = VNone ->
  exists msg,
    storage_set e payload key value w
    = (Returns false, mkWorld (data_file w) (log w ++ [EvPrint msg])) /\
    forall payload' key',
      fst (storage_get payload' key'
             (mkWorld (data_file w) (log w ++ [EvPrint msg])))
      = fst (storage_get payload' key' w).
Proof.
  intros Hnone. rewrite storage_set_payload, Hnone.
  destruct (payload_get payload p_key key) as [k|]; simpl;
    eexists; (split; [reflexivity|]);
    intros; now apply storage_get_file_only.
Qed.

Lemma storage_set_none_is_noop_witness :
  payload_get None p_value VNone = VNone /\
  exists msg,
    storage_set sample_env None (Some "k") VNone
      (mkWorld (FileJson (VDict [("k", VStr "old")])) [])
    = (Returns false,
       mkWorld (FileJson (VDict [("k", VStr "old")])) ([] ++ [EvPrint msg])) /\
    forall payload' key',
      fst (storage_get payload' key'
             (mkWorld (FileJson (VDict [("k", VStr "old")])) ([] ++ [EvPrint msg])))
      = fst (storage_get payload' key'
               (mkWorld (FileJson (VDict [("k", VStr "old")])) [])).
Proof.
  split; [reflexivity|].
  apply (storage_set_none_is_noop sample_env None (Some "k") VNone
           (mkWorld (FileJson (VDict [("k", VStr "old")])) [])).
  reflexivity.
Defined.

(** C3, as stated, fails at a value that is not [None] but that
    [json.dumps] refuses: although a write would succeed, [storage_set]
    returns [False], leaves the absent data file absent and never opens
    it, so the document is not rewritten. *)
Lemma storage_set_unserializable_not_written :
  let run := storage_set sample_env None (Some "k") (VObject "set" true)
               empty_world in
  VObject "set" true <> VNone /\
  on_write sample_env = WriteSucceeds /\
  fst run = Returns false /\
  data_file (snd run) = FileMissing /\
  forall data, ~ In (EvWrite data) (log (snd run)).
Proof.
  cbv zeta. split; [discriminate|]. repeat split.
  intros data [Hin|[]]. discriminate.
Qed.

(** C3, amended. On a data file that is absent, unreadable or holds a JSON
    object [d], and for a value [v] that is not [None]: when [v] is a [str]
    or has a JSON text [s], [storage_set(k, v)] hands the writer the
    document [d] with [k] mapped to [s] and every other key as in [d],
    returns whether that write succeeded, and after a successful write the
    file holds that document; when [json.dumps] refuses [v], it returns
    [False] and touches no file. *)
Theorem storage_set_merges_key (e : env) (k : string) (v : pyval)
    (d : list (string * pyval)) (w : world) :
  v <> VNone ->
  loaded (data_file w) = VDict d ->
  exists w' evs,
    log w' = log w ++ evs /\
    match stored_text v with
    | Some s =>
        let d' := dict_set d k (VStr s) in
        storage_set e None (Some k) v w
        = (Returns (write_succeeds e (VDict d')), w') /\
        dict_get d' k = Some (VStr s) /\
        (forall k', k' <> k -> dict_get d' k' = dict_get d k') /\
        (forall data, In (EvWrite data) evs -> data = VDict d') /\
        (on_write e = WriteSucceeds -> In (EvWrite (VDict d')) evs) /\
        (write_succeeds e (VDict d') = true -> data_file w' = FileJson (VDict d'))
    | None =>
        storage_set e None (Some k) v w = (Returns false, w') /\
        data_file w' = data_file w /\
        forall ev, In ev evs -> is_file_access ev = false
    end.
Proof.
  intros Hv Hd.
  destruct (stored_text v) as [s|] eqn:Hs.
  - rewrite (storage_set_spec e k v s d w Hv Hs Hd).
    rewrite write_effect_returns.
    eexists (mkWorld _ (_ ++ _)), _. split; [simpl; reflexivity|].
    split; [reflexivity|].
    split; [apply dict_get_set_same|].
    split; [intros; now apply dict_get_set_other|].
    split; [|split].
    + intros data Hin. apply in_app_or in Hin. destruct Hin as [Hin|Hin].
      * destruct (data_file w); simpl in Hin;
          repeat (destruct Hin as [Hin|Hin]; try discriminate); contradiction.
      * unfold write_effect in Hin.
        destruct (on_write e); [destruct (json_dumps _)|..]; simpl in Hin;
          repeat (destruct Hin as [Hin|Hin];
                  try discriminate; try (injection Hin as <-; reflexivity));
          contradiction.
    + intros Hw. apply in_or_app. right. unfold write_effect. rewrite Hw.
      destruct (json_dumps _); simpl; auto.
    + intros Hok. simpl. now apply write_effect_file.
  - rewrite (storage_set_unserializable e k v w Hv Hs).
    eexists (mkWorld _ (_ ++ _)), _. split; [simpl; reflexivity|].
    split; [reflexivity|]. split; [reflexivity|].
    intros ev [<-|[]]. reflexivity.
Qed.

Lemma storage_set_merges_key_witness :
  VStr "new" <> VNone /\
  loaded (data_file (mkWorld (FileJson (VDict [("a", VStr "1"); ("k", VStr "old")])) []))
  = VDict [("a", VStr "1"); ("k", VStr "old")] /\
  exists w' evs,
    log w' = [] ++ evs /\
    storage_set sample_env None (Some "k") (VStr "new")
      (mkWorld (FileJson (VDict [("a", VStr "1"); ("k", VStr "old")])) [])
    = (Returns true, w') /\
    data_file w' = FileJson (VDict [("a", VStr "1"); ("k", VStr "new")]).
Proof.
  split; [discriminate|]. split; [reflexivity|].
  destruct (storage_set_merges_key sample_env "k" (VStr "new")
              [("a", VStr "1"); ("k", VStr "old")]
              (mkWorld (FileJson (VDict [("a", VStr "1"); ("k", VStr "old")])) []))
    as (w' & evs & Hlog & Hset & _ & _ & _ & _ & Hfile);
    [discriminate | reflexivity |].
  exists w', evs. split; [exact Hlog|]. split; [exact Hset|].
  apply Hfile. reflexivity.
Defined.

(** An [int] beyond the digit limit is refused like any value
    [json.dumps] raises on: nothing is read or written. *)
Lemma storage_set_int_beyond_limit (e : env) (k : string) (z : Z) (w : world) :
  (INT_MAX_STR_DIGITS < int_digits z)%Z ->
  json_dumps (VInt z) = Refused digit_limit /\
  stored_text (VInt z) = None /\
  storage_set e None (Some k) (VInt z) w
  = (Returns false,
     mkWorld (data_file w)
       (log w ++ [EvPrint (LOG_PREFIX
                           ++ "storage_set received non-serializable value for key="
                           ++ k)])).
Proof.
  intros Hz. apply Z.ltb_lt in Hz.
  assert (Hj : json_dumps (VInt z) = Refused digit_limit)
    by (cbn [json_dumps]; now rewrite Hz).
  assert (Hs : stored_text (VInt z) = None)
    by (unfold stored_text; now rewrite Hj).
  split; [exact Hj|]. split; [exact Hs|].
  apply storage_set_unserializable; [discriminate | exact Hs].
Qed.

(* ================================================================== *)
(** * Strings: facts about [strip] *)
(* ================================================================== *)

Lemma lstrip_starts_clean (s : string) : starts_clean (lstrip s).
Proof.
  induction s as [|c s IH]; simpl; auto.
  destruct (is_space c) eqn:E; simpl; auto.
Qed.

Lemma lstrip_clean (s : string) : starts_clean s -> lstrip s = s.
Proof. destruct s as [|c s]; simpl; auto. now intros ->. Qed.

Lemma rstrip_starts_clean (s : string) : starts_clean s -> starts_clean (rstrip s).
Proof.
  destruct s as [|c s]; simpl; auto. intros Hc.
  destruct (rstrip s); simpl; auto. now rewrite Hc.
Qed.

Lemma rstrip_idempotent (s : string) : rstrip (rstrip s) = rstrip s.
Proof.
  induction s as [|c s IH]; simpl; auto.
  destruct (rstrip s) as [|c' r] eqn:E.
  - destruct (is_space c) eqn:Ec; simpl; auto. now rewrite Ec.
  - change (rstrip (String c (String c' r))) with
      (match rstrip (String c' r) with
       | EmptyString => if is_space c then EmptyString else String c EmptyString
       | r0 => String c r0
       end).
    now rewrite IH.
Qed.

Lemma strip_starts_clean (s : string) : starts_clean (strip s).
Proof. apply rstrip_starts_clean, lstrip_starts_clean. Qed.

(** Stripping twice is stripping once. *)
Lemma strip_idempotent (s : string) : strip (strip s) = strip s.
Proof.
  unfold strip. rewrite (lstrip_clean (rstrip (lstrip s))).
  - apply rstrip_idempotent.
  - apply rstrip_starts_clean, lstrip_starts_clean.
Qed.

Lemma strip_trimmed (s : string) : trimmed (strip s).
Proof. apply strip_idempotent. Qed.

Lemma append_nil_r (s : string) : (s ++ "")%string = s.
Proof. induction s; simpl; congruence. Qed.

Lemma append_length (a b : string) :
  String.length (a ++ b) = String.length a + String.length b.
Proof. induction a; simpl; auto. Qed.

Lemma append_inj_r (a b s : string) : (a ++ s = b ++ s)%string -> a = b.
Proof.
  revert b. induction a as [|c a IH]; intros [|c' b] H; simpl in H; auto.
  - apply (f_equal String.length) in H. simpl in H.
    rewrite append_length in H. lia.
  - apply (f_equal String.length) in H. simpl in H.
    rewrite append_length in H. lia.
  - injection H as -> H. f_equal. auto.
Qed.

(** Distinct ids have distinct profile URLs. *)
Lemma STEAM_PROFILE_XML_URL_inj (a b : string) :
  STEAM_PROFILE_XML_URL a = STEAM_PROFILE_XML_URL b -> a = b.
Proof.
  unfold STEAM_PROFILE_XML_URL. simpl. intros H.
  repeat match type of H with String _ _ = String _ _ => injection H as H end.
  now apply append_inj_r in H.
Qed.

(* ================================================================== *)
(** * JSON text of a dict of strings *)
(* ================================================================== *)

Lemma collect_texts {A} (f : A -> dumped) (g : A -> string) (l : list A) :
  (forall x, f x = Text (g x)) -> collect (map f l) = inl (map g l).
Proof.
  intros H. induction l as [|x l IH]; simpl; auto. now rewrite H, IH.
Qed.

Lemma json_dumps_str_dict (d : list (string * string)) :
  json_dumps (str_dict d) = Text (str_dict_text d).
Proof.
  unfold str_dict, str_dict_text. cbn [json_dumps]. rewrite map_map.
  rewrite (collect_texts _ item_text); [reflexivity|].
  intros [k v]. reflexivity.
Qed.

Lemma py_json_dumps_str_dict (d : list (string * string)) (w : world) :
  py_json_dumps (str_dict d) w = (Returns (str_dict_text d), w).
Proof. unfold py_json_dumps. now rewrite json_dumps_str_dict. Qed.

(* ================================================================== *)
(** * Reading back what [json.dumps] wrote *)
(* ================================================================== *)

Lemma append_assoc (a b c : string) : ((a ++ b) ++ c = a ++ (b ++ c))%string.
Proof. induction a; simpl; congruence. Qed.

(** An escaped character is read back as the character. *)
Lemma read_string_escape_char (c : ascii) (t : string) :
  read_string (escape_char c ++ t) = cons_char c (read_string t).
Proof.
  destruct c as [[] [] [] [] [] [] [] []]; reflexivity.
Qed.

Lemma read_string_escape (s rest : string) :
  read_string (escape s ++ dquote ++ rest) = Some (s, rest).
Proof.
  induction s as [|c s IH].
  - reflexivity.
  - cbn [escape]. rewrite append_assoc, read_string_escape_char, IH.
    reflexivity.
Qed.

Lemma read_quoted_encode (s rest : string) :
  read_quoted (encode_basestring s ++ rest) = Some (s, rest).
Proof.
  unfold encode_basestring. rewrite !append_assoc.
  apply read_string_escape.
Qed.

Lemma skip_space_colon (s : string) :
  skip_space (": " ++ s) = String ":" (String " " s).
Proof. reflexivity. Qed.

Lemma skip_space_encode (s rest : string) :
  skip_space (String " " (encode_basestring s ++ rest))
  = (encode_basestring s ++ rest)%string.
Proof. reflexivity. Qed.

Lemma skip_space_items (items : list (string * string)) (rest : string) :
  items <> [] ->
  skip_space (String " " (join ", " (map item_text items) ++ rest))
  = (join ", " (map item_text items) ++ rest)%string.
Proof.
  destruct items as [|[k v] [|kv more]]; [congruence | reflexivity | reflexivity].
Qed.

(** One member, then whatever follows it. *)
Lemma read_members_step (fuel : nat) (k v tail : string) :
  read_members (S fuel) (item_text (k, v) ++ tail)
  = match skip_space tail with
    | String sep s4 =>
        if (nat_of_ascii sep =? 44)%nat then
          match read_members fuel (skip_space s4) with
          | Some (more, s5) => Some ((k, v) :: more, s5)
          | None => None
          end
        else if (nat_of_ascii sep =? 125)%nat then Some ([(k, v)], s4)
        else None
    | EmptyString => None
    end.
Proof.
  unfold item_text. cbn [fst snd read_members]. rewrite !append_assoc.
  rewrite read_quoted_encode, skip_space_colon.
  change (nat_of_ascii ":" =? 58)%nat with true. cbv iota.
  rewrite skip_space_encode, read_quoted_encode. reflexivity.
Qed.

Lemma read_members_items (items : list (string * string)) :
  forall (fuel : nat) (rest : string),
    items <> [] ->
    length items <= fuel ->
    read_members fuel (join ", " (map item_text items) ++ String "}" rest)
    = Some (items, rest).
Proof.
  induction items as [|[k v] more IH]; intros fuel rest Hne Hfuel; [congruence|].
  destruct fuel as [|fuel]; [simpl in Hfuel; lia|].
  destruct more as [|kv more].
  - cbn [map join]. rewrite read_members_step. reflexivity.
  - change (join ", " (map item_text ((k, v) :: kv :: more)))
      with (item_text (k, v) ++ ", " ++ join ", " (map item_text (kv :: more)))%string.
    rewrite !append_assoc, read_members_step.
    change (skip_space (", " ++ ?x)) with (skip_space (String "," (String " " x))).
    cbn [skip_space append].
    change (is_json_space ",") with false. cbv iota.
    change (nat_of_ascii "," =? 44)%nat with true. cbv iota.
    rewrite skip_space_items by discriminate.
    rewrite IH; [reflexivity | discriminate | simpl in *; lia].
Qed.

Lemma items_text_length (items : list (string * string)) :
  length items <= String.length (join ", " (map item_text items)).
Proof.
  induction items as [|[k v] [|kv more] IH].
  - simpl. lia.
  - cbn [map join length]. unfold item_text, encode_basestring. simpl. lia.
  - change (join ", " (map item_text ((k, v) :: kv :: more)))
      with (item_text (k, v) ++ ", " ++ join ", " (map item_text (kv :: more)))%string.
    rewrite !append_length. cbn [length] in *.
    change (String.length ", ") with 2. lia.
Qed.

(** The reader undoes [str_dict_text]. *)
Lemma read_str_items_text (items : list (string * string)) :
  read_str_items (str_dict_text items) = Some items.
Proof.
  unfold str_dict_text. destruct items as [|kv more] eqn:E.
  - reflexivity.
  - rewrite <- E.
    assert (Hne : items <> []) by (rewrite E; discriminate).
    assert (Hstart : exists c s2,
               (join ", " (map item_text items) ++ "}")%string = String c s2
               /\ (nat_of_ascii c =? 125)%nat = false
               /\ is_json_space c = false).
    { rewrite E. destruct kv as [k v].
      destruct more; cbn [map join]; unfold item_text, encode_basestring;
        cbn [fst snd dquote append]; eauto. }
    destruct Hstart as (c & s2 & Htext & Hc & Hsp).
    unfold read_str_items.
    change (skip_space ("{" ++ ?x)) with (String "{" x).
    change (nat_of_ascii "{" =? 123)%nat with true. cbv iota.
    rewrite Htext. cbn [skip_space]. rewrite Hsp, Hc. rewrite <- Htext.
    rewrite read_members_items; [reflexivity | assumption |].
    cbn [String.length append]. rewrite append_length.
    pose proof (items_text_length items). lia.
Qed.

(** Distinct dicts of strings have distinct texts. *)
Lemma str_dict_text_inj (c1 c2 : list (string * string)) :
  str_dict_text c1 = str_dict_text c2 -> c1 = c2.
Proof.
  intros H. apply (f_equal read_str_items) in H.
  rewrite !read_str_items_text in H. now injection H.
Qed.

(** The document written back determines the cache it carries. *)
Lemma with_cache_inj (d : list (string * pyval)) (c1 c2 : list (string * string)) :
  with_cache d c1 = with_cache d c2 -> c1 = c2.
Proof.
  unfold with_cache. intros H. injection H as H.
  apply (f_equal (fun x => dict_get x OWNER_NAME_CACHE_KEY)) in H.
  rewrite !dict_get_set_same in H.
  apply str_dict_text_inj. congruence.
Qed.

(** Items with distinct keys make the dict with those items. *)
Lemma dict_of_items_NoDup {V} (items : list (string * V)) :
  NoDup (dict_keys items) -> dict_of_items items = items.
Proof.
  unfold dict_of_items.
  assert (H : forall acc,
             NoDup (dict_keys (acc ++ items)) ->
             fold_left (fun d kv => dict_set d (fst kv) (snd kv)) items acc
             = acc ++ items).
  { induction items as [|[k v] items IH]; intros acc Hnd; simpl.
    - now rewrite app_nil_r.
    - rewrite dict_set_absent.
      + rewrite IH; rewrite <- app_assoc; auto.
      + apply dict_get_none_not_in. unfold dict_keys in *.
        rewrite map_app in Hnd. simpl in Hnd.
        apply NoDup_remove_2 in Hnd. intros Hin. apply Hnd.
        apply in_or_app. now left. }
  intros Hnd. now apply (H []).
Qed.

(** The sample parser reads back what [json.dumps] wrote. *)
Lemma json_loads_str_dict_reads_back : reads_back json_loads_str_dict.
Proof.
  intros c Hnd. unfold json_loads_str_dict.
  now rewrite read_str_items_text, dict_of_items_NoDup.
Qed.

(* ================================================================== *)
(** * Parsing the ids *)
(* ================================================================== *)

Lemma _parse_steam_ids_fold (steam_ids steam_ids_csv : pyval) :
  _parse_steam_ids steam_ids steam_ids_csv
  = fst (fold_left parse_step (raw_entries steam_ids steam_ids_csv) ([], [])).
Proof.
  unfold _parse_steam_ids, parse_step.
  fold (raw_entries steam_ids steam_ids_csv).
  now destruct (fold_left _ _ _).
Qed.

Lemma str_mem_In (x : string) (l : list string) : str_mem x l = true <-> In x l.
Proof.
  unfold str_mem. rewrite existsb_exists. split.
  - intros (y & Hin & Heq). apply String.eqb_eq in Heq. now subst.
  - intros Hin. exists x. split; auto. apply String.eqb_refl.
Qed.

Lemma filter_filter_implied {A} (P Q : A -> bool) (l : list A) :
  (forall x, P x = true -> Q x = true) ->
  filter P (filter Q l) = filter P l.
Proof.
  intros H. induction l as [|x l IH]; simpl; auto.
  destruct (Q x) eqn:EQ; simpl.
  - destruct (P x); now rewrite IH.
  - destruct (P x) eqn:EP; auto. apply H in EP. congruence.
Qed.

Lemma filter_filter_both {A} (P Q : A -> bool) (l : list A) :
  filter P (filter Q l) = filter (fun x => Q x && P x) l.
Proof.
  induction l as [|x l IH]; simpl; auto.
  destruct (Q x); simpl; [destruct (P x)|]; now rewrite IH.
Qed.

Lemma parse_loop_spec (l u s : list string) :
  (forall x, str_mem x s = str_mem x u) ->
  fst (fold_left parse_step l (u, s))
  = u ++ filter (fun x => negb (str_mem x u)) (trimmed_unique l).
Proof.
  revert u s. induction l as [|a l IH]; intros u s Hsu.
  - simpl. now rewrite app_nil_r.
  - cbn [fold_left]. unfold parse_step at 2.
    unfold trimmed_unique. cbn [map filter].
    fold (str_mem (strip a) s).
    destruct (String.eqb (strip a) "") eqn:Eblank; cbn [orb negb].
    + now apply IH.
    + cbn [first_seen filter]. fold (trimmed_unique l).
      destruct (str_mem (strip a) s) eqn:Eseen.
      * rewrite Hsu in Eseen. rewrite Eseen. cbn [negb].
        rewrite (IH u s Hsu). f_equal.
        symmetry. apply filter_filter_implied.
        intros x Hx. destruct (String.eqb (strip a) x) eqn:E; auto.
        apply String.eqb_eq in E. subst x. rewrite Eseen in Hx. discriminate.
      * rewrite Hsu in Eseen. rewrite Eseen. cbn [negb].
        rewrite (IH (u ++ [strip a]) (strip a :: s)).
        -- rewrite <- app_assoc. cbn [app]. do 2 f_equal.
           rewrite filter_filter_both. apply filter_ext. intros x.
           unfold str_mem. rewrite existsb_app. cbn [existsb].
           rewrite orb_false_r, negb_orb, (String.eqb_sym x).
           apply andb_comm.
        -- intros x. unfold str_mem. rewrite existsb_app. cbn [existsb].
           fold (str_mem x s). fold (str_mem x u). rewrite Hsu.
           rewrite orb_false_r. apply orb_comm.
Qed.

(** [_parse_steam_ids] computes what the spec describes. *)
Lemma _parse_steam_ids_refines (steam_ids steam_ids_csv : pyval) :
  _parse_steam_ids steam_ids steam_ids_csv
  = trimmed_unique (raw_entries steam_ids steam_ids_csv).
Proof.
  rewrite _parse_steam_ids_fold, (parse_loop_spec _ [] []) by reflexivity.
  cbn [app]. unfold str_mem. cbn [existsb negb].
  induction (trimmed_unique _) as [|x l IH]; simpl; congruence.
Qed.

Lemma first_seen_In (x : string) (l : list string) :
  In x (first_seen l) <-> In x l.
Proof.
  induction l as [|y l IH]; simpl; [tauto|].
  rewrite filter_In, IH. split.
  - intros [H|[H _]]; auto.
  - intros [H|H]; auto.
    destruct (String.eqb y x) eqn:E.
    + apply String.eqb_eq in E. auto.
    + right. auto.
Qed.

Lemma first_seen_NoDup (l : list string) : NoDup (first_seen l).
Proof.
  induction l as [|y l IH]; simpl; constructor.
  - rewrite filter_In, String.eqb_refl. simpl. intros [_ H]. discriminate.
  - now apply NoDup_filter.
Qed.

Lemma _parse_steam_ids_NoDup (steam_ids steam_ids_csv : pyval) :
  NoDup (_parse_steam_ids steam_ids steam_ids_csv).
Proof. rewrite _parse_steam_ids_refines. apply first_seen_NoDup. Qed.

(** The parsed ids are the trimmed entries that are not empty. *)
Lemma _parse_steam_ids_In (steam_ids steam_ids_csv : pyval) (x : string) :
  In x (_parse_steam_ids steam_ids steam_ids_csv)
  <-> x <> "" /\ exists entry,
        In entry (raw_entries steam_ids steam_ids_csv) /\ strip entry = x.
Proof.
  rewrite _parse_steam_ids_refines. unfold trimmed_unique.
  rewrite first_seen_In, filter_In, in_map_iff, negb_true_iff, String.eqb_neq.
  split.
  - intros [(entry & Hs & Hin) Hne]. split; eauto.
  - intros [Hne (entry & Hin & Hs)]. split; eauto.
Qed.

Lemma _parse_steam_ids_trimmed (steam_ids steam_ids_csv : pyval) (x : string) :
  In x (_parse_steam_ids steam_ids steam_ids_csv) -> x <> "" /\ trimmed x.
Proof.
  rewrite _parse_steam_ids_In. intros [Hne (entry & _ & <-)].
  split; auto. apply strip_trimmed.
Qed.

(** No id is parsed exactly when every entry is blank. *)
Lemma _parse_steam_ids_nil (steam_ids steam_ids_csv : pyval) :
  _parse_steam_ids steam_ids steam_ids_csv = []
  <-> forall entry,
        In entry (raw_entries steam_ids steam_ids_csv) -> strip entry = "".
Proof.
  split.
  - intros Hnil entry Hin.
    destruct (String.eqb (strip entry) "") eqn:E; [now apply String.eqb_eq|].
    apply String.eqb_neq in E.
    assert (H : In (strip entry) (_parse_steam_ids steam_ids steam_ids_csv))
      by (apply _parse_steam_ids_In; eauto).
    rewrite Hnil in H. destruct H.
  - intros Hall.
    destruct (_parse_steam_ids steam_ids steam_ids_csv) as [|x l] eqn:E; auto.
    assert (H : In x (_parse_steam_ids steam_ids steam_ids_csv))
      by (rewrite E; now left).
    apply _parse_steam_ids_In in H. destruct H as [Hne (entry & Hin & <-)].
    now apply Hall in Hin.
Qed.

(* ================================================================== *)
(** * The owner-name resolver *)
(* ================================================================== *)

Lemma if_truthy_some (x : option string) (s : string) :
  if_truthy x = Some s <-> x = Some s /\ s <> "".
Proof.
  destruct x as [t|]; simpl.
  - destruct (String.eqb t "") eqn:E.
    + apply String.eqb_eq in E. split; [discriminate|].
      intros [H Hne]. congruence.
    + apply String.eqb_neq in E. split.
      * intros H. injection H as ->. auto.
      * intros [H _]. exact H.
  - split; [discriminate | intros [H _]; discriminate].
Qed.

Lemma if_truthy_idempotent (x : option string) :
  if_truthy (if_truthy x) = if_truthy x.
Proof.
  destruct x as [t|]; simpl; auto.
  destruct (String.eqb t "") eqn:E; simpl; auto. now rewrite E.
Qed.

Lemma fetch_name_truthy (e : env) (steam_id : string) :
  if_truthy (fetch_name e steam_id) = fetch_name e steam_id.
Proof.
  unfold fetch_name. destruct (on_get e _); auto. apply if_truthy_idempotent.
Qed.

(** A fetched name is trimmed and not empty. *)
Lemma fetch_name_some (e : env) (steam_id name : string) :
  fetch_name e steam_id = Some name -> name <> "" /\ trimmed name.
Proof.
  unfold fetch_name. destruct (on_get e _); try discriminate.
  rewrite if_truthy_some. intros [H Hne]. injection H as <-.
  split; auto. apply strip_trimmed.
Qed.

Lemma _fetch_owner_name_from_profile_xml_spec (e : env) (steam_id : string)
    (w : world) :
  _fetch_owner_name_from_profile_xml e steam_id w
  = (Returns (fetch_name e steam_id),
     mkWorld (data_file w) (log w ++ [EvFetch (STEAM_PROFILE_XML_URL steam_id)])).
Proof.
  unfold _fetch_owner_name_from_profile_xml, fetch_name, try_except,
    profile_steamID, bind, emit, ret, raise. cbn [if_truthy].
  destruct (on_get e (STEAM_PROFILE_XML_URL steam_id)); try reflexivity.
  cbv beta iota.
  destruct (String.eqb (strip (or_empty steamID)) ""); reflexivity.
Qed.

Lemma cache_wf_nil : cache_wf [].
Proof. split; constructor. Qed.

Lemma cache_wf_set (c : list (string * string)) (id name : string) :
  cache_wf c -> entry_ok (id, name) -> cache_wf (dict_set c id name).
Proof.
  intros [Hnd Hall] Hok. split.
  - now apply dict_set_NoDup.
  - now apply dict_set_Forall.
Qed.

(** What a well-formed cache answers with is well formed. *)
Lemma cache_wf_ok (c : list (string * string)) : cache_wf c -> cache_ok c.
Proof.
  intros [_ Hall] id name Hget. apply dict_get_In in Hget.
  rewrite Forall_forall in Hall. now apply Hall.
Qed.

Lemma cache_hit_some (c : list (string * string)) (id name : string) :
  cache_ok c ->
  dict_get c id = Some name ->
  cache_hit false c id = Some name.
Proof.
  intros Hc Hget. unfold cache_hit. apply if_truthy_some.
  split; auto. now destruct (Hc id name Hget) as [_ [Hne _]].
Qed.

Lemma cache_hit_none (c : list (string * string)) (id : string) :
  cache_ok c ->
  cache_hit false c id = None -> dict_get c id = None.
Proof.
  intros Hc Hhit. destruct (dict_get c id) as [name|] eqn:E; auto.
  rewrite (cache_hit_some c id name Hc E) in Hhit. discriminate.
Qed.

Section ResolverFacts.

Variable json_loads : string -> option pyval.

(** The normalized cache is well formed. *)
Lemma _normalize_owner_name_cache_wf (raw : pyval) :
  cache_wf (_normalize_owner_name_cache json_loads raw).
Proof.
  unfold _normalize_owner_name_cache.
  set (raw' := match raw with
               | VStr s => match json_loads s with Some v => v | None => VDict [] end
               | _ => raw
               end).
  destruct raw'; try apply cache_wf_nil.
  assert (H : forall acc, cache_wf acc ->
    cache_wf (fold_left
      (fun (normalized : list (string * string)) (item : string * pyval) =>
         let '(steam_id, owner_name) := item in
         match owner_name with
         | VStr owner_name =>
             let sid := strip steam_id in
             let name := strip owner_name in
             if String.eqb sid "" || String.eqb name "" then normalized
             else dict_set normalized sid name
         | _ => normalized
         end) items acc)).
  { induction items as [|[k v] items IH]; intros acc Hacc; simpl; auto.
    apply IH. destruct v; auto.
    destruct (String.eqb (strip k) "") eqn:Ek; simpl; auto.
    destruct (String.eqb (strip s) "") eqn:Es; simpl; auto.
    apply String.eqb_neq in Ek, Es.
    apply cache_wf_set; auto.
    unfold entry_ok; cbn [fst snd]. repeat split; auto using strip_trimmed. }
  apply H, cache_wf_nil.
Qed.

Lemma _normalize_owner_name_cache_ok (raw : pyval) :
  cache_ok (_normalize_owner_name_cache json_loads raw).
Proof. apply cache_wf_ok, _normalize_owner_name_cache_wf. Qed.

(** ** One turn of the loop, and the whole loop *)

Lemma resolve_one_spec e force_refresh steam_id st (w : world) :
  resolve_one e force_refresh steam_id st w
  = (Returns (step_pure e force_refresh steam_id st),
     mkWorld (data_file w) (log w ++ step_events force_refresh steam_id st)).
Proof.
  unfold resolve_one, step_pure, step_events.
  fold (cache_hit force_refresh (owner_name_cache st) steam_id).
  destruct (cache_hit force_refresh (owner_name_cache st) steam_id).
  - destruct w. unfold ret. simpl. now rewrite app_nil_r.
  - unfold bind. rewrite _fetch_owner_name_from_profile_xml_spec.
    rewrite fetch_name_truthy. destruct (fetch_name e steam_id); reflexivity.
Qed.

Lemma for_each_resolve_one_spec e force_refresh ids st (w : world) :
  for_each ids (resolve_one e force_refresh) st w
  = (Returns (loop_pure e force_refresh ids st),
     mkWorld (data_file w) (log w ++ loop_events e force_refresh ids st)).
Proof.
  revert st w. induction ids as [|id rest IH]; intros st w.
  - destruct w. unfold ret. simpl. now rewrite app_nil_r.
  - cbn [for_each loop_pure loop_events]. unfold bind.
    rewrite resolve_one_spec, IH. simpl. now rewrite app_assoc.
Qed.

End ResolverFacts.

(** ** The cache across calls *)

(** Normalizing the text of a well-formed cache gives the cache back,
    with a parser that reads back what [json.dumps] wrote. *)
Lemma _normalize_owner_name_cache_reads_back
    (json_loads : string -> option pyval) (c : list (string * string)) :
  reads_back json_loads ->
  cache_wf c ->
  _normalize_owner_name_cache json_loads (VStr (str_dict_text c)) = c.
Proof.
  intros Hback [Hnd Hall]. unfold _normalize_owner_name_cache.
  rewrite (Hback c Hnd). unfold str_dict.
  assert (H : forall acc,
             NoDup (dict_keys (acc ++ c)) ->
             fold_left
               (fun (normalized : list (string * string)) (item : string * pyval) =>
                  let '(steam_id, owner_name) := item in
                  match owner_name with
                  | VStr owner_name =>
                      let sid := strip steam_id in
                      let name := strip owner_name in
                      if String.eqb sid "" || String.eqb name "" then normalized
                      else dict_set normalized sid name
                  | _ => normalized
                  end)
               (map (fun kv => (fst kv, VStr (snd kv))) c) acc
             = acc ++ c).
  { clear Hnd. induction Hall as [|[k v] c Hkv Hall IH]; intros acc Hnd.
    - simpl. now rewrite app_nil_r.
    - destruct Hkv as [[Hk Hkt] [Hv Hvt]]. cbn [fst snd] in *.
      cbn [map fold_left fst snd]. rewrite Hkt, Hvt.
      apply String.eqb_neq in Hk, Hv. rewrite Hk, Hv. cbn [orb].
      rewrite dict_set_absent.
      + rewrite IH; rewrite <- app_assoc; auto.
      + apply dict_get_none_not_in. unfold dict_keys in *.
        rewrite map_app in Hnd. simpl in Hnd.
        apply NoDup_remove_2 in Hnd. intros Hin. apply Hnd.
        apply in_or_app. now left. }
  now apply (H []).
Qed.

(** The cache written back is the cache the next call starts from. *)
Lemma persisted_cache_with_cache (json_loads : string -> option pyval)
    (d : list (string * pyval)) (c : list (string * string)) :
  reads_back json_loads ->
  cache_wf c ->
  persisted_cache json_loads
    (dict_set d OWNER_NAME_CACHE_KEY (VStr (str_dict_text c))) = c.
Proof.
  intros Hback Hwf. unfold persisted_cache. rewrite dict_get_set_same.
  now apply _normalize_owner_name_cache_reads_back.
Qed.

(** The loop keeps the cache well formed. *)
Lemma loop_pure_wf (e : env) (force_refresh : bool) (ids : list string)
    (st : loop_state) :
  cache_wf (owner_name_cache st) ->
  (forall id, In id ids -> id <> "" /\ trimmed id) ->
  cache_wf (owner_name_cache (loop_pure e force_refresh ids st)).
Proof.
  revert st. induction ids as [|id rest IH]; intros st Hwf Hids; auto.
  cbn [loop_pure]. apply IH; [|intros; apply Hids; now right].
  unfold step_pure. destruct (cache_hit _ _ _); auto.
  destruct (fetch_name e id) as [name|] eqn:E; auto.
  cbn [owner_name_cache]. apply cache_wf_set; auto.
  split; cbn [fst snd]; [apply Hids; now left | eapply fetch_name_some; eauto].
Qed.

(** ** The loop over ids that are pairwise distinct *)

Section LoopFacts.

Variables (e : env) (force_refresh : bool).

(** The cache the loop started from. *)
Variable c0 : list (string * string).

Lemma cache_hit_agrees (c : list (string * string)) (id : string) :
  dict_get c id = dict_get c0 id ->
  cache_hit force_refresh c id = cache_hit force_refresh c0 id.
Proof. unfold cache_hit. now intros ->. Qed.

Lemma step_cache_other (id id' : string) (st : loop_state) :
  id' <> id ->
  dict_get (owner_name_cache (step_pure e force_refresh id st)) id'
  = dict_get (owner_name_cache st) id'.
Proof.
  intros Hne. unfold step_pure.
  destruct (cache_hit _ _ _); simpl; auto.
  destruct (fetch_name e id); simpl; auto.
  now apply dict_get_set_other.
Qed.

Lemma step_result_other (id id' : string) (st : loop_state) :
  id' <> id ->
  dict_get (result (step_pure e force_refresh id st)) id'
  = dict_get (result st) id'.
Proof.
  intros Hne. unfold step_pure.
  destruct (cache_hit _ _ _); simpl; [now apply dict_get_set_other|].
  destruct (fetch_name e id); simpl; auto.
  now apply dict_get_set_other.
Qed.

Lemma agrees_on_step (id : string) (rest : list string) (st : loop_state) :
  NoDup (id :: rest) ->
  agrees_on c0 (id :: rest) st ->
  agrees_on c0 rest (step_pure e force_refresh id st).
Proof.
  intros Hnd Hag id' Hin. inversion Hnd; subst.
  rewrite step_cache_other by (intros ->; contradiction).
  apply Hag. now right.
Qed.

(** The result grows by the resolved ids, in order. *)
Lemma loop_result (ids : list string) (st : loop_state) :
  NoDup ids ->
  agrees_on c0 ids st ->
  (forall id, In id ids -> dict_get (result st) id = None) ->
  result (loop_pure e force_refresh ids st)
  = result st ++ flat_map (resolved_item e force_refresh c0) ids.
Proof.
  revert st. induction ids as [|id rest IH]; intros st Hnd Hag Hres.
  - simpl. now rewrite app_nil_r.
  - cbn [loop_pure flat_map].
    rewrite IH; [| now inversion Hnd | now apply agrees_on_step |].
    + rewrite app_assoc. f_equal.
      unfold step_pure, resolved_item, resolution.
      rewrite (cache_hit_agrees _ id) by (apply Hag; now left).
      destruct (cache_hit force_refresh c0 id); simpl.
      * apply dict_set_absent, Hres. now left.
      * destruct (fetch_name e id); simpl; [|now rewrite app_nil_r].
        apply dict_set_absent, Hres. now left.
    + intros id' Hin. inversion Hnd; subst.
      rewrite step_result_other by (intros ->; contradiction).
      apply Hres. now right.
Qed.

(** The fetches are those of the ids the cache does not answer, in
    order. *)
Lemma loop_events_spec (ids : list string) (st : loop_state) :
  NoDup ids ->
  agrees_on c0 ids st ->
  loop_events e force_refresh ids st
  = map (fun id => EvFetch (STEAM_PROFILE_XML_URL id)) (filter (needs_fetch force_refresh c0) ids).
Proof.
  revert st. induction ids as [|id rest IH]; intros st Hnd Hag; auto.
  cbn [loop_events filter].
  rewrite IH; [| now inversion Hnd | now apply agrees_on_step].
  unfold step_events, needs_fetch.
  rewrite (cache_hit_agrees _ id) by (apply Hag; now left).
  destruct (cache_hit force_refresh c0 id); reflexivity.
Qed.

(** The cache is marked as updated when some fetch brought a name. *)
Lemma loop_updated (ids : list string) (st : loop_state) :
  NoDup ids ->
  agrees_on c0 ids st ->
  cache_updated (loop_pure e force_refresh ids st)
  = cache_updated st
    || existsb (fun id => is_some (fetched e force_refresh c0 id)) ids.
Proof.
  revert st. induction ids as [|id rest IH]; intros st Hnd Hag.
  - simpl. now rewrite orb_false_r.
  - cbn [loop_pure existsb].
    rewrite IH; [| now inversion Hnd | now apply agrees_on_step].
    rewrite orb_assoc. f_equal.
    unfold step_pure, fetched.
    rewrite (cache_hit_agrees _ id) by (apply Hag; now left).
    destruct (cache_hit force_refresh c0 id); simpl;
      [now rewrite orb_false_r|].
    destruct (fetch_name e id); simpl;
      [now rewrite orb_true_r | now rewrite orb_false_r].
Qed.

Lemma loop_cache_outside (ids : list string) (st : loop_state) (id : string) :
  ~ In id ids ->
  dict_get (owner_name_cache (loop_pure e force_refresh ids st)) id
  = dict_get (owner_name_cache st) id.
Proof.
  revert st. induction ids as [|id0 rest IH]; intros st Hout; auto.
  cbn [loop_pure]. rewrite IH by (intros H; apply Hout; now right).
  apply step_cache_other. intros ->. apply Hout. now left.
Qed.

(** The cache gains the fetched names and keeps every other entry. *)
Lemma loop_cache_inside (ids : list string) (st : loop_state) (id : string) :
  NoDup ids ->
  agrees_on c0 ids st ->
  In id ids ->
  dict_get (owner_name_cache (loop_pure e force_refresh ids st)) id
  = match fetched e force_refresh c0 id with
    | Some name => Some name
    | None => dict_get c0 id
    end.
Proof.
  revert st. induction ids as [|id0 rest IH]; intros st Hnd Hag Hin;
    [destruct Hin|].
  cbn [loop_pure]. destruct Hin as [->|Hin].
  - inversion Hnd; subst. rewrite loop_cache_outside by assumption.
    unfold step_pure, fetched.
    rewrite (cache_hit_agrees _ id) by (apply Hag; now left).
    destruct (cache_hit force_refresh c0 id); simpl; [apply Hag; now left|].
    destruct (fetch_name e id); simpl;
      [apply dict_get_set_same | apply Hag; now left].
  - apply IH; [now inversion Hnd | now apply agrees_on_step | assumption].
Qed.

(** ** Reading the result *)

Lemma resolved_get_in (ids : list string) (id : string) :
  In id ids ->
  dict_get (flat_map (resolved_item e force_refresh c0) ids) id = resolution e force_refresh c0 id.
Proof.
  induction ids as [|id0 rest IH]; intros Hin; [destruct Hin|].
  cbn [flat_map]. destruct (string_dec id0 id) as [->|Hne].
  - unfold resolved_item at 1.
    destruct (resolution e force_refresh c0 id) eqn:E.
    + simpl. now rewrite String.eqb_refl.
    + simpl. clear IH Hin.
      induction rest as [|id1 rest IH]; auto.
      cbn [flat_map]. unfold resolved_item at 1.
      destruct (resolution e force_refresh c0 id1) eqn:E1; auto.
      simpl. destruct (String.eqb id1 id) eqn:Eq; auto.
      apply String.eqb_eq in Eq. congruence.
  - destruct Hin as [?|Hin]; [contradiction|].
    unfold resolved_item at 1.
    destruct (resolution e force_refresh c0 id0); simpl; auto.
    apply String.eqb_neq in Hne. rewrite Hne. auto.
Qed.

Lemma resolved_get_out (ids : list string) (id : string) :
  ~ In id ids -> dict_get (flat_map (resolved_item e force_refresh c0) ids) id = None.
Proof.
  induction ids as [|id0 rest IH]; intros Hout; auto.
  cbn [flat_map]. unfold resolved_item at 1.
  assert (Hne : id0 <> id) by (intros ->; apply Hout; now left).
  assert (Hrest : ~ In id rest) by (intros H; apply Hout; now right).
  destruct (resolution e force_refresh c0 id0); simpl; auto.
  apply String.eqb_neq in Hne. rewrite Hne. auto.
Qed.

(** The keys of the result are the resolved ids, in the order parsed. *)
Lemma resolved_keys (ids : list string) :
  dict_keys (flat_map (resolved_item e force_refresh c0) ids)
  = filter (fun id => is_some (resolution e force_refresh c0 id)) ids.
Proof.
  unfold dict_keys. induction ids as [|id rest IH]; auto.
  cbn [flat_map filter]. rewrite map_app, IH. unfold resolved_item.
  destruct (resolution e force_refresh c0 id); reflexivity.
Qed.

End LoopFacts.

(** ** Counting fetches *)

Lemma fetch_count_app (id : string) (a b : list event) :
  fetch_count id (a ++ b) = fetch_count id a + fetch_count id b.
Proof. unfold fetch_count. now rewrite filter_app, length_app. Qed.

Lemma fetch_count_none (id : string) (evs : list event) :
  (forall ev, In ev evs -> is_fetch ev = false) -> fetch_count id evs = 0.
Proof.
  unfold fetch_count. induction evs as [|ev evs IH]; intros H; auto.
  simpl. destruct ev; try (apply IH; intros; apply H; now right).
  specialize (H _ (or_introl eq_refl)). discriminate.
Qed.

Lemma fetch_count_fetches_out (id : string) (l : list string) :
  ~ In id l ->
  fetch_count id (map (fun x => EvFetch (STEAM_PROFILE_XML_URL x)) l) = 0.
Proof.
  unfold fetch_count. induction l as [|x l IH]; intros Hout; auto.
  cbn [map filter]. destruct (String.eqb _ _) eqn:E.
  - apply String.eqb_eq, STEAM_PROFILE_XML_URL_inj in E. subst x.
    exfalso. apply Hout. now left.
  - apply IH. intros H. apply Hout. now right.
Qed.

Lemma fetch_count_fetches_in (id : string) (l : list string) :
  NoDup l -> In id l ->
  fetch_count id (map (fun x => EvFetch (STEAM_PROFILE_XML_URL x)) l) = 1.
Proof.
  induction l as [|x l IH]; intros Hnd Hin; [destruct Hin|].
  inversion Hnd; subst.
  change (map _ (x :: l)) with
    ([EvFetch (STEAM_PROFILE_XML_URL x)]
     ++ map (fun x => EvFetch (STEAM_PROFILE_XML_URL x)) l).
  rewrite fetch_count_app. destruct Hin as [->|Hin].
  - rewrite fetch_count_fetches_out by assumption.
    unfold fetch_count. cbn [filter]. now rewrite String.eqb_refl.
  - rewrite IH by assumption.
    unfold fetch_count. cbn [filter]. destruct (String.eqb _ _) eqn:E; auto.
    apply String.eqb_eq, STEAM_PROFILE_XML_URL_inj in E. subst x. contradiction.
Qed.

Lemma fetch_count_zero (id : string) (evs : list event) :
  fetch_count id evs = 0 <-> ~ In (EvFetch (STEAM_PROFILE_XML_URL id)) evs.
Proof.
  unfold fetch_count. induction evs as [|ev evs IH].
  - simpl. tauto.
  - cbn [filter In]. destruct ev;
      try (rewrite IH; split; [intros H [H'|H']; [discriminate | auto] | tauto]).
    destruct (String.eqb url (STEAM_PROFILE_XML_URL id)) eqn:E.
    + apply String.eqb_eq in E. subst url. simpl. split; [discriminate|].
      intros H. exfalso. apply H. now left.
    + apply String.eqb_neq in E. rewrite IH. split.
      * intros H [H'|H']; [injection H' as H'; contradiction | auto].
      * tauto.
Qed.

(** ** What one call of [resolve_owner_names] does *)

Section ResolverSpec.

Variable json_loads : string -> option pyval.

Lemma persisted_cache_ok (d : list (string * pyval)) : cache_ok (persisted_cache json_loads d).
Proof. apply _normalize_owner_name_cache_ok. Qed.

Lemma resolve_owner_names_payload e payload steam_ids steam_ids_csv force_refresh :
  resolve_owner_names json_loads e payload steam_ids steam_ids_csv force_refresh
  = resolve_owner_names json_loads e None
      (payload_get payload p_steam_ids steam_ids)
      (payload_get payload p_steam_ids_csv steam_ids_csv)
      (match payload with
       | Some _ => py_bool (payload_get payload p_force_refresh (VBool force_refresh))
       | None => force_refresh
       end).
Proof. reflexivity. Qed.

Lemma resolve_owner_names_nil e steam_ids steam_ids_csv force_refresh (w : world) :
  _parse_steam_ids steam_ids steam_ids_csv = [] ->
  resolve_owner_names json_loads e None steam_ids steam_ids_csv force_refresh w
  = (Returns "{}", w).
Proof.
  intros Hnil. unfold resolve_owner_names, payload_get. now rewrite Hnil.
Qed.

Lemma resolve_owner_names_spec e steam_ids steam_ids_csv force_refresh
    (d : list (string * pyval)) (w : world) :
  let ids := _parse_steam_ids steam_ids steam_ids_csv in
  let st0 := mkLoop (persisted_cache json_loads d) [] false in
  let st := loop_pure e force_refresh ids st0 in
  let fetches := loop_events e force_refresh ids st0 in
  ids <> [] ->
  loaded (data_file w) = VDict d ->
  resolve_owner_names json_loads e None steam_ids steam_ids_csv force_refresh w
  = (Returns (str_dict_text (result st)),
     if cache_updated st then
       let eff := write_effect e (with_cache d (owner_name_cache st)) (data_file w) in
       mkWorld (snd (fst eff))
               (log w ++ load_events (data_file w) ++ fetches ++ snd eff)
     else
       mkWorld (data_file w) (log w ++ load_events (data_file w) ++ fetches)).
Proof.
  intros ids st0 st fetches Hids Hd.
  assert (Hlen : Nat.eqb (length ids) 0 = false)
    by (destruct ids; [congruence | reflexivity]).
  unfold resolve_owner_names, payload_get. fold ids. rewrite Hlen.
  unfold bind at 1. rewrite _load_all_spec, Hd.
  unfold bind at 1. cbn [py_get ret].
  fold (persisted_cache json_loads d). fold st0.
  unfold bind at 1. rewrite for_each_resolve_one_spec.
  subst st fetches.
  destruct (cache_updated (loop_pure e force_refresh ids st0)).
  - unfold bind. rewrite py_json_dumps_str_dict. cbn [py_setitem ret].
    rewrite _write_all_spec. unfold ret at 1 2. cbn [data_file log].
    rewrite py_json_dumps_str_dict. unfold with_cache, ret.
    now rewrite <- !app_assoc.
  - unfold bind, ret at 1 2. rewrite py_json_dumps_str_dict. unfold ret.
    cbn [data_file log]. now rewrite <- !app_assoc.
Qed.

End ResolverSpec.

(** ** The events of a load and of a write *)

Lemma load_events_kind (f : file_state) (ev : event) :
  In ev (load_events f) -> is_fetch ev = false /\ is_write ev = false.
Proof.
  destruct f; simpl; intros H;
    repeat (destruct H as [<-|H]; [now split|]); destruct H.
Qed.

Lemma write_effect_events (e : env) (data : pyval) (f : file_state) (ev : event) :
  In ev (snd (write_effect e data f)) ->
  is_fetch ev = false /\ (forall x, ev = EvWrite x -> x = data).
Proof.
  unfold write_effect.
  destruct (on_write e); [destruct (json_dumps data)|..]; simpl; intros H;
    repeat (destruct H as [<-|H];
            [split; [reflexivity | intros x Hx; try discriminate;
                                   now injection Hx as <-]|]);
    destruct H.
Qed.

Lemma write_effect_file_cases (e : env) (data : pyval) (f : file_state) :
  snd (fst (write_effect e data f)) = f
  \/ snd (fst (write_effect e data f)) = FileUnreadable JSONDecodeError
  \/ snd (fst (write_effect e data f)) = FileJson data.
Proof.
  unfold write_effect.
  destruct (on_write e); [destruct (json_dumps data)|..]; simpl; auto.
Qed.

Lemma filter_is_fetch_none (evs : list event) :
  (forall ev, In ev evs -> is_fetch ev = false) -> filter is_fetch evs = [].
Proof.
  induction evs as [|ev evs IH]; intros H; auto.
  simpl. rewrite (H ev) by now left. apply IH. intros; apply H; now right.
Qed.

Lemma filter_is_fetch_fetches (l : list string) :
  filter is_fetch (map (fun x => EvFetch (STEAM_PROFILE_XML_URL x)) l)
  = map (fun x => EvFetch (STEAM_PROFILE_XML_URL x)) l.
Proof. induction l as [|x l IH]; simpl; congruence. Qed.

Lemma fetch_events_kind (l : list string) (ev : event) :
  In ev (map (fun x => EvFetch (STEAM_PROFILE_XML_URL x)) l) -> is_write ev = false.
Proof. rewrite in_map_iff. now intros (x & <- & _). Qed.

Section ResolverSummary.

Variable json_loads : string -> option pyval.

(** Everything one call does, on a document that is a dict: the text it
    returns is that of the resolved ids; the cache [c'] it may write
    back gains the fetched names; an id is fetched once when the cache
    does not answer it and never otherwise; the file is written when,
    and only when, a fetch brought a name. *)
Lemma resolve_owner_names_summary e steam_ids steam_ids_csv force_refresh
    (d : list (string * pyval)) (w : world) :
  let ids := _parse_steam_ids steam_ids steam_ids_csv in
  let c0 := persisted_cache json_loads d in
  loaded (data_file w) = VDict d ->
  exists r c' w' evs,
    resolve_owner_names json_loads e None steam_ids steam_ids_csv force_refresh w
    = (Returns (str_dict_text r), w') /\
    log w' = log w ++ evs /\
    r = flat_map (resolved_item e force_refresh c0) ids /\
    filter is_fetch evs
    = map (fun id => EvFetch (STEAM_PROFILE_XML_URL id))
          (filter (needs_fetch force_refresh c0) ids) /\
    (forall id, In id ids ->
       dict_get c' id = match fetched e force_refresh c0 id with
                        | Some name => Some name
                        | None => dict_get c0 id
                        end) /\
    (forall id, In id ids ->
       fetch_count id evs = if needs_fetch force_refresh c0 id then 1 else 0) /\
    (forall id, ~ In id ids -> fetch_count id evs = 0) /\
    cache_wf c' /\
    (if existsb (fun id => is_some (fetched e force_refresh c0 id)) ids then
       (forall data, In (EvWrite data) evs -> data = with_cache d c') /\
       (write_succeeds e (with_cache d c') = true ->
        data_file w' = FileJson (with_cache d c')) /\
       (data_file w' = data_file w
        \/ data_file w' = FileUnreadable JSONDecodeError
        \/ data_file w' = FileJson (with_cache d c'))
     else
       data_file w' = data_file w /\ forall data, ~ In (EvWrite data) evs).
Proof.
  intros ids c0 Hd.
  destruct ids as [|id0 rest] eqn:Eids.
  - exists [], c0, w, []. subst ids.
    rewrite (resolve_owner_names_nil json_loads e _ _ _ w Eids).
    rewrite app_nil_r. cbn [existsb flat_map].
    repeat split; auto; try (intros id []);
      apply _normalize_owner_name_cache_wf.
  - rewrite <- Eids.
    assert (Hne : ids <> []) by (rewrite Eids; discriminate).
    assert (Hnd : NoDup ids) by apply _parse_steam_ids_NoDup.
    set (st0 := mkLoop c0 [] false).
    assert (Hag : agrees_on c0 ids st0) by (intros id _; reflexivity).
    pose proof (resolve_owner_names_spec json_loads e steam_ids steam_ids_csv
                  force_refresh d w Hne Hd) as Hspec.
    fold ids c0 st0 in Hspec. cbv zeta in Hspec.
    rewrite (loop_result e force_refresh c0 ids st0 Hnd Hag) in Hspec
      by reflexivity.
    rewrite (loop_events_spec e force_refresh c0 ids st0 Hnd Hag) in Hspec.
    rewrite (loop_updated e force_refresh c0 ids st0 Hnd Hag) in Hspec.
    cbn [result cache_updated st0 app orb] in Hspec.
    set (c' := owner_name_cache (loop_pure e force_refresh ids st0)) in *.
    set (fetches := map (fun id => EvFetch (STEAM_PROFILE_XML_URL id))
                        (filter (needs_fetch force_refresh c0) ids)) in *.
    assert (Hcount_in : forall wr id,
               (forall ev, In ev wr -> is_fetch ev = false) -> In id ids ->
               fetch_count id (load_events (data_file w) ++ fetches ++ wr)
               = if needs_fetch force_refresh c0 id then 1 else 0).
    { intros wr id Hwr Hin. rewrite !fetch_count_app.
      rewrite (fetch_count_none id (load_events _))
        by (intros ev H; now apply load_events_kind in H).
      rewrite (fetch_count_none id wr) by assumption.
      destruct (needs_fetch force_refresh c0 id) eqn:En.
      - unfold fetches. rewrite fetch_count_fetches_in; auto.
        + now apply NoDup_filter.
        + apply filter_In. auto.
      - unfold fetches. rewrite fetch_count_fetches_out; auto.
        rewrite filter_In. intros [_ H]. congruence. }
    assert (Hcount_out : forall wr id,
               (forall ev, In ev wr -> is_fetch ev = false) -> ~ In id ids ->
               fetch_count id (load_events (data_file w) ++ fetches ++ wr) = 0).
    { intros wr id Hwr Hout. rewrite !fetch_count_app.
      rewrite (fetch_count_none id (load_events _))
        by (intros ev H; now apply load_events_kind in H).
      rewrite (fetch_count_none id wr) by assumption.
      unfold fetches. rewrite fetch_count_fetches_out; auto.
      rewrite filter_In. tauto. }
    assert (Hc' : forall id, In id ids ->
               dict_get c' id = match fetched e force_refresh c0 id with
                                | Some name => Some name
                                | None => dict_get c0 id
                                end).
    { intros id Hin. now apply loop_cache_inside. }
    assert (Hwf : cache_wf c').
    { apply loop_pure_wf; [apply _normalize_owner_name_cache_wf|].
      intros id Hin. now apply _parse_steam_ids_trimmed in Hin. }
    destruct (existsb (fun id => is_some (fetched e force_refresh c0 id)) ids).
    + set (eff := write_effect e (with_cache d c') (data_file w)) in *.
      exists (flat_map (resolved_item e force_refresh c0) ids), c',
        (mkWorld (snd (fst eff))
                 (log w ++ load_events (data_file w) ++ fetches ++ snd eff)),
        (load_events (data_file w) ++ fetches ++ snd eff).
      assert (Hwr : forall ev, In ev (snd eff) -> is_fetch ev = false)
        by (intros ev H; now apply write_effect_events in H).
      split; [exact Hspec|]. split; [reflexivity|]. split; [reflexivity|].
      split.
      { rewrite !filter_app, (filter_is_fetch_none (load_events _)),
          (filter_is_fetch_none (snd eff)), app_nil_r by
            (assumption || (intros ev H; now apply load_events_kind in H)).
        apply filter_is_fetch_fetches. }
      split; [exact Hc'|].
      split; [intros; now apply Hcount_in|].
      split; [intros; now apply Hcount_out|].
      split; [exact Hwf|].
      split; [|split].
      * intros data Hin. apply in_app_or in Hin. destruct Hin as [Hin|Hin].
        { apply load_events_kind in Hin. destruct Hin. discriminate. }
        apply in_app_or in Hin. destruct Hin as [Hin|Hin].
        { apply fetch_events_kind in Hin. discriminate. }
        apply write_effect_events in Hin. now apply Hin.
      * intros Hok. cbn [data_file]. now apply write_effect_file.
      * cbn [data_file]. apply write_effect_file_cases.
    + exists (flat_map (resolved_item e force_refresh c0) ids), c',
        (mkWorld (data_file w) (log w ++ load_events (data_file w) ++ fetches)),
        (load_events (data_file w) ++ fetches).
      split; [exact Hspec|]. split; [reflexivity|]. split; [reflexivity|].
      split.
      { rewrite filter_app, (filter_is_fetch_none (load_events _)) by
            (intros ev H; now apply load_events_kind in H).
        apply filter_is_fetch_fetches. }
      split; [exact Hc'|].
      split; [|split; [|split; [exact Hwf|split; [reflexivity|]]]].
      * intros id Hin. rewrite <- (app_nil_r fetches).
        apply Hcount_in; auto. intros ev [].
      * intros id Hout. rewrite <- (app_nil_r fetches).
        apply Hcount_out; auto. intros ev [].
      * intros data Hin. apply in_app_or in Hin. destruct Hin as [Hin|Hin].
        { apply load_events_kind in Hin. destruct Hin. discriminate. }
        apply fetch_events_kind in Hin. discriminate.
Qed.

End ResolverSummary.

(* ================================================================== *)
(** * One call of the resolver, spelled out *)
(* ================================================================== *)

(** [json.dumps] accepts a list of values exactly when it accepts each. *)
Lemma collect_inl (l : list dumped) :
  (exists texts, collect l = inl texts)
  <-> Forall (fun x => exists s, x = Text s) l.
Proof.
  induction l as [|x l IH]; simpl.
  - split; eauto.
  - destruct x as [s|t].
    + split.
      * intros [texts H]. constructor; [eauto|]. apply IH.
        destruct (collect l); [eauto | discriminate].
      * intros H. inversion H as [|? ? _ Hl]; subst.
        apply IH in Hl. destruct Hl as [texts ->]. eauto.
    + split; [intros [? H]; discriminate|].
      intros H. inversion H as [|? ? [s Hs] _]. discriminate.
Qed.

Lemma serializable_dict (d : list (string * pyval)) :
  serializable (VDict d) <-> Forall (fun kv => serializable (snd kv)) d.
Proof.
  unfold serializable. cbn [json_dumps].
  match goal with |- context [collect (map ?g d)] => set (f := g) end.
  assert (Hf : forall kv,
             (exists s, f kv = Text s)
             <-> exists text, json_dumps (snd kv) = Text text).
  { intros kv. unfold f.
    destruct (json_dumps (snd kv)); split; intros [x H]; eauto; discriminate. }
  split.
  - intros [text H]. destruct (collect (map f d)) eqn:E; [|discriminate].
    assert (HF : Forall (fun x => exists s, x = Text s) (map f d))
      by (apply collect_inl; eauto).
    rewrite Forall_map in HF. eapply Forall_impl; [|exact HF].
    intros kv. apply Hf.
  - intros HF.
    assert (H : exists texts, collect (map f d) = inl texts).
    { apply collect_inl. rewrite Forall_map.
      eapply Forall_impl; [|exact HF]. intros kv. apply Hf. }
    destruct H as [texts ->]. eauto.
Qed.

(** A document that can be written can be written with a cache. *)
Lemma serializable_with_cache (d : list (string * pyval))
    (c : list (string * string)) :
  serializable (VDict d) -> serializable (with_cache d c).
Proof.
  unfold with_cache. rewrite !serializable_dict. intros Hd.
  apply dict_set_Forall; auto. cbn [snd]. eexists. reflexivity.
Qed.

Lemma write_succeeds_with_cache (e : env) (d : list (string * pyval))
    (c : list (string * string)) :
  on_write e = WriteSucceeds ->
  serializable (VDict d) ->
  write_succeeds e (with_cache d c) = true.
Proof.
  intros He Hd. unfold write_succeeds. rewrite He.
  destruct (serializable_with_cache d c Hd) as [text ->]. reflexivity.
Qed.

Lemma world_after_log e force_refresh d c0 ids (w : world) :
  log (world_after e force_refresh d c0 ids w)
  = log w ++ call_events e force_refresh d c0 ids (data_file w).
Proof. destruct ids; simpl; [now rewrite app_nil_r | reflexivity]. Qed.

Lemma world_after_file e force_refresh d c0 ids (w : world) :
  data_file (world_after e force_refresh d c0 ids w)
  = fst (write_back e force_refresh d c0 ids (data_file w)).
Proof. destruct ids; reflexivity. Qed.

(** The write that ends a call does not fetch, and writes the document
    with the final cache. *)
Lemma write_back_events e force_refresh d c0 ids f (ev : event) :
  In ev (snd (write_back e force_refresh d c0 ids f)) ->
  is_fetch ev = false /\ ev <> EvExists /\ ev <> EvRead.
Proof.
  unfold write_back. destruct (any_fetched _ _ _ _); [|intros []].
  unfold write_effect.
  destruct (on_write e); [destruct (json_dumps _)|..]; simpl; intros H;
    repeat (destruct H as [<-|H]; [repeat split; discriminate|]); destruct H.
Qed.

Lemma write_back_one_write e force_refresh d c0 ids f :
  length (filter is_write (snd (write_back e force_refresh d c0 ids f))) <= 1.
Proof.
  unfold write_back. destruct (any_fetched _ _ _ _); [|simpl; lia].
  unfold write_effect.
  destruct (on_write e); [destruct (json_dumps _)|..]; simpl; lia.
Qed.

Lemma write_back_file e force_refresh d c0 ids f :
  fst (write_back e force_refresh d c0 ids f) = f
  \/ fst (write_back e force_refresh d c0 ids f) = FileUnreadable JSONDecodeError
  \/ fst (write_back e force_refresh d c0 ids f)
     = FileJson (with_cache d (final_cache e force_refresh c0 ids)).
Proof.
  unfold write_back. destruct (any_fetched _ _ _ _); [|now left].
  apply write_effect_file_cases.
Qed.

Lemma write_back_no_write e force_refresh d c0 ids f :
  (forall data, ~ In (EvWrite data) (snd (write_back e force_refresh d c0 ids f))) ->
  fst (write_back e force_refresh d c0 ids f) = f.
Proof.
  unfold write_back. destruct (any_fetched _ _ _ _); [|reflexivity].
  unfold write_effect.
  destruct (on_write e); [destruct (json_dumps _)|..]; simpl; intros H;
    try reflexivity; exfalso; eapply H; eauto.
Qed.

Lemma fetch_events_kind_fetch force_refresh c0 ids (ev : event) :
  In ev (fetch_events force_refresh c0 ids) -> is_fetch ev = true.
Proof. unfold fetch_events. rewrite in_map_iff. now intros (x & <- & _). Qed.

Lemma load_events_cases (f : file_state) (ev : event) :
  In ev (load_events f) -> ev = EvExists \/ ev = EvRead.
Proof. destruct f; simpl; intuition. Qed.

Lemma call_events_fetch_count_in e force_refresh d c0 ids f (id : string) :
  NoDup ids -> In id ids ->
  fetch_count id (call_events e force_refresh d c0 ids f)
  = if needs_fetch force_refresh c0 id then 1 else 0.
Proof.
  intros Hnd Hin. unfold call_events.
  destruct ids as [|id0 rest] eqn:E; [destruct Hin|]. rewrite <- E in *.
  rewrite !fetch_count_app.
  rewrite (fetch_count_none id (load_events f))
    by (intros ev H; now apply load_events_kind in H).
  rewrite (fetch_count_none id (snd _))
    by (intros ev H; now apply write_back_events in H).
  unfold fetch_events. destruct (needs_fetch force_refresh c0 id) eqn:En.
  - rewrite fetch_count_fetches_in; auto.
    + now apply NoDup_filter.
    + apply filter_In. auto.
  - rewrite fetch_count_fetches_out; auto.
    rewrite filter_In. intros [_ H]. congruence.
Qed.

(** One call on a document that is a dict: the text it returns and the
    world it leaves. *)
Lemma resolve_owner_names_run (json_loads : string -> option pyval)
    (e : env) (force_refresh : bool) steam_ids steam_ids_csv
    (d : list (string * pyval)) (w : world) :
  loaded (data_file w) = VDict d ->
  resolve_owner_names json_loads e None steam_ids steam_ids_csv force_refresh w
  = (Returns (str_dict_text
                (resolved e force_refresh (persisted_cache json_loads d)
                   (_parse_steam_ids steam_ids steam_ids_csv))),
     world_after e force_refresh d (persisted_cache json_loads d)
       (_parse_steam_ids steam_ids steam_ids_csv) w).
Proof.
  intros Hd.
  pose proof (_parse_steam_ids_NoDup steam_ids steam_ids_csv) as Hnd.
  pose proof (resolve_owner_names_spec json_loads e steam_ids steam_ids_csv
                force_refresh d w) as Hspec.
  cbv zeta in Hspec.
  destruct (_parse_steam_ids steam_ids steam_ids_csv) as [|id0 rest] eqn:Eids.
  - now apply resolve_owner_names_nil.
  - rewrite (Hspec ltac:(discriminate) Hd). clear Hspec.
    set (c0 := persisted_cache json_loads d).
    assert (Hag : agrees_on c0 (id0 :: rest) (mkLoop c0 [] false))
      by (intros id _; reflexivity).
    rewrite (loop_result e force_refresh c0 _ _ Hnd Hag) by reflexivity.
    rewrite (loop_events_spec e force_refresh c0 _ _ Hnd Hag).
    rewrite (loop_updated e force_refresh c0 _ _ Hnd Hag).
    unfold world_after, call_events, write_back, any_fetched, final_cache,
      fetch_events, resolved.
    cbn [result cache_updated app orb].
    destruct (existsb _ (id0 :: rest)); cbn [fst snd];
      rewrite ?app_nil_r; reflexivity.
Qed.

Section FinalCache.

Variables (e : env) (force_refresh : bool).
Variable c0 : list (string * string).

Lemma final_cache_wf (ids : list string) :
  cache_wf c0 ->
  (forall id, In id ids -> id <> "" /\ trimmed id) ->
  cache_wf (final_cache e force_refresh c0 ids).
Proof. intros Hwf Hids. now apply loop_pure_wf. Qed.

Lemma final_cache_inside (ids : list string) (id : string) :
  NoDup ids -> In id ids ->
  dict_get (final_cache e force_refresh c0 ids) id
  = match fetched e force_refresh c0 id with
    | Some name => Some name
    | None => dict_get c0 id
    end.
Proof.
  intros Hnd Hin. unfold final_cache. apply loop_cache_inside; auto.
  intros id' _. reflexivity.
Qed.

Lemma final_cache_outside (ids : list string) (id : string) :
  ~ In id ids ->
  dict_get (final_cache e force_refresh c0 ids) id = dict_get c0 id.
Proof. intros Hout. unfold final_cache. now rewrite loop_cache_outside. Qed.

(** When no fetch brought a name the cache answers as before. *)
Lemma final_cache_unchanged (ids : list string) (id : string) :
  NoDup ids ->
  any_fetched e force_refresh c0 ids = false ->
  dict_get (final_cache e force_refresh c0 ids) id = dict_get c0 id.
Proof.
  intros Hnd Hany.
  destruct (in_dec string_dec id ids) as [Hin|Hout];
    [|now apply final_cache_outside].
  rewrite final_cache_inside by assumption.
  destruct (fetched e force_refresh c0 id) eqn:E; auto.
  assert (H : any_fetched e force_refresh c0 ids = true).
  { apply existsb_exists. exists id. split; auto. now rewrite E. }
  congruence.
Qed.

Lemma resolved_get (ids : list string) (id name : string) :
  dict_get (resolved e force_refresh c0 ids) id = Some name
  <-> In id ids /\ resolution e force_refresh c0 id = Some name.
Proof.
  unfold resolved. destruct (in_dec string_dec id ids) as [Hin|Hout].
  - rewrite resolved_get_in by assumption. tauto.
  - rewrite resolved_get_out by assumption. split; [discriminate | tauto].
Qed.

Lemma resolved_NoDup (ids : list string) :
  NoDup ids -> NoDup (dict_keys (resolved e force_refresh c0 ids)).
Proof.
  intros Hnd. unfold resolved. rewrite resolved_keys. now apply NoDup_filter.
Qed.

(** A name the call resolved is in the final cache. *)
Lemma final_cache_resolved (ids : list string) (id name : string) :
  NoDup ids -> In id ids ->
  resolution e force_refresh c0 id = Some name ->
  dict_get (final_cache e force_refresh c0 ids) id = Some name.
Proof.
  intros Hnd Hin Hres. rewrite final_cache_inside by assumption.
  unfold resolution in Hres. unfold fetched.
  destruct (cache_hit force_refresh c0 id) as [n|] eqn:Ehit.
  - injection Hres as ->. unfold cache_hit in Ehit.
    apply if_truthy_some in Ehit. destruct Ehit as [Ehit _].
    destruct force_refresh; [discriminate | assumption].
  - now rewrite Hres.
Qed.

End FinalCache.

Lemma file_cache_dict json_loads (f : file_state) (d : list (string * pyval)) :
  loaded f = VDict d -> file_cache json_loads f = persisted_cache json_loads d.
Proof. unfold file_cache. now intros ->. Qed.



(** On a data file whose JSON text is not an object, a call with an id
    to resolve raises at [data.get], having only read the file. *)
Lemma resolve_owner_names_not_dict (json_loads : string -> option pyval)
    (e : env) steam_ids steam_ids_csv force_refresh (w : world) :
  _parse_steam_ids steam_ids steam_ids_csv <> [] ->
  (forall d, loaded (data_file w) <> VDict d) ->
  exists ex,
    resolve_owner_names json_loads e None steam_ids steam_ids_csv force_refresh w
    = (Raises ex, mkWorld (data_file w) (log w ++ load_events (data_file w))).
Proof.
  intros Hids Hd. unfold resolve_owner_names, payload_get.
  destruct (_parse_steam_ids steam_ids steam_ids_csv) as [|id0 rest];
    [congruence|].
  cbn [length Nat.eqb]. unfold bind at 1. rewrite _load_all_spec.
  unfold bind at 1.
  destruct (loaded (data_file w)) eqn:E; cbn [py_get]; unfold raise; eauto.
  exfalso. eapply Hd. reflexivity.
Qed.

(* ================================================================== *)
(** * Properties of the resolver *)
(* ================================================================== *)

(** A fetch brings no name exactly when the request or the XML parser
    raises, or the [steamID] text is missing or blank. *)
Lemma fetch_name_none (e : env) (steam_id : string) :
  fetch_name e steam_id = None
  <-> match on_get e (STEAM_PROFILE_XML_URL steam_id) with
      | XmlRoot steamID => strip (or_empty steamID) = ""
      | _ => True
      end.
Proof.
  unfold fetch_name. destruct (on_get e _); try tauto.
  cbn [if_truthy]. destruct (String.eqb _ _) eqn:E.
  - apply String.eqb_eq in E. tauto.
  - apply String.eqb_neq in E. split; [discriminate | contradiction].
Qed.


(** A forced refresh fetches every id. *)
Lemma filter_needs_fetch_forced (c : list (string * string)) (ids : list string) :
  filter (needs_fetch true c) ids = ids.
Proof.
  induction ids as [|id ids IH]; auto.
  cbn [filter]. change (needs_fetch true c id) with true. now rewrite IH.
Qed.

(** A resolved name is trimmed and not empty, whichever way it came. *)
Lemma resolution_some (e : env) (force_refresh : bool)
    (c : list (string * string)) (id name : string) :
  cache_ok c ->
  resolution e force_refresh c id = Some name ->
  name <> "" /\ trimmed name.
Proof.
  intros Hc. unfold resolution.
  destruct (cache_hit force_refresh c id) as [n|] eqn:E.
  - intros H. injection H as ->. unfold cache_hit in E.
    apply if_truthy_some in E. destruct E as [E _].
    destruct force_refresh; [discriminate|]. now apply (Hc id name).
  - apply fetch_name_some.
Qed.

Section ResolverProperties.

Variable json_loads : string -> option pyval.

(** C4. When no id is parsed, [resolve_owner_names] returns the text
    of the empty object and performs no effect at all: no file access,
    no fetch, nothing printed. *)
Theorem resolve_owner_names_empty e payload steam_ids steam_ids_csv
    force_refresh (w : world) :
  _parse_steam_ids (payload_get payload p_steam_ids steam_ids)
                   (payload_get payload p_steam_ids_csv steam_ids_csv) = [] ->
  resolve_owner_names json_loads e payload steam_ids steam_ids_csv force_refresh w
  = (Returns "{}", w).
Proof.
  intros Hnil. rewrite resolve_owner_names_payload.
  now apply resolve_owner_names_nil.
Qed.

(** X25. On a data file that is missing, unreadable or holds a JSON
    object: the ids processed are the trimmed, non-empty entries, each
    once, in first-seen order; the fetches are those of the ids the
    cache does not answer, in that order, so each of them is fetched
    exactly once and no other id is fetched; the keys of the result are
    the ids that resolved, in that order.  For ["1,1,2"] the ids are
    ["1"] and ["2"], and the result has exactly these two keys when both
    resolve. *)
Theorem resolve_owner_names_each_id_once e steam_ids steam_ids_csv
    force_refresh (d : list (string * pyval)) (w : world) :
  let ids := _parse_steam_ids steam_ids steam_ids_csv in
  let c0 := persisted_cache json_loads d in
  loaded (data_file w) = VDict d ->
  _parse_steam_ids VNone (VStr "1,1,2") = ["1"; "2"] /\
  ids = trimmed_unique (raw_entries steam_ids steam_ids_csv) /\
  NoDup ids /\
  exists r w' evs,
    resolve_owner_names json_loads e None steam_ids steam_ids_csv force_refresh w
    = (Returns (str_dict_text r), w') /\
    log w' = log w ++ evs /\
    dict_keys r
    = filter (fun id => is_some (resolution e force_refresh c0 id)) ids /\
    filter is_fetch evs
    = map (fun id => EvFetch (STEAM_PROFILE_XML_URL id))
          (filter (needs_fetch force_refresh c0) ids) /\
    (forall id, In id ids ->
       fetch_count id evs = match cache_hit force_refresh c0 id with
                            | Some _ => 0
                            | None => 1
                            end) /\
    (forall id, ~ In id ids -> fetch_count id evs = 0) /\
    (ids = ["1"; "2"] ->
     forall name1 name2,
       resolution e force_refresh c0 "1" = Some name1 ->
       resolution e force_refresh c0 "2" = Some name2 ->
       r = [("1", name1); ("2", name2)]).
Proof.
  intros ids c0 Hd.
  split; [reflexivity|].
  split; [apply _parse_steam_ids_refines|].
  split; [apply _parse_steam_ids_NoDup|].
  destruct (resolve_owner_names_summary json_loads e steam_ids steam_ids_csv
              force_refresh d w Hd)
    as (r & c' & w' & evs & Hrun & Hlog & Hr & Hseq & _ & Hin & Hout & _).
  exists r, w', evs.
  split; [exact Hrun|]. split; [exact Hlog|].
  split; [subst r; apply resolved_keys|].
  split; [exact Hseq|].
  split; [|split; [exact Hout|]].
  - intros id Hid. rewrite (Hin id Hid). unfold needs_fetch.
    destruct (cache_hit force_refresh _ id); reflexivity.
  - intros Hids name1 name2 H1 H2. subst r. fold ids. rewrite Hids.
    cbn [flat_map]. unfold resolved_item. fold c0. now rewrite H1, H2.
Qed.

(** C6. Without a forced refresh, an id asked for that the normalized
    persisted cache holds appears in the result with its cached name,
    and its profile is not fetched. *)
Theorem resolve_owner_names_uses_cache e steam_ids steam_ids_csv
    (d : list (string * pyval)) (w : world) (id name : string) :
  loaded (data_file w) = VDict d ->
  In id (_parse_steam_ids steam_ids steam_ids_csv) ->
  dict_get (persisted_cache json_loads d) id = Some name ->
  exists r w' evs,
    resolve_owner_names json_loads e None steam_ids steam_ids_csv false w
    = (Returns (str_dict_text r), w') /\
    log w' = log w ++ evs /\
    dict_get r id = Some name /\
    ~ In (EvFetch (STEAM_PROFILE_XML_URL id)) evs.
Proof.
  intros Hd Hid Hcached.
  destruct (resolve_owner_names_summary json_loads e steam_ids steam_ids_csv
              false d w Hd)
    as (r & c' & w' & evs & Hrun & Hlog & Hr & Hseq & _ & Hin & _).
  pose proof (cache_hit_some _ id name (persisted_cache_ok json_loads d) Hcached)
    as Hhit.
  exists r, w', evs.
  split; [exact Hrun|]. split; [exact Hlog|]. split.
  - subst r. rewrite resolved_get_in by assumption.
    unfold resolution. now rewrite Hhit.
  - apply fetch_count_zero. rewrite (Hin id Hid).
    unfold needs_fetch. now rewrite Hhit.
Qed.

(** X26. On a data file that is missing, unreadable or holds a JSON
    object, with a forced refresh every parsed id is fetched, exactly
    once and in the order parsed, whether the cache holds it or not, and
    the result gives an id the name its fetch brought, never the cached
    one. *)
Theorem resolve_owner_names_force_refresh e steam_ids steam_ids_csv
    (d : list (string * pyval)) (w : world) :
  loaded (data_file w) = VDict d ->
  exists r w' evs,
    resolve_owner_names json_loads e None steam_ids steam_ids_csv true w
    = (Returns (str_dict_text r), w') /\
    log w' = log w ++ evs /\
    filter is_fetch evs
    = map (fun id => EvFetch (STEAM_PROFILE_XML_URL id))
          (_parse_steam_ids steam_ids steam_ids_csv) /\
    forall id, In id (_parse_steam_ids steam_ids steam_ids_csv) ->
      fetch_count id evs = 1 /\ dict_get r id = fetch_name e id.
Proof.
  intros Hd.
  destruct (resolve_owner_names_summary json_loads e steam_ids steam_ids_csv
              true d w Hd)
    as (r & c' & w' & evs & Hrun & Hlog & Hr & Hseq & _ & Hin & _).
  exists r, w', evs.
  split; [exact Hrun|]. split; [exact Hlog|]. split.
  - rewrite Hseq. now rewrite filter_needs_fetch_forced.
  - intros id Hid. split.
    + now rewrite (Hin id Hid).
    + subst r. now rewrite resolved_get_in by assumption.
Qed.

(** C8. Whatever the data file holds: when the call returns, the mapping
    it returns holds exactly the parsed ids that resolved, each with its
    name, which is trimmed and not empty.  An id whose fetch brought no
    name is absent from that mapping; every document the call writes
    carries a cache that holds for it what the cache held before; and
    the cache read from the file after the call holds no name for it
    that the cache did not hold before.  [c0] is the cache the call
    reads. *)
Theorem resolve_owner_names_only_resolved e steam_ids steam_ids_csv
    force_refresh (w : world) :
  let ids := _parse_steam_ids steam_ids steam_ids_csv in
  let c0 := file_cache json_loads (data_file w) in
  exists out w' evs,
    resolve_owner_names json_loads e None steam_ids steam_ids_csv force_refresh w
    = (out, w') /\
    log w' = log w ++ evs /\
    (forall text, out = Returns text ->
       exists r,
         text = str_dict_text r /\
         (forall id name,
            dict_get r id = Some name
            <-> In id ids /\ resolution e force_refresh c0 id = Some name) /\
         (forall id name, dict_get r id = Some name -> name <> "" /\ trimmed name)) /\
    (forall id,
       In id ids ->
       cache_hit force_refresh c0 id = None ->
       fetch_name e id = None ->
       (forall r, out = Returns (str_dict_text r) -> dict_get r id = None) /\
       (forall data, In (EvWrite data) evs ->
          exists d c',
            loaded (data_file w) = VDict d /\
            data = with_cache d c' /\ dict_get c' id = dict_get c0 id) /\
       (reads_back json_loads ->
        forall name,
          dict_get (file_cache json_loads (data_file w')) id = Some name ->
          dict_get c0 id = Some name)).
Proof.
  intros ids c0.
  destruct (loaded_dict_dec (data_file w)) as [[d Hd]|Hbad].
  - assert (Hc0 : c0 = persisted_cache json_loads d)
      by now apply file_cache_dict.
    rewrite (resolve_owner_names_run json_loads e force_refresh _ _ d w Hd).
    fold ids. rewrite <- Hc0.
    pose proof (_parse_steam_ids_NoDup steam_ids steam_ids_csv) as Hnd.
    fold ids in Hnd.
    assert (Hok : cache_ok c0) by (rewrite Hc0; apply persisted_cache_ok).
    eexists _, _, (call_events e force_refresh d c0 ids (data_file w)).
    split; [reflexivity|]. split; [apply world_after_log|]. split.
    + intros text Htext. injection Htext as <-.
      exists (resolved e force_refresh c0 ids).
      split; [reflexivity|]. split; [intros; apply resolved_get|].
      intros id name H. apply resolved_get in H. destruct H as [_ H].
      eapply resolution_some; eauto.
    + intros id Hid Hmiss Hfail.
      assert (Hkeep : dict_get (final_cache e force_refresh c0 ids) id
                      = dict_get c0 id).
      { rewrite final_cache_inside by assumption.
        unfold fetched. now rewrite Hmiss, Hfail. }
      split; [|split].
      * intros r Hr.
        assert (Hr' : str_dict_text (resolved e force_refresh c0 ids)
                      = str_dict_text r) by congruence.
        apply str_dict_text_inj in Hr'. subst r. unfold resolved. rewrite resolved_get_in by assumption.
        unfold resolution. now rewrite Hmiss.
      * intros data Hdata. exists d, (final_cache e force_refresh c0 ids).
        split; [assumption|]. split; [|exact Hkeep].
        unfold call_events in Hdata.
        destruct ids as [|id0 rest] eqn:Eids; [destruct Hdata|].
        rewrite <- Eids in *.
        apply in_app_or in Hdata. destruct Hdata as [Hdata|Hdata].
        { apply load_events_kind in Hdata. destruct Hdata. discriminate. }
        apply in_app_or in Hdata. destruct Hdata as [Hdata|Hdata].
        { apply fetch_events_kind in Hdata. discriminate. }
        unfold write_back in Hdata.
        destruct (any_fetched e force_refresh c0 ids); [|destruct Hdata].
        cbn [snd] in Hdata. apply write_effect_events in Hdata.
        now apply Hdata.
      * intros Hback name. rewrite world_after_file.
        destruct (write_back_file e force_refresh d c0 ids (data_file w))
          as [H|[H|H]]; rewrite H.
        -- fold c0. auto.
        -- discriminate.
        -- unfold file_cache, with_cache. cbn [loaded].
           rewrite persisted_cache_with_cache; auto.
           ++ now rewrite Hkeep.
           ++ apply final_cache_wf.
              ** rewrite Hc0. apply _normalize_owner_name_cache_wf.
              ** apply _parse_steam_ids_trimmed.
  - destruct ids as [|id0 rest] eqn:Eids.
    + rewrite (resolve_owner_names_nil json_loads e _ _ _ w Eids).
      exists (Returns "{}"), w, []. split; [reflexivity|].
      split; [now rewrite app_nil_r|]. split; [|intros id []].
      intros text Htext. injection Htext as <-. exists [].
      split; [reflexivity|]. split.
      * intros id name. split; [discriminate | intros [[] _]].
      * discriminate.
    + destruct (resolve_owner_names_not_dict json_loads e steam_ids
                  steam_ids_csv force_refresh w) as [ex Hex];
        [unfold ids in Eids; rewrite Eids; discriminate | assumption |].
      rewrite Hex. eexists _, _, _. split; [reflexivity|].
      split; [reflexivity|]. split; [discriminate|].
      intros id Hid Hmiss Hfail. split; [discriminate|]. split.
      * intros data Hdata. apply load_events_kind in Hdata.
        destruct Hdata. discriminate.
      * intros _ name. cbn [data_file]. fold c0. auto.
Qed.



End ResolverProperties.

(* ================================================================== *)
(** * Exceptions *)
(* ================================================================== *)

(** On a data file that is absent, unreadable or holds a JSON object,
    the three entry points return, whatever the arguments, the fate of
    the write and the answers of the network. *)
Lemma entry_points_return_on_object_file (json_loads : string -> option pyval)
    (e : env) (d : list (string * pyval)) (w : world) :
  loaded (data_file w) = VDict d ->
  (forall payload key,
      exists v, fst (storage_get payload key w) = Returns v) /\
  (forall payload key value,
      exists b, fst (storage_set e payload key value w) = Returns b) /\
  (forall payload steam_ids steam_ids_csv force_refresh,
      exists text,
        fst (resolve_owner_names json_loads e payload steam_ids steam_ids_csv
               force_refresh w) = Returns text).
Proof.
  intros Hd. split; [|split].
  - intros payload key. rewrite storage_get_payload.
    destruct (payload_get payload p_key key) as [k|]; [|now exists VNone].
    rewrite storage_get_spec, Hd. cbn [py_get ret fst]. eauto.
  - intros payload key value. rewrite storage_set_payload.
    destruct (payload_get payload p_key key) as [k|]; [|now exists false].
    destruct (payload_get payload p_value value) as [| | | | | | |] eqn:Ev;
      try (now exists false);
      match goal with
      | |- context [storage_set e None (Some k) ?v w] =>
          destruct (stored_text v) as [txt|] eqn:Hs;
          [ rewrite (storage_set_spec e k v txt d w) by (discriminate || assumption)
          | rewrite (storage_set_unserializable e k v w) by (discriminate || assumption) ]
      end; cbn [fst]; eauto.
  - intros payload steam_ids steam_ids_csv force_refresh.
    rewrite resolve_owner_names_payload.
    destruct (resolve_owner_names_summary json_loads e
                (payload_get payload p_steam_ids steam_ids)
                (payload_get payload p_steam_ids_csv steam_ids_csv)
                (match payload with
                 | Some _ => py_bool (payload_get payload p_force_refresh
                                        (VBool force_refresh))
                 | None => force_refresh
                 end) d w Hd)
      as (r & _ & w' & _ & Hrun & _).
    rewrite Hrun. cbn [fst]. eauto.
Qed.

(** C9. A data file that holds JSON other than an object is not treated
    as an empty document: [_load_all] returns the list, and the three
    entry points raise to their caller.  The cache normalizer, on its
    side, does check that what it parsed is a dict. *)
Theorem entry_points_raise_on_non_object_file :
  let w := mkWorld (FileJson (VList [])) [] in
  fst (_load_all w) = Returns (VList []) /\
  fst (storage_get None (Some "k") w)
  = Raises (AttributeError "'list' object has no attribute 'get'") /\
  fst (storage_set sample_env None (Some "k") (VStr "v") w)
  = Raises (TypeError "list indices must be integers or slices, not str") /\
  (forall json_loads,
      fst (resolve_owner_names json_loads sample_env None VNone (VStr "1") false w)
      = Raises (AttributeError "'list' object has no attribute 'get'")) /\
  (forall json_loads, _normalize_owner_name_cache json_loads (VList []) = []).
Proof. repeat split. Qed.

(** C5. On a data file that holds the JSON text [[]], the call for
    ["1,1,2"] parses the ids ["1"] and ["2"], whose profiles are served,
    and raises at [data.get] before the first of them is looked at:
    neither is resolved, no profile is requested and no result is
    returned.  The defect is that of C9. *)
Theorem resolve_owner_names_resolves_nothing_on_non_object_file :
  forall json_loads,
    let w := mkWorld (FileJson (VList [])) [] in
    let run := resolve_owner_names json_loads sample_env None VNone
                 (VStr "1,1,2") false w in
    _parse_steam_ids VNone (VStr "1,1,2") = ["1"; "2"] /\
    fetch_name sample_env "1" = Some "Alice" /\
    fetch_name sample_env "2" = Some "Bob" /\
    fst run = Raises (AttributeError "'list' object has no attribute 'get'") /\
    snd run = mkWorld (FileJson (VList [])) [EvExists; EvRead] /\
    fetch_count "1" (log (snd run)) = 0 /\
    fetch_count "2" (log (snd run)) = 0.
Proof. intros json_loads. cbv zeta. repeat split. Qed.

(** C7. On the same data file, the call for ["7, 1"] with a forced
    refresh parses the ids ["7"] and ["1"] and raises at [data.get]
    before any request is made: no parsed id is fetched.  The defect is
    that of C9. *)
Theorem resolve_owner_names_forced_fetches_nothing_on_non_object_file :
  forall json_loads,
    let w := mkWorld (FileJson (VList [])) [] in
    let run := resolve_owner_names json_loads sample_env None VNone
                 (VStr "7, 1") true w in
    _parse_steam_ids VNone (VStr "7, 1") = ["7"; "1"] /\
    fst run = Raises (AttributeError "'list' object has no attribute 'get'") /\
    snd run = mkWorld (FileJson (VList [])) [EvExists; EvRead] /\
    filter is_fetch (log (snd run)) = [] /\
    fetch_count "7" (log (snd run)) = 0 /\
    fetch_count "1" (log (snd run)) = 0.
Proof. intros json_loads. cbv zeta. repeat split. Qed.

(* ================================================================== *)
(** * The properties at sample inputs *)
(* ================================================================== *)

Lemma resolve_owner_names_empty_witness :
  _parse_steam_ids (payload_get None p_steam_ids VNone)
                   (payload_get None p_steam_ids_csv (VStr " , ,")) = [] /\
  resolve_owner_names json_loads_str_dict sample_env None VNone (VStr " , ,") false
    cached_world
  = (Returns "{}", cached_world).
Proof.
  split; [reflexivity|].
  apply (resolve_owner_names_empty json_loads_str_dict sample_env None VNone
           (VStr " , ,") false cached_world).
  reflexivity.
Defined.

Lemma resolve_owner_names_each_id_once_witness :
  loaded (data_file cached_world) = VDict cached_doc /\
  exists r w' evs,
    resolve_owner_names json_loads_str_dict sample_env None VNone (VStr "1,1,2")
      false cached_world
    = (Returns (str_dict_text r), w') /\
    dict_keys r = ["1"; "2"] /\
    fetch_count "1" evs = 1 /\
    fetch_count "2" evs = 1.
Proof.
  split; [reflexivity|].
  destruct (resolve_owner_names_each_id_once json_loads_str_dict sample_env
              VNone (VStr "1,1,2") false cached_doc cached_world eq_refl)
    as (_ & _ & _ & r & w' & evs & Hrun & _ & Hkeys & _ & Hin & _).
  exists r, w', evs.
  split; [exact Hrun|]. split; [exact Hkeys|].
  split; [apply (Hin "1") | apply (Hin "2")]; simpl; auto.
Defined.

Lemma resolve_owner_names_uses_cache_witness :
  loaded (data_file cached_world) = VDict cached_doc /\
  In "7" (_parse_steam_ids VNone (VStr "7, 1")) /\
  dict_get (persisted_cache json_loads_str_dict cached_doc) "7" = Some "Carol" /\
  exists r w' evs,
    resolve_owner_names json_loads_str_dict sample_env None VNone (VStr "7, 1")
      false cached_world
    = (Returns (str_dict_text r), w') /\
    log w' = log cached_world ++ evs /\
    dict_get r "7" = Some "Carol" /\
    ~ In (EvFetch (STEAM_PROFILE_XML_URL "7")) evs.
Proof.
  split; [reflexivity|]. split; [simpl; auto|]. split; [reflexivity|].
  apply (resolve_owner_names_uses_cache json_loads_str_dict sample_env
           VNone (VStr "7, 1") cached_doc cached_world "7" "Carol");
    [reflexivity | simpl; auto | reflexivity].
Defined.

Lemma resolve_owner_names_force_refresh_witness :
  loaded (data_file cached_world) = VDict cached_doc /\
  exists r w' evs,
    resolve_owner_names json_loads_str_dict sample_env None VNone (VStr "7, 1")
      true cached_world
    = (Returns (str_dict_text r), w') /\
    log w' = log cached_world ++ evs /\
    filter is_fetch evs
    = map (fun id => EvFetch (STEAM_PROFILE_XML_URL id))
          (_parse_steam_ids VNone (VStr "7, 1")) /\
    forall id, In id (_parse_steam_ids VNone (VStr "7, 1")) ->
      fetch_count id evs = 1 /\ dict_get r id = fetch_name sample_env id.
Proof.
  split; [reflexivity|].
  apply (resolve_owner_names_force_refresh json_loads_str_dict sample_env
           VNone (VStr "7, 1") cached_doc cached_world).
  reflexivity.
Defined.

Lemma resolve_owner_names_only_resolved_witness :
  exists r w',
    resolve_owner_names json_loads_str_dict sample_env None VNone (VStr "7,1,3,4")
      false cached_world
    = (Returns (str_dict_text r), w') /\
    dict_get r "7" = Some "Carol" /\
    dict_get r "1" = Some "Alice" /\
    dict_get r "3" = None /\
    dict_get r "4" = None.
Proof.
  destruct (resolve_owner_names_only_resolved json_loads_str_dict sample_env
              VNone (VStr "7,1,3,4") false cached_world)
    as (out & w' & evs & Hrun & _ & Hret & Hfail).
  assert (Hout : out = Returns (str_dict_text [("7", "Carol"); ("1", "Alice")])).
  { assert (H : fst (resolve_owner_names json_loads_str_dict sample_env None
                       VNone (VStr "7,1,3,4") false cached_world)
                = Returns (str_dict_text [("7", "Carol"); ("1", "Alice")]))
      by reflexivity.
    rewrite Hrun in H. exact H. }
  destruct (Hret _ Hout) as (r & Hr & Hget & _).
  exists r, w'. split; [rewrite Hrun, Hout, Hr; reflexivity|].
  split; [|split; [|split]].
  - apply Hget. split; [simpl; auto | reflexivity].
  - apply Hget. split; [simpl; auto | reflexivity].
  - apply (Hfail "3"); [simpl; auto | reflexivity | reflexivity |].
    now rewrite Hout, Hr.
  - apply (Hfail "4"); [simpl; auto | reflexivity | reflexivity |].
    now rewrite Hout, Hr.
Defined.


(** The same call, computed: the name of ["1"] is fetched and cached,
    the failed refresh of ["7"] keeps ["Carol"] in the cache written
    back, and the other setting of the document is untouched. *)
Example resolve_owner_names_forced_run :
  resolve_owner_names json_loads_str_dict sample_env None VNone (VStr "7, 1") true
    cached_world
  = (Returns (str_dict_text [("1", "Alice")]),
     mkWorld
       (FileJson (VDict [("theme", VStr "dark");
                         (OWNER_NAME_CACHE_KEY,
                          VStr (str_dict_text [("7", "Carol"); ("1", "Alice")]))]))
       [EvExists; EvRead;
        EvFetch (STEAM_PROFILE_XML_URL "7");
        EvFetch (STEAM_PROFILE_XML_URL "1");
        EvMakedirs;
        EvWrite (VDict [("theme", VStr "dark");
                        (OWNER_NAME_CACHE_KEY,
                         VStr (str_dict_text [("7", "Carol"); ("1", "Alice")]))])]).
Proof. reflexivity. Qed.

(* ================================================================== *)
(** * Further properties: parsing the ids *)
(* ================================================================== *)

Lemma raw_entries_strs (l : list string) (steam_ids_csv : pyval) :
  raw_entries (VList (map VStr l)) steam_ids_csv = l.
Proof.
  unfold raw_entries. induction l as [|x l IH]; simpl; congruence.
Qed.

Lemma filter_all {A} (P : A -> bool) (l : list A) :
  (forall x, In x l -> P x = true) -> filter P l = l.
Proof.
  induction l as [|x l IH]; intros H; simpl; auto.
  rewrite (H x) by now left. f_equal. apply IH. intros; apply H; now right.
Qed.

(** A list without repetition is its own deduplication. *)
Lemma first_seen_fixed (l : list string) : NoDup l -> first_seen l = l.
Proof.
  induction 1 as [|x l Hx Hnd IH]; simpl; auto.
  rewrite IH. f_equal. apply filter_all. intros y Hy.
  apply negb_true_iff, String.eqb_neq. intros ->. contradiction.
Qed.

Lemma trimmed_unique_fixed (l : list string) :
  NoDup l ->
  (forall x, In x l -> x <> "" /\ trimmed x) ->
  trimmed_unique l = l.
Proof.
  intros Hnd Hall. unfold trimmed_unique.
  assert (Hmap : map strip l = l).
  { rewrite <- (map_id l) at 2. apply map_ext_in.
    intros x Hx. now apply Hall. }
  rewrite Hmap, filter_all.
  - now apply first_seen_fixed.
  - intros x Hx. apply negb_true_iff, String.eqb_neq. now apply Hall.
Qed.

(** X1. Parsing is idempotent: the ids [_parse_steam_ids] returns,
    handed back to it as a list, come out unchanged, whatever the second
    argument is. *)
Theorem _parse_steam_ids_idempotent (steam_ids steam_ids_csv other : pyval) :
  _parse_steam_ids
    (VList (map VStr (_parse_steam_ids steam_ids steam_ids_csv))) other
  = _parse_steam_ids steam_ids steam_ids_csv.
Proof.
  rewrite (_parse_steam_ids_refines (VList _)), raw_entries_strs.
  apply trimmed_unique_fixed.
  - apply _parse_steam_ids_NoDup.
  - apply _parse_steam_ids_trimmed.
Qed.

(** X2. The two ways to hand in ids agree: a comma-separated string
    parses to the same ids as the list of its pieces, and once a list is
    given the string is not looked at. *)
Theorem _parse_steam_ids_csv_as_list (csv : string) (other : pyval) :
  _parse_steam_ids (VList (map VStr (split_comma csv))) other
  = _parse_steam_ids VNone (VStr csv).
Proof.
  rewrite !_parse_steam_ids_refines, raw_entries_strs.
  reflexivity.
Qed.

(* ================================================================== *)
(** * Further properties: the data file *)
(* ================================================================== *)

(** X3. [_load_all] never raises and never changes the data file: it
    returns the document of a readable file and the empty dict for a
    missing or unreadable one, and a missing file is not even opened. *)
Theorem _load_all_never_raises (w : world) :
  exists v evs,
    _load_all w = (Returns v, mkWorld (data_file w) (log w ++ evs)) /\
    (forall ev, In ev evs -> ev = EvExists \/ ev = EvRead) /\
    match data_file w with
    | FileMissing => v = VDict [] /\ ~ In EvRead evs
    | FileUnreadable _ => v = VDict []
    | FileJson doc => v = doc
    end.
Proof.
  exists (loaded (data_file w)), (load_events (data_file w)).
  split; [apply _load_all_spec|]. split.
  - intros ev Hin. destruct (data_file w); simpl in Hin; intuition.
  - destruct (data_file w); simpl; auto.
    split; [reflexivity|]. intros [H|[]]. discriminate.
Qed.


(* ================================================================== *)
(** * Further properties: the storage shim *)
(* ================================================================== *)

(** X5. [storage_get] only reads: whatever it is given, and even when it
    raises, the data file is left as it was and the only effects are the
    existence test and the read; without a key it does nothing at all. *)
Theorem storage_get_read_only (payload : option payload_dict)
    (key : option string) (w : world) :
  exists evs,
    snd (storage_get payload key w) = mkWorld (data_file w) (log w ++ evs) /\
    (forall ev, In ev evs -> ev = EvExists \/ ev = EvRead) /\
    (payload_get payload p_key key = None ->
     storage_get payload key w = (Returns VNone, w)).
Proof.
  rewrite storage_get_payload.
  destruct (payload_get payload p_key key) as [k|].
  - exists (load_events (data_file w)). rewrite storage_get_spec.
    split; [|split].
    + destruct (loaded (data_file w)); reflexivity.
    + intros ev Hin. destruct (data_file w); simpl in Hin; intuition.
    + discriminate.
  - exists []. rewrite app_nil_r. destruct w. repeat split. intros ev [].
Qed.

(** X6. [storage_get] returns [None] in exactly three cases: no key was
    given, the document lacks the key (a missing or unreadable file
    lacks every key), or the document holds [null] under it. *)
Theorem storage_get_none_iff (payload : option payload_dict)
    (key : option string) (w : world) :
  fst (storage_get payload key w) = Returns VNone
  <-> match payload_get payload p_key key with
      | None => True
      | Some k =>
          exists d, loaded (data_file w) = VDict d /\
                    (dict_get d k = None \/ dict_get d k = Some VNone)
      end.
Proof.
  rewrite storage_get_payload.
  destruct (payload_get payload p_key key) as [k|]; [|now split].
  rewrite storage_get_spec.
  destruct (loaded (data_file w)) as [| | | | | |d|] eqn:E; cbn [py_get];
    try (split; [discriminate | intros (d' & Hd & _); discriminate]).
  unfold ret. cbn [fst]. split.
  - intros H. exists d. split; [reflexivity|].
    destruct (dict_get d k) as [v|]; [right | now left]. congruence.
  - intros (d' & Hd & [H|H]); injection Hd as <-; now rewrite H.
Qed.

(** What a successful [storage_set] has done. *)
Lemma storage_set_true (e : env) (k : string) (v : pyval) (w w1 : world) :
  storage_set e None (Some k) v w = (Returns true, w1) ->
  exists s d,
    v <> VNone /\
    stored_text v = Some s /\
    loaded (data_file w) = VDict d /\
    write_succeeds e (VDict (dict_set d k (VStr s))) = true /\
    w1 = mkWorld (FileJson (VDict (dict_set d k (VStr s))))
           (log w ++ load_events (data_file w)
            ++ [EvMakedirs; EvWrite (VDict (dict_set d k (VStr s)))]).
Proof.
  intros Hset.
  assert (Hv : v <> VNone).
  { intros ->. cbn in Hset. discriminate. }
  destruct (stored_text v) as [s|] eqn:Hs.
  2: { rewrite storage_set_unserializable in Hset by assumption. discriminate. }
  destruct (loaded_dict_dec (data_file w)) as [[d Hd]|Hd].
  2: { destruct (storage_set_not_dict e k v s w Hv Hs Hd) as [msg Hr].
       rewrite Hset in Hr. discriminate. }
  rewrite (storage_set_spec e k v s d w Hv Hs Hd) in Hset.
  injection Hset as Hok Hw1.
  rewrite write_effect_returns in Hok.
  exists s, d. do 4 (split; [assumption || reflexivity|]).
  rewrite <- Hw1. unfold write_effect, write_succeeds in *.
  destruct (on_write e); try discriminate.
  destruct (json_dumps _); [reflexivity | discriminate].
Qed.

(** X7. [storage_set] returns [True] exactly when a key is given, the
    value is not [None] and is a [str] or has a JSON text, the data file
    is missing, unreadable or holds a JSON object, and the write of the
    merged document goes through. *)
Theorem storage_set_true_iff (e : env) (payload : option payload_dict)
    (key : option string) (value : pyval) (w : world) :
  fst (storage_set e payload key value w) = Returns true
  <-> exists k s d,
        payload_get payload p_key key = Some k /\
        payload_get payload p_value value <> VNone /\
        stored_text (payload_get payload p_value value) = Some s /\
        loaded (data_file w) = VDict d /\
        write_succeeds e (VDict (dict_set d k (VStr s))) = true.
Proof.
  rewrite storage_set_payload.
  set (v := payload_get payload p_value value).
  destruct (payload_get payload p_key key) as [k|].
  2: { split; [discriminate | intros (k & s & d & H & _); discriminate]. }
  split.
  - intros H.
    destruct (storage_set e None (Some k) v w) as [o w1] eqn:Hset.
    cbn [fst] in H. subst o.
    apply storage_set_true in Hset.
    destruct Hset as (s & d & Hv & Hs & Hd & Hok & _).
    exists k, s, d. auto.
  - intros (k' & s & d & Hk & Hv & Hs & Hd & Hok). injection Hk as <-.
    rewrite (storage_set_spec e k v s d w Hv Hs Hd).
    cbn [fst]. now rewrite write_effect_returns, Hok.
Qed.

(** X8. Two successful [storage_set] calls in a row: the later value
    wins under its key, the earlier one stays under a different key, and
    every other key reads as before the two calls. *)
Theorem storage_set_twice (e1 e2 : env) (k1 k2 : string) (v1 v2 : pyval)
    (w w1 w2 : world) :
  storage_set e1 None (Some k1) v1 w = (Returns true, w1) ->
  storage_set e2 None (Some k2) v2 w1 = (Returns true, w2) ->
  exists s1 s2,
    stored_text v1 = Some s1 /\
    stored_text v2 = Some s2 /\
    fst (storage_get None (Some k2) w2) = Returns (VStr s2) /\
    fst (storage_get None (Some k1) w2)
    = Returns (VStr (if String.eqb k1 k2 then s2 else s1)) /\
    forall k, k <> k1 -> k <> k2 ->
      fst (storage_get None (Some k) w2) = fst (storage_get None (Some k) w).
Proof.
  intros H1 H2.
  apply storage_set_true in H1. destruct H1 as (s1 & d & _ & Hs1 & Hd & _ & ->).
  apply storage_set_true in H2. destruct H2 as (s2 & d1 & _ & Hs2 & Hd1 & _ & ->).
  cbn [data_file loaded] in Hd1. injection Hd1 as <-.
  exists s1, s2. split; [assumption|]. split; [assumption|].
  rewrite !storage_get_spec. cbn [data_file loaded py_get]. unfold ret.
  cbn [fst].
  split; [now rewrite dict_get_set_same|]. split.
  - destruct (String.eqb k1 k2) eqn:E.
    + apply String.eqb_eq in E. subst k2. now rewrite dict_get_set_same.
    + apply String.eqb_neq in E.
      rewrite dict_get_set_other by assumption.
      now rewrite dict_get_set_same.
  - intros k Hk1 Hk2. rewrite !storage_get_spec, Hd.
    cbn [data_file loaded py_get]. unfold ret. cbn [fst].
    now rewrite !dict_get_set_other by assumption.
Qed.

Lemma storage_set_twice_witness :
  exists w1 w2,
    storage_set sample_env None (Some "a") (VInt 1) empty_world
    = (Returns true, w1) /\
    storage_set sample_env None (Some "a") (VStr "two") w1 = (Returns true, w2) /\
    fst (storage_get None (Some "a") w2) = Returns (VStr "two").
Proof.
  eexists _, _. split; [reflexivity|]. split; [reflexivity|].
  destruct (storage_set_twice sample_env sample_env "a" "a" (VInt 1) (VStr "two")
              empty_world _ _ eq_refl eq_refl)
    as (s1 & s2 & _ & Hs2 & Hget & _).
  injection Hs2 as <-. exact Hget.
Defined.

(** X9. A successful [storage_set] on a data file that is missing or
    unreadable leaves a document with the one key: whatever the
    unreadable file held is gone. *)
Theorem storage_set_replaces_unreadable (e : env) (k : string) (v : pyval)
    (w w1 : world) :
  (forall doc, data_file w <> FileJson doc) ->
  storage_set e None (Some k) v w = (Returns true, w1) ->
  exists s,
    stored_text v = Some s /\
    data_file w1 = FileJson (VDict [(k, VStr s)]).
Proof.
  intros Hf Hset.
  apply storage_set_true in Hset.
  destruct Hset as (s & d & _ & Hs & Hd & _ & ->).
  exists s. split; [assumption|].
  destruct (data_file w) as [| |doc]; cbn [loaded] in Hd.
  - injection Hd as <-. reflexivity.
  - injection Hd as <-. reflexivity.
  - exfalso. now apply (Hf doc).
Qed.

Lemma storage_set_replaces_unreadable_witness :
  let w := mkWorld (FileUnreadable JSONDecodeError) [] in
  (forall doc, data_file w <> FileJson doc) /\
  exists w1,
    storage_set sample_env None (Some "k") (VBool true) w = (Returns true, w1) /\
    data_file w1 = FileJson (VDict [("k", VStr "true")]).
Proof.
  cbv zeta. split; [discriminate|].
  eexists. split; [reflexivity|].
  destruct (storage_set_replaces_unreadable sample_env "k" (VBool true)
              (mkWorld (FileUnreadable JSONDecodeError) []) _
              ltac:(discriminate) eq_refl)
    as (s & Hs & Hfile).
  injection Hs as <-. exact Hfile.
Defined.

(** X10. A dict of strings survives the store as its JSON text: after a
    successful [storage_set] of it, [storage_get] returns a [str], not
    the dict, and reading that text gives the items of the dict back, in
    order. *)
Theorem storage_set_then_get_str_dict (e : env) (k : string)
    (c : list (string * string)) (w w1 : world) :
  storage_set e None (Some k) (str_dict c) w = (Returns true, w1) ->
  exists text,
    fst (storage_get None (Some k) w1) = Returns (VStr text) /\
    read_str_items text = Some c /\
    (NoDup (dict_keys c) -> json_loads_str_dict text = Some (str_dict c)).
Proof.
  intros Hset.
  apply storage_set_true in Hset.
  destruct Hset as (s & d & _ & Hs & _ & _ & ->).
  unfold stored_text, str_dict in Hs. fold (str_dict c) in Hs.
  rewrite json_dumps_str_dict in Hs. injection Hs as <-.
  exists (str_dict_text c).
  rewrite storage_get_spec. cbn [data_file loaded py_get ret fst].
  rewrite dict_get_set_same.
  split; [reflexivity|]. split; [apply read_str_items_text|].
  apply json_loads_str_dict_reads_back.
Qed.

Lemma storage_set_then_get_str_dict_witness :
  exists w1 text,
    storage_set sample_env None (Some "names") (str_dict [("7", "Carol")])
      empty_world = (Returns true, w1) /\
    fst (storage_get None (Some "names") w1) = Returns (VStr text) /\
    read_str_items text = Some [("7", "Carol")].
Proof.
  eexists.
  destruct (storage_set_then_get_str_dict sample_env "names" [("7", "Carol")]
              empty_world _ eq_refl)
    as (text & Hget & Hread & _).
  exists text. split; [reflexivity|]. split; [exact Hget | exact Hread].
Defined.

(** X11. A successful [storage_set] under a key other than the cache key
    leaves the owner-name cache as it was: the next
    [resolve_owner_names] returns what it would have returned before. *)
Theorem storage_set_keeps_owner_names (json_loads : string -> option pyval)
    (e : env) (k : string) (v : pyval) (w w1 : world) :
  k <> OWNER_NAME_CACHE_KEY ->
  storage_set e None (Some k) v w = (Returns true, w1) ->
  exists d d1,
    loaded (data_file w) = VDict d /\
    data_file w1 = FileJson (VDict d1) /\
    persisted_cache json_loads d1 = persisted_cache json_loads d /\
    forall e' steam_ids steam_ids_csv force_refresh,
      fst (resolve_owner_names json_loads e' None steam_ids steam_ids_csv
             force_refresh w1)
      = fst (resolve_owner_names json_loads e' None steam_ids steam_ids_csv
               force_refresh w).
Proof.
  intros Hk Hset.
  apply storage_set_true in Hset.
  destruct Hset as (s & d & _ & _ & Hd & _ & ->).
  exists d, (dict_set d k (VStr s)).
  assert (Hc : persisted_cache json_loads (dict_set d k (VStr s))
               = persisted_cache json_loads d).
  { unfold persisted_cache. rewrite dict_get_set_other; auto. }
  split; [assumption|]. split; [reflexivity|]. split; [exact Hc|].
  intros e' steam_ids steam_ids_csv force_refresh.
  destruct (resolve_owner_names_summary json_loads e' steam_ids steam_ids_csv
              force_refresh (dict_set d k (VStr s))
              (mkWorld (FileJson (VDict (dict_set d k (VStr s))))
                 (log w ++ load_events (data_file w)
                  ++ [EvMakedirs; EvWrite (VDict (dict_set d k (VStr s)))]))
              eq_refl)
    as (r1 & _ & w1' & _ & Hrun1 & _ & Hr1 & _).
  destruct (resolve_owner_names_summary json_loads e' steam_ids steam_ids_csv
              force_refresh d w Hd)
    as (r & _ & w' & _ & Hrun & _ & Hr & _).
  rewrite Hrun1, Hrun. cbn [fst]. rewrite Hr1, Hr, Hc. reflexivity.
Qed.

Lemma storage_set_keeps_owner_names_witness :
  "theme" <> OWNER_NAME_CACHE_KEY /\
  exists w1 d1,
    storage_set sample_env None (Some "theme") (VStr "light") cached_world
    = (Returns true, w1) /\
    data_file w1 = FileJson (VDict d1) /\
    persisted_cache json_loads_str_dict d1
    = persisted_cache json_loads_str_dict cached_doc.
Proof.
  split; [discriminate|].
  eexists.
  destruct (storage_set_keeps_owner_names json_loads_str_dict sample_env "theme"
              (VStr "light") cached_world _ ltac:(discriminate) eq_refl)
    as (d & d1 & Hd & Hfile & Hc & _).
  exists d1. split; [reflexivity|]. split; [exact Hfile|].
  injection Hd as <-. exact Hc.
Defined.

(* ================================================================== *)
(** * Further properties: the owner-name cache *)
(* ================================================================== *)

Section NormalizeFacts.

Variable json_loads : string -> option pyval.

(** The loop of [_normalize_owner_name_cache], read by key. *)
Lemma normalize_loop_get (items : list (string * pyval))
    (acc : list (string * string)) (id : string) :
  dict_get
    (fold_left
       (fun (normalized : list (string * string)) (item : string * pyval) =>
          let '(steam_id, owner_name) := item in
          match owner_name with
          | VStr owner_name =>
              let sid := strip steam_id in
              let name := strip owner_name in
              if String.eqb sid "" || String.eqb name "" then normalized
              else dict_set normalized sid name
          | _ => normalized
          end) items acc) id
  = match last_name id items with
    | Some name => Some name
    | None => dict_get acc id
    end.
Proof.
  revert acc. induction items as [|[k v] items IH]; intros acc; [reflexivity|].
  cbn [fold_left last_name]. rewrite IH.
  destruct (last_name id items); [reflexivity|].
  unfold item_entry. cbn [fst snd].
  destruct v; try reflexivity.
  destruct (String.eqb (strip k) "" || String.eqb (strip s) ""); [reflexivity|].
  destruct (String.eqb (strip k) id) eqn:E.
  - apply String.eqb_eq in E. subst id. apply dict_get_set_same.
  - apply String.eqb_neq in E. apply dict_get_set_other. congruence.
Qed.

(** X12. What the normalized cache answers: the trimmed name of the last
    item of the raw dict whose trimmed key is the id, both being [str]
    and not blank; nothing at all when the raw value is neither a dict
    nor a text that parses to one.  Its ids are distinct, and every id
    and name in it is trimmed and not empty. *)
Theorem _normalize_owner_name_cache_lookup (raw : pyval) :
  cache_wf (_normalize_owner_name_cache json_loads raw) /\
  forall id,
    dict_get (_normalize_owner_name_cache json_loads raw) id
    = match cache_source json_loads raw with
      | VDict items => last_name id items
      | _ => None
      end.
Proof.
  split; [apply _normalize_owner_name_cache_wf|].
  intros id. unfold _normalize_owner_name_cache.
  fold (cache_source json_loads raw).
  destruct (cache_source json_loads raw); try reflexivity.
  rewrite normalize_loop_get. now destruct (last_name id items).
Qed.

(** A well-formed cache, as a dict, normalizes to itself. *)
Lemma _normalize_owner_name_cache_str_dict (c : list (string * string)) :
  cache_wf c -> _normalize_owner_name_cache json_loads (str_dict c) = c.
Proof.
  intros Hwf.
  transitivity (_normalize_owner_name_cache json_loads_str_dict
                  (VStr (str_dict_text c))).
  - unfold _normalize_owner_name_cache.
    now rewrite (json_loads_str_dict_reads_back c (proj1 Hwf)).
  - apply _normalize_owner_name_cache_reads_back; auto.
    apply json_loads_str_dict_reads_back.
Qed.

(** X13. Normalizing is idempotent across the store: the normalized
    cache, kept as a dict or as the JSON text [json.dumps] writes for
    it, normalizes to itself. *)
Theorem _normalize_owner_name_cache_fixed_point (raw : pyval) :
  reads_back json_loads ->
  let c := _normalize_owner_name_cache json_loads raw in
  _normalize_owner_name_cache json_loads (str_dict c) = c /\
  _normalize_owner_name_cache json_loads (VStr (str_dict_text c)) = c.
Proof.
  intros Hback c. split.
  - apply _normalize_owner_name_cache_str_dict, _normalize_owner_name_cache_wf.
  - apply _normalize_owner_name_cache_reads_back; auto.
    apply _normalize_owner_name_cache_wf.
Qed.

End NormalizeFacts.

Lemma _normalize_owner_name_cache_fixed_point_witness :
  let raw := VDict [(" 7 ", VStr " Carol "); ("8", VInt 3); ("7", VStr "Dave");
                    ("9", VStr "  ")] in
  reads_back json_loads_str_dict /\
  _normalize_owner_name_cache json_loads_str_dict raw = [("7", "Dave")] /\
  _normalize_owner_name_cache json_loads_str_dict
    (VStr (str_dict_text (_normalize_owner_name_cache json_loads_str_dict raw)))
  = _normalize_owner_name_cache json_loads_str_dict raw.
Proof.
  cbv zeta. split; [apply json_loads_str_dict_reads_back|].
  split; [reflexivity|].
  apply (_normalize_owner_name_cache_fixed_point json_loads_str_dict
           (VDict [(" 7 ", VStr " Carol "); ("8", VInt 3); ("7", VStr "Dave");
                   ("9", VStr "  ")])
           json_loads_str_dict_reads_back).
Defined.

(* ================================================================== *)
(** * Further properties: fetching a name *)
(* ================================================================== *)

(** X14. [_fetch_owner_name_from_profile_xml] never raises, makes the
    one request for the profile of the id and touches no file.  A name
    it returns is the trimmed [steamID] text of the profile and is not
    empty; it returns [None] exactly when the request or the XML parser
    raises or that text is missing or blank. *)
Theorem _fetch_owner_name_from_profile_xml_never_raises (e : env)
    (steam_id : string) (w : world) :
  exists name,
    _fetch_owner_name_from_profile_xml e steam_id w
    = (Returns name,
       mkWorld (data_file w)
               (log w ++ [EvFetch (STEAM_PROFILE_XML_URL steam_id)])) /\
    (forall n, name = Some n ->
       n <> "" /\ trimmed n /\
       exists text,
         on_get e (STEAM_PROFILE_XML_URL steam_id) = XmlRoot (Some text) /\
         strip text = n) /\
    (name = None
     <-> match on_get e (STEAM_PROFILE_XML_URL steam_id) with
         | XmlRoot steamID => strip (or_empty steamID) = ""
         | _ => True
         end).
Proof.
  exists (fetch_name e steam_id).
  split; [apply _fetch_owner_name_from_profile_xml_spec|].
  split; [|apply fetch_name_none].
  intros n Hn. destruct (fetch_name_some e steam_id n Hn) as [Hne Htrim].
  split; [assumption|]. split; [assumption|].
  unfold fetch_name in Hn.
  destruct (on_get e (STEAM_PROFILE_XML_URL steam_id)) as [| |steamID];
    try discriminate.
  apply if_truthy_some in Hn. destruct Hn as [Hn _]. injection Hn as Hn.
  destruct steamID as [text|]; [eauto|].
  cbn in Hn. congruence.
Qed.

(* ================================================================== *)
(** * Further properties: loading the plugin *)
(* ================================================================== *)

(** What [_load] does before it tells the host it is ready. *)
Lemma _load_run (e : env) (ready : M unit) (w : world) :
  Plugin._load e ready w
  = match on_write e with
    | MakedirsRaises ex =>
        (Raises ex, mkWorld (data_file w) (log w ++ [EvMakedirs]))
    | _ =>
        ready
          (match data_file w with
           | FileMissing =>
               let eff := write_effect e (VDict []) FileMissing in
               mkWorld (snd (fst eff))
                       (log w ++ [EvMakedirs; EvExists] ++ snd eff)
           | f => mkWorld f (log w ++ [EvMakedirs; EvExists])
           end)
    end.
Proof.
  destruct w as [f l].
  unfold Plugin._load, _ensure_dir, os_path_exists, bind, emit, ret, raise.
  cbn [data_file log].
  destruct (on_write e) eqn:Ew; try reflexivity;
    destruct f; cbn [data_file log negb]; cbv beta iota;
    rewrite ?_write_all_spec; cbn [data_file log];
    rewrite <- ?app_assoc; reflexivity.
Qed.

(** X15. [_load] does not guard its first step: when the backend
    directory cannot be made, the exception reaches the host, the host
    is never told the plugin is ready, and the data file is neither
    tested nor written. *)
Theorem _load_raises_when_makedirs_raises (e : env) (ex : exn)
    (ready : M unit) (w : world) :
  on_write e = MakedirsRaises ex ->
  Plugin._load e ready w
  = (Raises ex, mkWorld (data_file w) (log w ++ [EvMakedirs])).
Proof. intros He. now rewrite _load_run, He. Qed.

Lemma _load_raises_when_makedirs_raises_witness :
  let e := mkEnv (MakedirsRaises (OSError "read-only file system"))
                 (on_get sample_env) in
  on_write e = MakedirsRaises (OSError "read-only file system") /\
  Plugin._load e (print "ready") empty_world
  = (Raises (OSError "read-only file system"),
     mkWorld FileMissing [EvMakedirs]).
Proof.
  cbv zeta. split; [reflexivity|].
  apply (_load_raises_when_makedirs_raises
           (mkEnv (MakedirsRaises (OSError "read-only file system"))
                  (on_get sample_env))
           (OSError "read-only file system") (print "ready") empty_world).
  reflexivity.
Defined.

(** X16. When the directory can be made, [_load] always reaches the
    host's [ready], and by then: a data file that existed is untouched
    and was not opened; for a missing one the only document written is
    the empty one, which the file holds when the write succeeds; a
    failed write is not reported to the host. *)
Theorem _load_initialises_store (e : env) (ready : M unit) (w : world) :
  (forall ex, on_write e <> MakedirsRaises ex) ->
  exists w1 evs,
    Plugin._load e ready w = ready w1 /\
    log w1 = log w ++ evs /\
    (data_file w <> FileMissing ->
     data_file w1 = data_file w /\ evs = [EvMakedirs; EvExists]) /\
    (data_file w = FileMissing ->
     (forall data, In (EvWrite data) evs -> data = VDict []) /\
     (on_write e = WriteSucceeds ->
      data_file w1 = FileJson (VDict []) /\
      evs = [EvMakedirs; EvExists; EvMakedirs; EvWrite (VDict [])])).
Proof.
  intros He. rewrite _load_run.
  destruct (on_write e) eqn:Ew; try (exfalso; now apply (He e0));
    (destruct (data_file w) eqn:Ef;
     [ eexists (mkWorld _ (_ ++ _)), _
     | eexists (mkWorld _ (_ ++ _)), _
     | eexists (mkWorld _ (_ ++ _)), _ ];
     (split; [reflexivity|]); (split; [reflexivity|]);
     (split; [intros Hf | intros Hf]);
     try congruence; try discriminate; try (now split)).
  - unfold write_effect. rewrite Ew. cbn. split.
    + intros data [H|[H|[H|[H|[]]]]]; try discriminate. now injection H.
    + auto.
  - unfold write_effect. rewrite Ew. cbn. split; [|discriminate].
    intros data [H|[H|[H|[H|[H|[]]]]]]; try discriminate. now injection H.
  - unfold write_effect. rewrite Ew. cbn. split; [|discriminate].
    intros data [H|[H|[H|[H|[H|[]]]]]]; try discriminate. now injection H.
Qed.

Lemma _load_initialises_store_witness :
  (forall ex, on_write sample_env <> MakedirsRaises ex) /\
  exists w1,
    Plugin._load sample_env (ret tt) empty_world = (Returns tt, w1) /\
    data_file w1 = FileJson (VDict []).
Proof.
  split; [discriminate|].
  destruct (_load_initialises_store sample_env (ret tt) empty_world
              ltac:(discriminate))
    as (w1 & evs & Hrun & _ & _ & Hmissing).
  exists w1. split; [exact Hrun|].
  now apply Hmissing.
Defined.

(** X17. Loading twice is loading once: after a first [_load] whose
    writes succeed the data file exists, a store that was missing reads
    as empty, and a second [_load], whatever becomes of its writes,
    tests the file and leaves it alone. *)
Theorem _load_twice (e1 e2 : env) (ready : M unit) (w w1 : world) :
  on_write e1 = WriteSucceeds ->
  (forall ex, on_write e2 <> MakedirsRaises ex) ->
  Plugin._load e1 (ret tt) w = (Returns tt, w1) ->
  data_file w1 <> FileMissing /\
  (data_file w = FileMissing ->
   forall payload key, fst (storage_get payload key w1) = Returns VNone) /\
  Plugin._load e2 ready w1
  = ready (mkWorld (data_file w1) (log w1 ++ [EvMakedirs; EvExists])).
Proof.
  intros H1 H2 Hrun.
  rewrite _load_run, H1 in Hrun. unfold ret in Hrun.
  assert (Hfile : data_file w1
                  = match data_file w with
                    | FileMissing => FileJson (VDict [])
                    | f => f
                    end).
  { injection Hrun as <-. unfold write_effect. rewrite H1.
    destruct (data_file w); reflexivity. }
  assert (Hex : data_file w1 <> FileMissing).
  { rewrite Hfile. destruct (data_file w); discriminate. }
  split; [exact Hex|]. split.
  - intros Hf payload key. rewrite Hf in Hfile.
    rewrite storage_get_payload.
    destruct (payload_get payload p_key key) as [k|]; [|reflexivity].
    rewrite storage_get_spec, Hfile. reflexivity.
  - rewrite _load_run.
    destruct (on_write e2) eqn:E2; try (exfalso; now apply (H2 e));
      destruct (data_file w1); congruence.
Qed.

Lemma _load_twice_witness :
  on_write sample_env = WriteSucceeds /\
  (forall ex, on_write sample_env <> MakedirsRaises ex) /\
  exists w1,
    Plugin._load sample_env (ret tt) empty_world = (Returns tt, w1) /\
    fst (storage_get None (Some "theme") w1) = Returns VNone /\
    Plugin._load sample_env (ret tt) w1
    = (Returns tt, mkWorld (data_file w1) (log w1 ++ [EvMakedirs; EvExists])).
Proof.
  split; [reflexivity|]. split; [discriminate|].
  eexists. split; [reflexivity|].
  destruct (_load_twice sample_env sample_env (ret tt) empty_world _
              eq_refl ltac:(discriminate) eq_refl)
    as (_ & Hget & Hagain).
  split; [now apply Hget | exact Hagain].
Defined.


(* ================================================================== *)
(** * Further properties: the resolver across calls *)
(* ================================================================== *)

Section ResolverAcrossCalls.

Variable json_loads : string -> option pyval.

(** The file a call leaves, when its writes succeed: a document that
    differs from the one it found in the cache alone, and whose cache is
    the final cache of the call. *)
Lemma world_after_cache e force_refresh (d : list (string * pyval))
    (ids : list string) (w : world) :
  let c0 := persisted_cache json_loads d in
  reads_back json_loads ->
  loaded (data_file w) = VDict d ->
  serializable (VDict d) ->
  on_write e = WriteSucceeds ->
  NoDup ids ->
  (forall id, In id ids -> id <> "" /\ trimmed id) ->
  exists d1,
    loaded (data_file (world_after e force_refresh d c0 ids w)) = VDict d1 /\
    serializable (VDict d1) /\
    (forall k, k <> OWNER_NAME_CACHE_KEY -> dict_get d1 k = dict_get d k) /\
    (forall id,
        dict_get (persisted_cache json_loads d1) id
        = dict_get (final_cache e force_refresh c0 ids) id).
Proof.
  intros c0 Hback Hd Hser He Hnd Hids.
  rewrite world_after_file. unfold write_back.
  destruct (any_fetched e force_refresh c0 ids) eqn:Hany; cbn [fst].
  - rewrite write_effect_file by now apply write_succeeds_with_cache.
    eexists. split; [reflexivity|].
    split; [now apply serializable_with_cache|].
    split; [intros k Hk; now apply dict_get_set_other|].
    intros id. rewrite persisted_cache_with_cache; auto.
    apply final_cache_wf; auto. apply _normalize_owner_name_cache_wf.
  - exists d. split; [assumption|]. split; [assumption|].
    split; [reflexivity|].
    intros id. symmetry. now apply final_cache_unchanged.
Qed.

(** X18. What a call leaves in the store when its writes succeed: every
    key but the cache key is as it was, and the cache the next call will
    read holds, for an id asked for, the name a fetch brought (under a
    forced refresh this replaces the cached one) and otherwise what it
    held before; entries of ids not asked for are kept. *)
Theorem resolve_owner_names_updates_cache e steam_ids steam_ids_csv
    force_refresh (d : list (string * pyval)) (w : world) :
  let ids := _parse_steam_ids steam_ids steam_ids_csv in
  let c0 := persisted_cache json_loads d in
  reads_back json_loads ->
  loaded (data_file w) = VDict d ->
  serializable (VDict d) ->
  on_write e = WriteSucceeds ->
  exists text w' d',
    resolve_owner_names json_loads e None steam_ids steam_ids_csv force_refresh w
    = (Returns text, w') /\
    loaded (data_file w') = VDict d' /\
    (forall k, k <> OWNER_NAME_CACHE_KEY -> dict_get d' k = dict_get d k) /\
    (forall id, In id ids ->
       dict_get (persisted_cache json_loads d') id
       = match fetched e force_refresh c0 id with
         | Some name => Some name
         | None => dict_get c0 id
         end) /\
    (forall id, ~ In id ids ->
       dict_get (persisted_cache json_loads d') id = dict_get c0 id).
Proof.
  intros ids c0 Hback Hd Hser He.
  pose proof (_parse_steam_ids_NoDup steam_ids steam_ids_csv) as Hnd.
  destruct (world_after_cache e force_refresh d ids w Hback Hd Hser He Hnd
              (_parse_steam_ids_trimmed steam_ids steam_ids_csv))
    as (d1 & Hd1 & _ & Hkeys & Hcache).
  rewrite (resolve_owner_names_run json_loads e force_refresh _ _ d w Hd).
  eexists _, _, d1. split; [reflexivity|].
  split; [exact Hd1|]. split; [exact Hkeys|]. split.
  - intros id Hin. rewrite Hcache. now apply final_cache_inside.
  - intros id Hout. rewrite Hcache. now apply final_cache_outside.
Qed.

(** X19. The cache works across calls.  After a call whose writes
    succeed, an unforced call for the same ids returns every name the
    first call resolved without fetching it again; an id that the first
    call could not resolve and the cache did not hold is fetched again,
    once, since failures are not cached; and when the first call
    resolved every id, the second makes no request and leaves the file
    alone. *)
Theorem resolve_owner_names_second_call e1 e2 steam_ids steam_ids_csv
    force_refresh (d : list (string * pyval)) (w : world) :
  let ids := _parse_steam_ids steam_ids steam_ids_csv in
  let c0 := persisted_cache json_loads d in
  reads_back json_loads ->
  loaded (data_file w) = VDict d ->
  serializable (VDict d) ->
  on_write e1 = WriteSucceeds ->
  exists r1 w1 r2 w2 evs2,
    resolve_owner_names json_loads e1 None steam_ids steam_ids_csv force_refresh w
    = (Returns (str_dict_text r1), w1) /\
    resolve_owner_names json_loads e2 None steam_ids steam_ids_csv false w1
    = (Returns (str_dict_text r2), w2) /\
    log w2 = log w1 ++ evs2 /\
    (forall id name, dict_get r1 id = Some name ->
       dict_get r2 id = Some name /\ fetch_count id evs2 = 0) /\
    (forall id, In id ids -> dict_get r1 id = None -> dict_get c0 id = None ->
       dict_get r2 id = fetch_name e2 id /\ fetch_count id evs2 = 1) /\
    ((forall id, In id ids -> dict_get r1 id <> None) ->
     data_file w2 = data_file w1 /\
     forall ev, In ev evs2 -> ev = EvExists \/ ev = EvRead).
Proof.
  intros ids c0 Hback Hd Hser He.
  pose proof (_parse_steam_ids_NoDup steam_ids steam_ids_csv) as Hnd.
  fold ids in Hnd.
  destruct (world_after_cache e1 force_refresh d ids w Hback Hd Hser He Hnd
              (_parse_steam_ids_trimmed steam_ids steam_ids_csv))
    as (d1 & Hd1 & _ & _ & Hcache).
  fold c0 in Hd1, Hcache.
  set (w1 := world_after e1 force_refresh d c0 ids w) in *.
  set (c1 := persisted_cache json_loads d1) in *.
  assert (Hok1 : cache_ok c1) by apply persisted_cache_ok.
  exists (resolved e1 force_refresh c0 ids), w1,
    (resolved e2 false c1 ids), (world_after e2 false d1 c1 ids w1),
    (call_events e2 false d1 c1 ids (data_file w1)).
  split; [now apply resolve_owner_names_run|].
  split; [now apply resolve_owner_names_run|].
  split; [apply world_after_log|].
  assert (Hkept : forall id name,
             In id ids -> resolution e1 force_refresh c0 id = Some name ->
             cache_hit false c1 id = Some name).
  { intros id name Hin Hres. apply cache_hit_some; auto.
    rewrite Hcache. now apply final_cache_resolved. }
  split; [|split].
  - intros id name Hget. apply resolved_get in Hget. destruct Hget as [Hin Hres].
    pose proof (Hkept id name Hin Hres) as Hhit. split.
    + apply (proj2 (resolved_get e2 false c1 ids id name)).
      split; auto. unfold resolution. now rewrite Hhit.
    + rewrite call_events_fetch_count_in by assumption.
      unfold needs_fetch. now rewrite Hhit.
  - intros id Hin Hmiss Hnew.
    assert (Hres : resolution e1 force_refresh c0 id = None).
    { destruct (resolution e1 force_refresh c0 id) as [n|] eqn:E; auto.
      assert (H : dict_get (resolved e1 force_refresh c0 ids) id = Some n)
        by (apply (proj2 (resolved_get e1 force_refresh c0 ids id n)); auto).
      congruence. }
    assert (Hfetched : fetched e1 force_refresh c0 id = None).
    { unfold resolution in Hres. unfold fetched.
      destruct (cache_hit force_refresh c0 id); [discriminate | assumption]. }
    assert (Hhit : cache_hit false c1 id = None).
    { unfold cache_hit. rewrite Hcache, final_cache_inside by assumption.
      now rewrite Hfetched, Hnew. }
    split.
    + unfold resolved. rewrite resolved_get_in by assumption.
      unfold resolution. now rewrite Hhit.
    + rewrite call_events_fetch_count_in by assumption.
      unfold needs_fetch. now rewrite Hhit.
  - intros Hall.
    assert (Hhits : forall id, In id ids -> needs_fetch false c1 id = false).
    { intros id Hin.
      destruct (resolution e1 force_refresh c0 id) as [n|] eqn:E.
      - unfold needs_fetch. now rewrite (Hkept id n Hin E).
      - exfalso. apply (Hall id Hin).
        unfold resolved. rewrite resolved_get_in by assumption. exact E. }
    assert (Hnone : any_fetched e2 false c1 ids = false).
    { unfold any_fetched. apply not_true_is_false. intros H.
      apply existsb_exists in H. destruct H as (id & Hin & Hsome).
      specialize (Hhits id Hin). unfold needs_fetch in Hhits. unfold fetched in Hsome.
      destruct (cache_hit false c1 id); discriminate. }
    assert (Hfetches : fetch_events false c1 ids = []).
    { unfold fetch_events.
      replace (filter (needs_fetch false c1) ids) with (@nil string); auto.
      symmetry. clear - Hhits. induction ids as [|x l IH]; auto.
      cbn [filter]. rewrite (Hhits x) by now left.
      apply IH. intros; apply Hhits; now right. }
    split.
    + rewrite world_after_file. unfold write_back. now rewrite Hnone.
    + unfold call_events, write_back. rewrite Hnone, Hfetches.
      destruct ids; [intros ev []|]. cbn [snd app]. rewrite app_nil_r.
      apply load_events_cases.
Qed.


(** X21. The order of the effects of a call: the data file is tested and
    read before the first request, the requests follow, and the file is
    written after the last of them, at most once; when no write is
    attempted the file is left as it was. *)
Theorem resolve_owner_names_effect_order e payload steam_ids steam_ids_csv
    force_refresh (d : list (string * pyval)) (w : world) :
  loaded (data_file w) = VDict d ->
  exists text w' pre fetches post,
    resolve_owner_names json_loads e payload steam_ids steam_ids_csv
      force_refresh w = (Returns text, w') /\
    log w' = log w ++ pre ++ fetches ++ post /\
    (forall ev, In ev pre -> ev = EvExists \/ ev = EvRead) /\
    (forall ev, In ev fetches -> is_fetch ev = true) /\
    (forall ev, In ev post ->
       is_fetch ev = false /\ ev <> EvExists /\ ev <> EvRead) /\
    length (filter is_write post) <= 1 /\
    ((forall data, ~ In (EvWrite data) post) -> data_file w' = data_file w).
Proof.
  intros Hd. rewrite resolve_owner_names_payload.
  rewrite (resolve_owner_names_run json_loads e _ _ _ d w Hd).
  set (force := match payload with Some _ => _ | None => _ end).
  set (ids := _parse_steam_ids _ _).
  set (c0 := persisted_cache json_loads d).
  destruct ids as [|id0 rest] eqn:Eids.
  - exists "{}", w, [], [], []. cbn [app]. rewrite app_nil_r.
    split; [reflexivity|]. split; [reflexivity|].
    do 3 (split; [intros ev []|]). split; [simpl; lia | reflexivity].
  - rewrite <- Eids.
    eexists _, _, (load_events (data_file w)), (fetch_events force c0 ids),
      (snd (write_back e force d c0 ids (data_file w))).
    split; [reflexivity|]. split.
    { rewrite world_after_log. unfold call_events. now rewrite Eids. }
    split; [apply load_events_cases|].
    split; [apply fetch_events_kind_fetch|].
    split; [apply write_back_events|].
    split; [apply write_back_one_write|].
    intros Hnone. rewrite world_after_file. now apply write_back_no_write.
Qed.

(** X22. The text [resolve_owner_names] returns is the JSON text of the
    mapping of the resolved ids: it reads back to a list of items whose
    keys are, in the order parsed and each once, the parsed ids that
    resolve, and which gives an id a name exactly when the id was parsed
    and resolves to that name. *)
Theorem resolve_owner_names_text_reads_back e payload steam_ids steam_ids_csv
    force_refresh (d : list (string * pyval)) (w : world) :
  let ids := _parse_steam_ids (payload_get payload p_steam_ids steam_ids)
               (payload_get payload p_steam_ids_csv steam_ids_csv) in
  let force :=
    match payload with
    | Some _ => py_bool (payload_get payload p_force_refresh (VBool force_refresh))
    | None => force_refresh
    end in
  let c0 := persisted_cache json_loads d in
  loaded (data_file w) = VDict d ->
  exists text r,
    fst (resolve_owner_names json_loads e payload steam_ids steam_ids_csv
           force_refresh w) = Returns text /\
    read_str_items text = Some r /\
    json_loads_str_dict text = Some (str_dict r) /\
    NoDup (dict_keys r) /\
    dict_keys r = filter (fun id => is_some (resolution e force c0 id)) ids /\
    (forall id name,
       dict_get r id = Some name
       <-> In id ids /\ resolution e force c0 id = Some name) /\
    (forall id name, In (id, name) r -> dict_get r id = Some name).
Proof.
  intros ids force c0 Hd. rewrite resolve_owner_names_payload.
  rewrite (resolve_owner_names_run json_loads e _ _ _ d w Hd). cbn [fst].
  fold ids force c0.
  assert (Hnd : NoDup (dict_keys (resolved e force c0 ids)))
    by apply resolved_NoDup, _parse_steam_ids_NoDup.
  eexists _, (resolved e force c0 ids). split; [reflexivity|].
  split; [apply read_str_items_text|].
  split; [now apply json_loads_str_dict_reads_back|].
  split; [exact Hnd|].
  split; [apply resolved_keys|].
  split; [intros; apply resolved_get|].
  intros id name Hin. clear - Hnd Hin. unfold dict_keys in Hnd.
  induction (resolved e force c0 ids) as [|[k v] r IH]; [destruct Hin|].
  cbn [map fst] in Hnd. inversion Hnd as [|? ? Hk Hr]; subst.
  cbn [dict_get]. destruct Hin as [Heq|Hin].
  - injection Heq as -> ->. now rewrite String.eqb_refl.
  - destruct (String.eqb k id) eqn:E; [|auto].
    apply String.eqb_eq in E. subst k. exfalso. apply Hk.
    apply in_map_iff. exists (id, name). auto.
Qed.

(** X23. A request the cache answers in full needs neither the network
    nor a write: without a forced refresh, when the cache holds every
    parsed id, the result maps each id, in order, to its cached name,
    whatever the surroundings are, no profile is requested, and the data
    file is only read. *)
Theorem resolve_owner_names_all_cached e steam_ids steam_ids_csv
    (d : list (string * pyval)) (w : world) :
  let ids := _parse_steam_ids steam_ids steam_ids_csv in
  let c0 := persisted_cache json_loads d in
  loaded (data_file w) = VDict d ->
  (forall id, In id ids -> dict_get c0 id <> None) ->
  exists r w' evs,
    resolve_owner_names json_loads e None steam_ids steam_ids_csv false w
    = (Returns (str_dict_text r), w') /\
    log w' = log w ++ evs /\
    data_file w' = data_file w /\
    (forall ev, In ev evs -> ev = EvExists \/ ev = EvRead) /\
    dict_keys r = ids /\
    forall id, In id ids -> dict_get r id = dict_get c0 id.
Proof.
  intros ids c0 Hd Hall.
  assert (Hhit : forall id, In id ids ->
             cache_hit false c0 id = dict_get c0 id /\ dict_get c0 id <> None).
  { intros id Hin. specialize (Hall id Hin).
    destruct (dict_get c0 id) as [name|] eqn:E; [|congruence].
    split; [|discriminate].
    apply cache_hit_some; auto. apply persisted_cache_ok. }
  assert (Hneeds : forall id, In id ids -> needs_fetch false c0 id = false).
  { intros id Hin. destruct (Hhit id Hin) as [H1 H2]. unfold needs_fetch.
    rewrite H1. now destruct (dict_get c0 id). }
  assert (Hnone : any_fetched e false c0 ids = false).
  { unfold any_fetched. apply not_true_is_false. intros H.
    apply existsb_exists in H. destruct H as (id & Hin & Hsome).
    specialize (Hneeds id Hin). unfold needs_fetch in Hneeds.
    unfold fetched in Hsome.
    destruct (cache_hit false c0 id); discriminate. }
  assert (Hfetches : fetch_events false c0 ids = []).
  { unfold fetch_events.
    replace (filter (needs_fetch false c0) ids) with (@nil string); auto.
    symmetry. clear - Hneeds. induction ids as [|x l IH]; auto.
    cbn [filter]. rewrite (Hneeds x) by now left.
    apply IH. intros; apply Hneeds; now right. }
  exists (resolved e false c0 ids), (world_after e false d c0 ids w),
    (call_events e false d c0 ids (data_file w)).
  split; [now apply resolve_owner_names_run|].
  split; [apply world_after_log|].
  split; [rewrite world_after_file; unfold write_back; now rewrite Hnone|].
  split; [|split].
  - unfold call_events, write_back. rewrite Hnone, Hfetches.
    destruct ids; [intros ev []|]. cbn [snd app]. rewrite app_nil_r.
    apply load_events_cases.
  - unfold resolved. rewrite resolved_keys. apply filter_all.
    intros id Hin. destruct (Hhit id Hin) as [H1 H2].
    unfold resolution. rewrite H1. now destruct (dict_get c0 id).
  - intros id Hin. unfold resolved. rewrite resolved_get_in by assumption.
    destruct (Hhit id Hin) as [H1 H2].
    unfold resolution. rewrite H1. now destruct (dict_get c0 id).
Qed.

End ResolverAcrossCalls.

Lemma resolve_owner_names_updates_cache_witness :
  reads_back json_loads_str_dict /\
  loaded (data_file cached_world) = VDict cached_doc /\
  serializable (VDict cached_doc) /\
  on_write sample_env = WriteSucceeds /\
  exists text w' d',
    resolve_owner_names json_loads_str_dict sample_env None VNone (VStr "7, 1")
      true cached_world = (Returns text, w') /\
    loaded (data_file w') = VDict d' /\
    dict_get d' "theme" = Some (VStr "dark") /\
    dict_get (persisted_cache json_loads_str_dict d') "1" = Some "Alice" /\
    dict_get (persisted_cache json_loads_str_dict d') "7" = Some "Carol".
Proof.
  split; [apply json_loads_str_dict_reads_back|]. split; [reflexivity|].
  split; [eexists; reflexivity|]. split; [reflexivity|].
  destruct (resolve_owner_names_updates_cache json_loads_str_dict sample_env VNone (VStr "7, 1") true
              cached_doc cached_world json_loads_str_dict_reads_back eq_refl
              (ex_intro _ _ eq_refl) eq_refl)
    as (text & w' & d' & Hrun & Hd' & Hkeys & Hin & _).
  exists text, w', d'. split; [exact Hrun|]. split; [exact Hd'|].
  split; [rewrite Hkeys by discriminate; reflexivity|].
  split; [rewrite Hin by (simpl; auto) | rewrite Hin by (simpl; auto)];
    reflexivity.
Defined.

Lemma resolve_owner_names_second_call_witness :
  reads_back json_loads_str_dict /\
  loaded (data_file cached_world) = VDict cached_doc /\
  serializable (VDict cached_doc) /\
  on_write sample_env = WriteSucceeds /\
  exists r1 w1 r2 w2 evs2,
    resolve_owner_names json_loads_str_dict sample_env None VNone (VStr "1,4")
      false cached_world = (Returns (str_dict_text r1), w1) /\
    resolve_owner_names json_loads_str_dict sample_env None VNone (VStr "1,4")
      false w1 = (Returns (str_dict_text r2), w2) /\
    log w2 = log w1 ++ evs2 /\
    dict_get r1 "1" = Some "Alice" /\
    dict_get r2 "1" = Some "Alice" /\
    fetch_count "1" evs2 = 0 /\
    fetch_count "4" evs2 = 1.
Proof.
  split; [apply json_loads_str_dict_reads_back|]. split; [reflexivity|].
  split; [eexists; reflexivity|]. split; [reflexivity|].
  destruct (resolve_owner_names_second_call json_loads_str_dict sample_env sample_env VNone
              (VStr "1,4") false cached_doc cached_world
              json_loads_str_dict_reads_back eq_refl
              (ex_intro _ _ eq_refl) eq_refl)
    as (r1 & w1 & r2 & w2 & evs2 & Hrun1 & Hrun2 & Hlog & Hkept & Hagain & _).
  assert (Hr1 : r1 = [("1", "Alice")]).
  { apply str_dict_text_inj.
    assert (H : fst (resolve_owner_names json_loads_str_dict sample_env None
                       VNone (VStr "1,4") false cached_world)
                = Returns (str_dict_text [("1", "Alice")])) by reflexivity.
    rewrite Hrun1 in H. cbn [fst] in H. congruence. }
  exists r1, w1, r2, w2, evs2.
  split; [exact Hrun1|]. split; [exact Hrun2|]. split; [exact Hlog|].
  assert (H1 : dict_get r1 "1" = Some "Alice") by (rewrite Hr1; reflexivity).
  split; [exact H1|].
  split; [apply (Hkept "1" "Alice" H1)|].
  split; [apply (Hkept "1" "Alice" H1)|].
  apply (Hagain "4"); [simpl; auto | rewrite Hr1; reflexivity | reflexivity].
Defined.


Lemma resolve_owner_names_effect_order_witness :
  loaded (data_file cached_world) = VDict cached_doc /\
  exists text w' pre fetches post,
    resolve_owner_names json_loads_str_dict sample_env None VNone (VStr "7, 1")
      true cached_world = (Returns text, w') /\
    log w' = log cached_world ++ pre ++ fetches ++ post /\
    (forall ev, In ev fetches -> is_fetch ev = true) /\
    length (filter is_write post) <= 1.
Proof.
  split; [reflexivity|].
  destruct (resolve_owner_names_effect_order json_loads_str_dict sample_env None VNone (VStr "7, 1")
              true cached_doc cached_world eq_refl)
    as (text & w' & pre & fetches & post & Hrun & Hlog & _ & Hf & _ & Hw & _).
  exists text, w', pre, fetches, post. auto.
Defined.

Lemma resolve_owner_names_text_reads_back_witness :
  loaded (data_file cached_world) = VDict cached_doc /\
  exists text r,
    fst (resolve_owner_names json_loads_str_dict sample_env None VNone
           (VStr "7,1,3") false cached_world) = Returns text /\
    read_str_items text = Some r /\
    dict_keys r = ["7"; "1"] /\
    dict_get r "7" = Some "Carol" /\
    dict_get r "1" = Some "Alice".
Proof.
  split; [reflexivity|].
  destruct (resolve_owner_names_text_reads_back json_loads_str_dict sample_env
              None VNone (VStr "7,1,3") false cached_doc cached_world eq_refl)
    as (text & r & Hrun & Hread & _ & _ & Hkeys & Hget & _).
  exists text, r. split; [exact Hrun|]. split; [exact Hread|].
  split; [exact Hkeys|].
  split; apply Hget; (split; [simpl; auto | reflexivity]).
Defined.

Lemma resolve_owner_names_all_cached_witness :
  loaded (data_file cached_world) = VDict cached_doc /\
  (forall id, In id (_parse_steam_ids VNone (VStr " 7 ,7")) ->
     dict_get (persisted_cache json_loads_str_dict cached_doc) id <> None) /\
  exists r w' evs,
    resolve_owner_names json_loads_str_dict sample_env None VNone (VStr " 7 ,7")
      false cached_world = (Returns (str_dict_text r), w') /\
    log w' = log cached_world ++ evs /\
    data_file w' = data_file cached_world /\
    dict_keys r = ["7"].
Proof.
  split; [reflexivity|].
  assert (H : forall id, In id (_parse_steam_ids VNone (VStr " 7 ,7")) ->
              dict_get (persisted_cache json_loads_str_dict cached_doc) id <> None).
  { intros id [<-|[]]. discriminate. }
  split; [exact H|].
  destruct (resolve_owner_names_all_cached json_loads_str_dict sample_env VNone (VStr " 7 ,7")
              cached_doc cached_world eq_refl H)
    as (r & w' & evs & Hrun & Hlog & Hfile & _ & Hkeys & _).
  exists r, w', evs. auto.
Defined.

(* ================================================================== *)
(** * Further properties: when the entry points raise *)
(* ================================================================== *)

Lemma storage_get_not_dict (k : string) (w : world) :
  (forall d, loaded (data_file w) <> VDict d) ->
  exists ex,
    storage_get None (Some k) w
    = (Raises ex, mkWorld (data_file w) (log w ++ load_events (data_file w))).
Proof.
  intros Hd. rewrite storage_get_spec.
  destruct (loaded (data_file w)) eqn:E; cbn [py_get]; unfold raise; eauto.
  exfalso. eapply Hd. reflexivity.
Qed.

Lemma storage_set_not_dict_run (e : env) (k : string) (v : pyval) (s : string)
    (w : world) :
  v <> VNone ->
  stored_text v = Some s ->
  (forall d, loaded (data_file w) <> VDict d) ->
  exists ex,
    storage_set e None (Some k) v w
    = (Raises ex, mkWorld (data_file w) (log w ++ load_events (data_file w))).
Proof.
  intros Hv Hs Hd.
  rewrite (storage_set_stored e k v s w Hv Hs).
  unfold bind. rewrite _load_all_spec.
  destruct (loaded (data_file w)) eqn:E; cbn [py_setitem]; unfold raise; eauto.
  exfalso. eapply Hd. reflexivity.
Qed.

(** X24. The entry points raise exactly on a data file whose JSON text
    is not an object.  For [storage_get] with a key, [storage_set] with
    a key and a value it can store, and [resolve_owner_names] with at
    least one id: each raises when, and only when, the file holds such
    a text; and then the file has only been read. *)
Theorem entry_points_raise_iff (json_loads : string -> option pyval) (e : env)
    (k : string) (v : pyval) steam_ids steam_ids_csv force_refresh (w : world) :
  v <> VNone ->
  stored_text v <> None ->
  _parse_steam_ids steam_ids steam_ids_csv <> [] ->
  let not_object := forall d, loaded (data_file w) <> VDict d in
  let got := storage_get None (Some k) w in
  let set := storage_set e None (Some k) v w in
  let resolved_names :=
    resolve_owner_names json_loads e None steam_ids steam_ids_csv
      force_refresh w in
  ((exists ex, fst got = Raises ex) <-> not_object) /\
  ((exists ex, fst set = Raises ex) <-> not_object) /\
  ((exists ex, fst resolved_names = Raises ex) <-> not_object) /\
  (not_object ->
   exists doc,
     data_file w = FileJson doc /\
     snd got = mkWorld (FileJson doc) (log w ++ [EvExists; EvRead]) /\
     snd set = mkWorld (FileJson doc) (log w ++ [EvExists; EvRead]) /\
     snd resolved_names = mkWorld (FileJson doc) (log w ++ [EvExists; EvRead])).
Proof.
  intros Hv Hs Hids not_object got set resolved_names.
  destruct (stored_text v) as [s|] eqn:Es; [clear Hs | congruence].
  assert (Hreturns : forall d, loaded (data_file w) = VDict d ->
            forall A (o : outcome A) ex,
              (exists a, o = Returns a) -> o = Raises ex -> not_object).
  { intros d Hd A o ex [a ->]. discriminate. }
  split; [|split; [|split]].
  - split.
    + intros [ex Hex].
      destruct (loaded_dict_dec (data_file w)) as [[d Hd]|Hd]; [|exact Hd].
      destruct (entry_points_return_on_object_file json_loads e d w Hd)
        as (Hget & _). eapply (Hreturns d Hd); eauto.
    + intros Hbad. destruct (storage_get_not_dict k w Hbad) as [ex Hex].
      exists ex. subst got. now rewrite Hex.
  - split.
    + intros [ex Hex].
      destruct (loaded_dict_dec (data_file w)) as [[d Hd]|Hd]; [|exact Hd].
      destruct (entry_points_return_on_object_file json_loads e d w Hd)
        as (_ & Hset & _). eapply (Hreturns d Hd); eauto.
    + intros Hbad.
      destruct (storage_set_not_dict_run e k v s w Hv Es Hbad) as [ex Hex].
      exists ex. subst set. now rewrite Hex.
  - split.
    + intros [ex Hex].
      destruct (loaded_dict_dec (data_file w)) as [[d Hd]|Hd]; [|exact Hd].
      destruct (entry_points_return_on_object_file json_loads e d w Hd)
        as (_ & _ & Hres). eapply (Hreturns d Hd); eauto.
    + intros Hbad.
      destruct (resolve_owner_names_not_dict json_loads e steam_ids
                  steam_ids_csv force_refresh w Hids Hbad) as [ex Hex].
      exists ex. subst resolved_names. now rewrite Hex.
  - intros Hbad.
    destruct (storage_get_not_dict k w Hbad) as [ex1 H1].
    destruct (storage_set_not_dict_run e k v s w Hv Es Hbad) as [ex2 H2].
    destruct (resolve_owner_names_not_dict json_loads e steam_ids
                steam_ids_csv force_refresh w Hids Hbad) as [ex3 H3].
    subst got set resolved_names. rewrite H1, H2, H3. cbn [snd].
    destruct (data_file w) as [| |doc] eqn:Ef.
    + exfalso. apply (Hbad []). reflexivity.
    + exfalso. apply (Hbad []). reflexivity.
    + exists doc. auto.
Qed.

Lemma entry_points_raise_iff_witness :
  let w := mkWorld (FileJson (VInt 3)) [] in
  VStr "v" <> VNone /\
  stored_text (VStr "v") <> None /\
  _parse_steam_ids VNone (VStr "1") <> [] /\
  (exists ex, fst (storage_get None (Some "k") w) = Raises ex) /\
  (exists ex, fst (storage_set sample_env None (Some "k") (VStr "v") w)
              = Raises ex) /\
  (exists ex, fst (resolve_owner_names json_loads_str_dict sample_env None
                     VNone (VStr "1") false w) = Raises ex).
Proof.
  cbv zeta.
  split; [discriminate|]. split; [discriminate|]. split; [discriminate|].
  destruct (entry_points_raise_iff json_loads_str_dict sample_env "k" (VStr "v")
              VNone (VStr "1") false (mkWorld (FileJson (VInt 3)) [])
              ltac:(discriminate) ltac:(discriminate) ltac:(discriminate))
    as (Hget & Hset & Hres & _).
  assert (Hbad : forall d,
             loaded (data_file (mkWorld (FileJson (VInt 3)) [])) <> VDict d)
    by discriminate.
  split; [now apply Hget|]. split; [now apply Hset | now apply Hres].
Defined.
